(** * PrimeTime BD Intel: job normalization and program mapping

    A shallow embedding of the two pipeline stages of the repository,

    - [src/pipelines/scraper_engine/normalize_jobs.py]  (class [JobNormalizer])
    - [src/pipelines/mapping_engine/map_jobs_to_programs.py]
      (class [ProgramMappingEngine])

    and of the spider that feeds them,

    - [src/scrapers/insight_global_spider.py]  (class [InsightGlobalSpider])

    together with the properties of these stages that the specification
    states and further properties read off the code.  Python values are modelled as follows.

    - [str] is [string]; the text is ASCII, so [str.lower], [str.upper],
      [\s], [\w] and [\b] are the ASCII restrictions of Python's functions.
    - [float] is IEEE-754 binary64, given by the Standard Library's
      executable specification [SpecFloat] at precision 53.
    - A raised exception is a value [Raise e] of type [result]; [try] /
      [except] is [try_except].
    - A JSON object read from a file is a [gmap string pyval] when only its
      lookups matter and an association list when its order matters.
    - Python library calls whose text is not part of the repository
      ([datetime], [json.loads], the iteration order of [set], the
      completion service) are parameters of the model. *)

From Stdlib Require Import ZArith Ascii String List Bool Lia.
From Stdlib Require Import Floats.
From stdpp Require Import base option list strings gmap pretty.

Local Open Scope string_scope.
Local Open Scope list_scope.

(* ===================================================================== *)
(** * Exceptions *)
(* ===================================================================== *)

Inductive exn : Type :=
| KeyError (key : string)
| TypeError
| AttributeError
| IndexError
| ValueError (msg : string)
| JSONDecodeError
| FileNotFoundError
| OSError
| ServiceError (msg : string).

Inductive result (A : Type) : Type :=
| Ok (a : A)
| Raise (e : exn).
Arguments Ok {A} a.
Arguments Raise {A} e.

Definition rbind {A B : Type} (m : result A) (f : A -> result B) : result B :=
  match m with
  | Ok a => f a
  | Raise e => Raise e
  end.

(** [try: body except Exception as e: handler e] *)
Definition try_except {A : Type} (body : result A) (handler : exn -> result A)
  : result A :=
  match body with
  | Ok a => Ok a
  | Raise e => handler e
  end.

#[global] Instance result_ret : MRet result := fun A a => Ok a.
#[global] Instance result_bind : MBind result := fun A B f m => rbind m f.

(* ===================================================================== *)
(** * Python values as they come out of [json.load] *)
(* ===================================================================== *)

(** JSON numbers are integers here; no field that the two modules read is
    meant to hold a number. *)
#[warnings="-register-all"] Inductive pyval : Type :=
| PNone
| PBool (b : bool)
| PInt (n : Z)
| PStr (s : string)
| PList (l : list pyval)
| PDict (l : list (string * pyval)).

(** Truth value testing, as in [if not x]. *)
Definition truthy (v : pyval) : bool :=
  match v with
  | PNone => false
  | PBool b => b
  | PInt n => negb (n =? 0)%Z
  | PStr s => negb (String.eqb s "")
  | PList l => match l with [] => false | _ => true end
  | PDict l => match l with [] => false | _ => true end
  end.

(* ===================================================================== *)
(** * ASCII text *)
(* ===================================================================== *)

Module PyText.

Definition code (c : ascii) : nat := nat_of_ascii c.

Definition between (lo hi : nat) (c : ascii) : bool :=
  (lo <=? code c)%nat && (code c <=? hi)%nat.

Definition is_upper (c : ascii) : bool := between 65 90 c.
Definition is_lower (c : ascii) : bool := between 97 122 c.
Definition is_digit (c : ascii) : bool := between 48 57 c.

(** [\w]: letters, digits and the underscore. *)
Definition is_word (c : ascii) : bool :=
  is_upper c || is_lower c || is_digit c || (code c =? 95)%nat.

(** [\s] and [str.isspace]: TAB, LF, VT, FF, CR, FS, GS, RS, US and space. *)
Definition is_space (c : ascii) : bool := between 9 13 c || between 28 32 c.

Definition to_lower (c : ascii) : ascii :=
  if is_upper c then ascii_of_nat (code c + 32) else c.

Definition to_upper (c : ascii) : ascii :=
  if is_lower c then ascii_of_nat (code c - 32) else c.

Fixpoint smap (f : ascii -> ascii) (s : string) : string :=
  match s with
  | EmptyString => EmptyString
  | String c s' => String (f c) (smap f s')
  end.

(** [s.lower()] and [s.upper()] *)
Definition lower (s : string) : string := smap to_lower s.
Definition upper (s : string) : string := smap to_upper s.

Fixpoint startswith (p s : string) : bool :=
  match p, s with
  | EmptyString, _ => true
  | String a p', String b s' => Ascii.eqb a b && startswith p' s'
  | String _ _, EmptyString => false
  end.

(** [needle in hay] on strings: substring test. *)
Fixpoint str_in (needle hay : string) : bool :=
  startswith needle hay ||
  match hay with
  | EmptyString => false
  | String _ hay' => str_in needle hay'
  end.

Fixpoint lstrip (s : string) : string :=
  match s with
  | EmptyString => EmptyString
  | String c s' => if is_space c then lstrip s' else s
  end.

Fixpoint rstrip (s : string) : string :=
  match s with
  | EmptyString => EmptyString
  | String c s' =>
      match rstrip s' with
      | EmptyString => if is_space c then EmptyString else String c EmptyString
      | r => String c r
      end
  end.

(** [s.strip()] *)
Definition strip (s : string) : string := rstrip (lstrip s).

(** [sep.join(parts)] *)
Definition join (sep : string) (parts : list string) : string :=
  String.concat sep parts.

Definition nl : string := String (ascii_of_nat 10) EmptyString.

End PyText.

(* ===================================================================== *)
(** * The fragment of [re] that the two modules use *)
(* ===================================================================== *)

Module Re.
Import PyText.

(** Every quantifier in the sources is applied to a single-character
    class ([\s+], [[^>]+], [.*]), so [RPlus] and [RStar] carry a class. *)
Inductive regex : Type :=
| RChr (c : ascii)
| RSet (p : ascii -> bool)
| RCat (r1 r2 : regex)
| RAlt (r1 r2 : regex)
| RPlus (p : ascii -> bool)
| RStar (p : ascii -> bool)
| RBnd.

(** A position in the subject: the character before it and the text
    from it on. *)
Definition cont : Type := option ascii -> string -> option (option ascii * string).

Definition word_opt (c : option ascii) : bool :=
  match c with
  | Some a => is_word a
  | None => false
  end.

Definition peek (s : string) : option ascii :=
  match s with
  | EmptyString => None
  | String c _ => Some c
  end.

(** Greedy [p*] followed by [k], giving a character back on failure. *)
Fixpoint star_k (p : ascii -> bool) (prev : option ascii) (s : string) (k : cont)
  : option (option ascii * string) :=
  match s with
  | String c s' =>
      if p c then
        match star_k p (Some c) s' k with
        | Some r => Some r
        | None => k prev s
        end
      else k prev s
  | EmptyString => k prev s
  end.

(** Backtracking matcher anchored at the current position, in the order
    in which [re] explores alternatives. *)
Fixpoint rmatch (r : regex) (prev : option ascii) (s : string) (k : cont)
  : option (option ascii * string) :=
  match r with
  | RChr c =>
      match s with
      | String a s' => if Ascii.eqb a c then k (Some a) s' else None
      | EmptyString => None
      end
  | RSet p =>
      match s with
      | String a s' => if p a then k (Some a) s' else None
      | EmptyString => None
      end
  | RCat r1 r2 => rmatch r1 prev s (fun prev' s' => rmatch r2 prev' s' k)
  | RAlt r1 r2 =>
      match rmatch r1 prev s k with
      | Some x => Some x
      | None => rmatch r2 prev s k
      end
  | RPlus p =>
      match s with
      | String a s' => if p a then star_k p (Some a) s' k else None
      | EmptyString => None
      end
  | RStar p => star_k p prev s k
  | RBnd => if xorb (word_opt prev) (word_opt (peek s)) then k prev s else None
  end.

Definition match_here (r : regex) (prev : option ascii) (s : string)
  : option (option ascii * string) :=
  rmatch r prev s (fun p rest => Some (p, rest)).

(** [re.search]: the leftmost position at which the pattern matches; the
    result is the text from that position and the text after the match. *)
Fixpoint search_from (r : regex) (prev : option ascii) (s : string)
  : option (string * string) :=
  match match_here r prev s with
  | Some (_, rest) => Some (s, rest)
  | None =>
      match s with
      | String c s' => search_from r (Some c) s'
      | EmptyString => None
      end
  end.

Definition search (r : regex) (s : string) : option (string * string) :=
  search_from r None s.

Definition matches (r : regex) (s : string) : bool :=
  match search r s with
  | Some _ => true
  | None => false
  end.

Fixpoint take (n : nat) (s : string) : string :=
  match n, s with
  | S n', String c s' => String c (take n' s')
  | _, _ => EmptyString
  end.

(** [m.group()] of a successful search. *)
Definition group (m : string * string) : string :=
  take (String.length (fst m) - String.length (snd m)) (fst m).

(** [re.sub(r, repl, s)].  Each step consumes at least one character, so
    [S (length s)] steps are enough.  None of the patterns that the
    sources substitute matches the empty string. *)
Fixpoint sub_fuel (fuel : nat) (r : regex) (repl : string)
  (prev : option ascii) (s : string) : string :=
  match fuel with
  | O => s
  | S fuel' =>
      match match_here r prev s with
      | Some (prev', rest) =>
          if (String.length rest <? String.length s)%nat
          then repl +:+ sub_fuel fuel' r repl prev' rest
          else
            match s with
            | String c s' => repl +:+ String c (sub_fuel fuel' r repl (Some c) s')
            | EmptyString => repl
            end
      | None =>
          match s with
          | String c s' => String c (sub_fuel fuel' r repl (Some c) s')
          | EmptyString => EmptyString
          end
      end
  end.

Definition sub (r : regex) (repl s : string) : string :=
  sub_fuel (S (String.length s)) r repl None s.

(** Pattern builders. *)
Fixpoint lit (s : string) : regex :=
  match s with
  | EmptyString => RStar (fun _ => false)
  | String c EmptyString => RChr c
  | String c s' => RCat (RChr c) (lit s')
  end.

(** A literal under [re.IGNORECASE]. *)
Fixpoint lit_nocase (s : string) : regex :=
  match s with
  | EmptyString => RStar (fun _ => false)
  | String c EmptyString => RSet (fun a => Ascii.eqb (to_lower a) (to_lower c))
  | String c s' =>
      RCat (RSet (fun a => Ascii.eqb (to_lower a) (to_lower c))) (lit_nocase s')
  end.

Fixpoint alts (rs : list regex) : regex :=
  match rs with
  | [] => RSet (fun _ => false)
  | [r] => r
  | r :: rs' => RAlt r (alts rs')
  end.

Fixpoint cats (rs : list regex) : regex :=
  match rs with
  | [] => RStar (fun _ => false)
  | [r] => r
  | r :: rs' => RCat r (cats rs')
  end.

Definition one_of (cs : string) (c : ascii) : bool :=
  str_in (String c EmptyString) cs.

End Re.

(* ===================================================================== *)
(** * [normalize_jobs.py]: class [JobNormalizer] *)
(* ===================================================================== *)

Module Normalizer.
Import PyText Re.

(** The part of [datetime] that the module calls.  [clock t] is the value
    of the [t]-th call of [datetime.now()]; [strptime s fmt] is [None]
    where Python raises [ValueError]. *)
Record runtime : Type := {
  datetime : Type;
  clock : nat -> datetime;
  isoformat : datetime -> string;
  strftime : datetime -> string -> string;
  strptime : string -> string -> option datetime
}.

(** A raw scrape record: the fields that the producer happened to write. *)
Abbreviation RawJobRecord := (gmap string pyval).

Record NormalizedJob : Type := {
  job_id : string;
  title : string;
  company : string;
  location : string;
  clearance_level : option string;
  description : string;
  url : pyval;
  posted_date : string;
  source : pyval;
  scraped_at : pyval;
  normalized_at : string
}.

(** Computations that read the clock and may raise: the state is the
    number of clock readings made so far. *)
Definition M (A : Type) : Type := nat -> result A * nat.

#[global] Instance M_ret : MRet M := fun A a t => (Ok a, t).
#[global] Instance M_bind : MBind M := fun A B f m t =>
  match m t with
  | (Ok a, t') => f a t'
  | (Raise e, t') => (Raise e, t')
  end.

Definition raise {A : Type} (e : exn) : M A := fun t => (Raise e, t).

Definition try_exceptM {A : Type} (body : M A) (handler : exn -> M A) : M A :=
  fun t =>
    match body t with
    | (Ok a, t') => (Ok a, t')
    | (Raise e, t') => handler e t'
    end.

(** [job_data.get(key, default)] *)
Definition get (job_data : RawJobRecord) (key : string) (default : pyval) : pyval :=
  match job_data !! key with
  | Some v => v
  | None => default
  end.

(** [self.clearance_patterns], in insertion order. *)
Definition clearance_patterns : list (string * regex) :=
  [ ("TS/SCI",
     (* \b(?:TS/SCI|Top\s+Secret/SCI|Top\s+Secret\s+SCI)\b *)
     cats [RBnd;
           alts [lit "TS/SCI";
                 cats [lit "Top"; RPlus is_space; lit "Secret/SCI"];
                 cats [lit "Top"; RPlus is_space; lit "Secret";
                       RPlus is_space; lit "SCI"]];
           RBnd]);
    ("TS",
     (* \b(?:TS|Top\s+Secret)\b *)
     cats [RBnd;
           alts [lit "TS"; cats [lit "Top"; RPlus is_space; lit "Secret"]];
           RBnd]);
    ("Secret",
     (* \b(?:Secret|SECRET)\b *)
     cats [RBnd; alts [lit "Secret"; lit "SECRET"]; RBnd]);
    ("Confidential",
     (* \b(?:Confidential|CONFIDENTIAL)\b *)
     cats [RBnd; alts [lit "Confidential"; lit "CONFIDENTIAL"]; RBnd]) ].

(** [[^a-zA-Z0-9_-]] *)
Definition re_job_id_special : regex :=
  RSet (fun c => negb (is_lower c || is_upper c || is_digit c || one_of "_-" c)).

(** [\s+] *)
Definition re_spaces : regex := RPlus is_space.

(** [<[^>]+>] *)
Definition re_html_tag : regex :=
  cats [RChr "<"; RPlus (fun c => negb (Ascii.eqb c ">")); RChr ">"].

(** [[^\w\s\-.,!?()]] *)
Definition re_unsafe_char : regex :=
  RSet (fun c => negb (is_word c || is_space c || one_of "-.,!?()" c)).

(** [rf'\b{abbr}\b'] under [re.IGNORECASE] *)
Definition re_state (abbr : string) : regex :=
  cats [RBnd; lit_nocase abbr; RBnd].

Definition company_mappings : list (string * string) :=
  [ ("apex systems", "Apex Systems");
    ("insight global", "Insight Global");
    ("clearancejobs", "ClearedJobs");
    ("clearedjobs.com", "ClearedJobs") ].

Definition state_mappings : list (string * string) :=
  [ ("CA", "California"); ("TX", "Texas"); ("VA", "Virginia");
    ("MD", "Maryland"); ("FL", "Florida"); ("WA", "Washington");
    ("MO", "Missouri"); ("CT", "Connecticut"); ("UT", "Utah");
    ("CO", "Colorado") ].

Definition date_formats : list string :=
  [ "%Y-%m-%d"; "%m/%d/%Y"; "%d/%m/%Y"; "%B %d, %Y"; "%b %d, %Y" ].

(** [d.get(key, default)] on a dictionary literal *)
Fixpoint assoc_get (d : list (string * string)) (key default : string) : string :=
  match d with
  | [] => default
  | (k, v) :: d' => if String.eqb k key then v else assoc_get d' key default
  end.

Section WithRuntime.
Variable py : runtime.

(** [datetime.now()] *)
Definition now : M (datetime py) := fun t => (Ok (clock py t), S t).

Definition _normalize_job_id (job_id : pyval) : M string :=
  if negb (truthy job_id) then
    d ← now;
    mret ("normalized_" +:+ strftime py d "%Y%m%d_%H%M%S")
  else
    match job_id with
    | PStr s => mret (lower (sub re_job_id_special "_" s))
    | _ => raise TypeError
    end.

Definition _normalize_title (title : pyval) : M string :=
  if negb (truthy title) then mret ""
  else
    match title with
    | PStr s => mret (sub re_spaces " " (strip s))
    | _ => raise AttributeError
    end.

Definition _normalize_company (company : pyval) : M string :=
  if negb (truthy company) then mret ""
  else
    match company with
    | PStr s =>
        let normalized := lower (strip s) in
        mret (assoc_get company_mappings normalized (strip s))
    | _ => raise AttributeError
    end.

Definition _normalize_location (location : pyval) : M string :=
  if negb (truthy location) then mret ""
  else
    match location with
    | PStr s =>
        let normalized := sub re_spaces " " (strip s) in
        mret (fold_left
                (fun normalized '(abbr, full_name) =>
                   sub (re_state abbr) full_name normalized)
                state_mappings normalized)
    | _ => raise AttributeError
    end.

(** The loop of [_extract_clearance]: the first pattern found in the text. *)
Fixpoint first_clearance (patterns : list (string * regex)) (text : string)
  : option string :=
  match patterns with
  | [] => None
  | (clearance, pattern) :: rest =>
      if matches pattern text then Some clearance
      else first_clearance rest text
  end.

Definition _extract_clearance (description : pyval) : M (option string) :=
  if negb (truthy description) then mret None
  else
    match description with
    | PStr s =>
        let description_upper := upper s in
        mret (first_clearance clearance_patterns description_upper)
    | _ => raise AttributeError
    end.

Definition _clean_description (description : pyval) : M string :=
  if negb (truthy description) then mret ""
  else
    match description with
    | PStr s =>
        let cleaned := sub re_html_tag "" s in
        let cleaned := sub re_spaces " " cleaned in
        let cleaned := sub re_unsafe_char "" cleaned in
        mret (strip cleaned)
    | _ => raise TypeError
    end.

(** The loop over [date_formats]: [ValueError] moves on to the next
    format, running out of formats gives the current date. *)
Fixpoint try_formats (formats : list string) (date_str : string) : M string :=
  match formats with
  | [] => d ← now; mret (isoformat py d)
  | fmt :: rest =>
      match strptime py date_str fmt with
      | Some parsed_date => mret (isoformat py parsed_date)
      | None => try_formats rest date_str
      end
  end.

Definition _normalize_date (date_str : pyval) : M string :=
  if negb (truthy date_str) then d ← now; mret (isoformat py d)
  else
    try_exceptM
      (match date_str with
       | PStr s => try_formats date_formats s
       | _ => raise TypeError
       end)
      (fun _ => d ← now; mret (isoformat py d)).

(** The body of the [try] block of [normalize_job]; the dictionary display
    evaluates its values from top to bottom. *)
Definition normalize_job_body (job_data : RawJobRecord) : M NormalizedJob :=
  v_job_id ← _normalize_job_id (get job_data "job_id" (PStr ""));
  v_title ← _normalize_title (get job_data "title" (PStr ""));
  v_company ← _normalize_company (get job_data "company" (PStr ""));
  v_location ← _normalize_location (get job_data "location" (PStr ""));
  v_clearance ← _extract_clearance (get job_data "description" (PStr ""));
  v_description ← _clean_description (get job_data "description" (PStr ""));
  let v_url := get job_data "url" (PStr "") in
  v_posted ← _normalize_date (get job_data "posted_date" (PStr ""));
  let v_source := get job_data "source" (PStr "") in
  d_scraped ← now;
  let v_scraped := get job_data "scraped_at" (PStr (isoformat py d_scraped)) in
  d_norm ← now;
  mret {| job_id := v_job_id; title := v_title; company := v_company;
          location := v_location; clearance_level := v_clearance;
          description := v_description; url := v_url;
          posted_date := v_posted; source := v_source;
          scraped_at := v_scraped; normalized_at := isoformat py d_norm |}.

(** [normalize_job]: any exception of the body is logged and turned into
    [None]. *)
Definition normalize_job (job_data : RawJobRecord) : M (option NormalizedJob) :=
  try_exceptM
    (normalized ← normalize_job_body job_data; mret (Some normalized))
    (fun _ => mret None).

(** The normalization loop of [main]:
    [for job in jobs: normalized = normalize_job(job); if normalized: append]. *)
Fixpoint normalize_loop (jobs : list RawJobRecord)
  (normalized_jobs : list NormalizedJob) : M (list NormalizedJob) :=
  match jobs with
  | [] => mret normalized_jobs
  | job :: rest =>
      normalized ← normalize_job job;
      match normalized with
      | Some n => normalize_loop rest (normalized_jobs ++ [n])
      | None => normalize_loop rest normalized_jobs
      end
  end.

Definition normalize_batch (jobs : list RawJobRecord) : M (list NormalizedJob) :=
  normalize_loop jobs [].

(** What [normalize_job] returns for each record of a batch, one entry per
    record and in input order, the clock running on from record to
    record.  The batch properties are stated against this list. *)
Fixpoint normalize_each (jobs : list RawJobRecord) (t : nat)
  : list (result (option NormalizedJob)) :=
  match jobs with
  | [] => []
  | job :: rest =>
      let '(r, t') := normalize_job job t in
      r :: normalize_each rest t'
  end.

(** The entries of [normalize_each] that are a normalized job. *)
Fixpoint kept (outcomes : list (result (option NormalizedJob)))
  : list NormalizedJob :=
  match outcomes with
  | [] => []
  | Ok (Some n) :: rest => n :: kept rest
  | _ :: rest => kept rest
  end.

End WithRuntime.

End Normalizer.

(* ===================================================================== *)
(** * Python [float]: IEEE-754 binary64 *)
(* ===================================================================== *)

Module PyFloat.

Definition prec : Z := 53.
Definition emax : Z := 1024.

Abbreviation pyfloat := spec_float.

Definition add (x y : pyfloat) : pyfloat := SFadd prec emax x y.
Definition mul (x y : pyfloat) : pyfloat := SFmul prec emax x y.

(** [x < y], [x <= y] and [x >= y]; all three are false on a NaN. *)
Definition ltb (x y : pyfloat) : bool := SFltb x y.
Definition leb (x y : pyfloat) : bool := SFleb x y.
Definition geb (x y : pyfloat) : bool :=
  match SFcompare x y with
  | Some (Gt | Eq) => true
  | _ => false
  end.

(** [float(n)] for an [int], as the mixed [int * float] arithmetic
    converts it: rounded to nearest, ties to even.  (Python raises
    [OverflowError] from [2^1024] on, where this gives infinity; no list
    is that long.) *)
Definition of_int (n : Z) : pyfloat := binary_normalize prec emax n 0 false.

(** The literals of the mapping engine: the binary64 values nearest to
    the decimal constants. *)
Definition f0_0 : pyfloat := S754_zero false.
Definition f0_2 : pyfloat := S754_finite false 7205759403792794 (-55).
Definition f0_3 : pyfloat := S754_finite false 5404319552844595 (-54).
Definition f0_4 : pyfloat := S754_finite false 7205759403792794 (-54).
Definition f0_5 : pyfloat := S754_finite false 4503599627370496 (-53).
Definition f0_7 : pyfloat := S754_finite false 6305039478318694 (-53).

(** The built-in [min(a, b)]: [b] replaces [a] only when [b < a]. *)
Definition py_min (a b : pyfloat) : pyfloat := if ltb b a then b else a.

End PyFloat.

(* ===================================================================== *)
(** * [map_jobs_to_programs.py]: class [ProgramMappingEngine] *)
(* ===================================================================== *)

Module Mapping.
Import PyText Re PyFloat.

(** One entry of [config/programs_dictionary.json]; [None] is a key that
    the entry does not have. *)
Record program_details : Type := {
  full_name : option string;
  prime_contractor : option string;
  acronyms : option (list string);
  code_names : option (list string);
  key_skills : option (list string)
}.

(** [self.programs_dict]: program code to details, in file order. *)
Abbreviation programs_dictionary := (list (string * program_details)).

(** The values of [self.settings] that the engine reads; [None] is a
    missing key. *)
Record settings : Type := {
  openai_model : option string;
  openai_max_tokens : option Z;
  openai_temperature : option pyfloat;
  keyword_match_threshold : option pyfloat
}.

Record engine : Type := {
  the_settings : settings;
  programs_dict : programs_dictionary
}.

(** A job as the engine reads it from the jobs file: the string fields of
    the canonical schema, each possibly absent; [clearance_level] may be
    present and [None]. *)
Record job_data : Type := {
  j_job_id : option string;
  j_title : option string;
  j_company : option string;
  j_location : option string;
  j_clearance_level : option (option string);
  j_description : option string
}.

Inductive source_tag : Type := ai_analysis | keyword_matching | fallback.

Record MappingResult : Type := {
  job_id : option string;
  mapped_programs : list string;
  confidence_score : pyfloat;
  reasoning : string;
  keywords_found : list string;
  mapped_at : string;
  source : source_tag
}.

(** The object that [json.loads] returns for a model answer. *)
Record ai_payload : Type := {
  ai_mapped_programs : option (list string);
  ai_confidence_score : option pyfloat;
  ai_reasoning : option string;
  ai_keywords_found : option (list string)
}.

(** Library behaviour the engine relies on: [json_loads s] is [None]
    where [json.loads] raises, [json_load_programs] likewise for the
    dictionary file, and [set_iter l] is the order in which [set(l)] is
    iterated. *)
Record runtime : Type := {
  json_loads : string -> option ai_payload;
  json_load_programs : string -> option programs_dictionary;
  set_iter : list string -> list string
}.

(** What the outside world does during the mapping of one job:
    [service prompt] is the outcome of [chat.completions.create], either
    an exception or the [message.content] of each choice, and [now] is
    [datetime.now().isoformat()]. *)
Record call_env : Type := {
  service : string -> result (list (option string));
  now : string
}.

Inductive file_state : Type :=
| Missing
| Unreadable
| Contents (text : string).

(** [d[key]] and [d.get(key, default)] for an optional field. *)
Definition index {A : Type} (field : option A) (key : string) : result A :=
  match field with
  | Some v => Ok v
  | None => Raise (KeyError key)
  end.

Definition get {A : Type} (field : option A) (default : A) : A :=
  match field with
  | Some v => v
  | None => default
  end.

Definition dq : string := String (ascii_of_nat 34) EmptyString.

(** [\{.*\}] under [re.DOTALL] *)
Definition re_json_object : regex :=
  cats [RChr "{"; RStar (fun _ => true); RChr "}"].

Section WithRuntime.
Variable py : runtime.

Definition _load_programs_dictionary (f : file_state) : result programs_dictionary :=
  try_except
    (match f with
     | Missing => Raise FileNotFoundError
     | Unreadable => Raise OSError
     | Contents text =>
         match json_load_programs py text with
         | Some d => Ok d
         | None => Raise JSONDecodeError
         end
     end)
    (fun e =>
       match e with
       | FileNotFoundError => Ok []
       | _ => Raise e
       end).

Definition _setup_openai (api_key : option string) : result unit :=
  match api_key with
  | None => Raise (ValueError "OPENAI_API_KEY environment variable not set")
  | Some k =>
      if String.eqb k ""
      then Raise (ValueError "OPENAI_API_KEY environment variable not set")
      else Ok tt
  end.

(** [__init__]; [loaded] is the outcome of [load_settings(config_path)]. *)
Definition __init__ (loaded : result settings) (dictionary_file : file_state)
  (api_key : option string) : result engine :=
  s ← loaded;
  d ← _load_programs_dictionary dictionary_file;
  _ ← _setup_openai api_key;
  mret {| the_settings := s; programs_dict := d |}.

Variable self : engine.

Fixpoint programs_info_lines (items : programs_dictionary) : result (list string) :=
  match items with
  | [] => Ok []
  | (code, details) :: rest =>
      fn ← index (full_name details) "full_name";
      pc ← index (prime_contractor details) "prime_contractor";
      lines ← programs_info_lines rest;
      mret (("- " +:+ code +:+ ": " +:+ fn +:+ " (" +:+ pc +:+ ")") :: lines)
  end.

(** [str(x)] inside the f-string for the clearance field. *)
Definition str_clearance (c : option (option string)) : string :=
  match c with
  | None => "N/A"
  | Some None => "None"
  | Some (Some s) => s
  end.

Definition _create_mapping_prompt (job : job_data) : result string :=
  lines ← programs_info_lines (programs_dict self);
  let programs_info := join nl lines in
  mret (join nl
    [ "";
      "        Analyze this job posting and map it to relevant defense programs.";
      "        ";
      "        Job Details:";
      "        - Title: " +:+ get (j_title job) "N/A";
      "        - Company: " +:+ get (j_company job) "N/A";
      "        - Location: " +:+ get (j_location job) "N/A";
      "        - Clearance: " +:+ str_clearance (j_clearance_level job);
      "        - Description: " +:+ get (j_description job) "N/A";
      "        ";
      "        Available Programs:";
      "        " +:+ programs_info;
      "        ";
      "        Please provide:";
      "        1. List of relevant programs (program codes)";
      "        2. Confidence score (0.0-1.0)";
      "        3. Reasoning for the mapping";
      "        4. Key keywords that support the mapping";
      "        ";
      "        Format your response as JSON:";
      "        {";
      "            " +:+ dq +:+ "mapped_programs" +:+ dq +:+ ": [" +:+ dq
        +:+ "PROGRAM1" +:+ dq +:+ ", " +:+ dq +:+ "PROGRAM2" +:+ dq +:+ "],";
      "            " +:+ dq +:+ "confidence_score" +:+ dq +:+ ": 0.85,";
      "            " +:+ dq +:+ "reasoning" +:+ dq +:+ ": " +:+ dq
        +:+ "Explanation here" +:+ dq +:+ ",";
      "            " +:+ dq +:+ "keywords_found" +:+ dq +:+ ": [" +:+ dq
        +:+ "keyword1" +:+ dq +:+ ", " +:+ dq +:+ "keyword2" +:+ dq +:+ "]";
      "        }";
      "        " ]).

(** The two scoring loops of [_keyword_based_mapping]: every term found in
    the job text adds [weight] and is appended to [matched_keywords]. *)
Definition score_terms (weight : pyfloat) (job_text : string)
  (terms : list string) (acc : pyfloat * list string) : pyfloat * list string :=
  fold_left
    (fun '(match_score, matched_keywords) term =>
       if str_in term job_text
       then (add match_score weight, matched_keywords ++ [term])
       else (match_score, matched_keywords))
    terms acc.

(** [job_text]: title and description around one space, lower-cased. *)
Definition job_text (job : job_data) : string :=
  lower (get (j_title job) "" +:+ " " +:+ get (j_description job) "").

Definition program_terms (fn : string) (details : program_details) : list string :=
  [lower fn] ++ map lower (get (acronyms details) [])
             ++ map lower (get (code_names details) []).

Definition program_skills (details : program_details) : list string :=
  map lower (get (key_skills details) []).

(** The company check of the loop body. *)
Definition contractor_matches (job : job_data) (details : program_details) : bool :=
  str_in (lower (get (prime_contractor details) ""))
         (lower (get (j_company job) "")).

(** The first part of the loop body: [match_score] and [matched_keywords]
    of one program.  [match_score] starts as the integer [0], which the
    first addition and the comparison treat as [0.0]. *)
Definition score_program (job : job_data) (details : program_details)
  : result (pyfloat * list string) :=
  fn ← index (full_name details) "full_name";
  let '(match_score, matched_keywords) :=
    score_terms f0_3 (job_text job) (program_terms fn details) (f0_0, []) in
  let '(match_score, matched_keywords) :=
    score_terms f0_2 (job_text job) (program_skills details)
                (match_score, matched_keywords) in
  let match_score :=
    if contractor_matches job details
    then add match_score f0_4
    else match_score in
  mret (match_score, matched_keywords).

(** The loop over [self.programs_dict.items()], with the two lists that
    it extends. *)
Fixpoint keyword_loop (job : job_data) (items : programs_dictionary)
  (mapped_programs keywords_found : list string)
  : result (list string * list string) :=
  match items with
  | [] => Ok (mapped_programs, keywords_found)
  | (program_code, details) :: rest =>
      '(match_score, matched_keywords) ← score_program job details;
      threshold ← index (keyword_match_threshold (the_settings self))
                        "keyword_match_threshold";
      if geb match_score threshold
      then keyword_loop job rest (mapped_programs ++ [program_code])
                        (keywords_found ++ matched_keywords)
      else keyword_loop job rest mapped_programs keywords_found
  end.

(** [min(0.7, len(mapped_programs) * 0.2)] *)
Definition keyword_confidence (count : nat) : pyfloat :=
  py_min f0_7 (mul (of_int (Z.of_nat count)) f0_2).

Definition _keyword_based_mapping (job : job_data) (now : string)
  : result MappingResult :=
  '(mapped, found) ← keyword_loop job (programs_dict self) [] [];
  mret {| job_id := j_job_id job;
          mapped_programs := mapped;
          confidence_score := keyword_confidence (length mapped);
          reasoning := "Keyword-based mapping using terms: "
                         +:+ join ", " (set_iter py found);
          keywords_found := set_iter py found;
          mapped_at := now;
          source := keyword_matching |}.

Definition _create_fallback_mapping (job : job_data) (now : string)
  : result MappingResult :=
  mret {| job_id := j_job_id job;
          mapped_programs := [];
          confidence_score := f0_0;
          reasoning := "Failed to analyze job posting";
          keywords_found := [];
          mapped_at := now;
          source := fallback |}.

(** The [try] block of [_parse_ai_response]: [Ok (Some r)] is its
    [return r], [Ok None] is falling out of the [if]. *)
Definition parse_attempt (ai_response : option string) (job : job_data)
  (now : string) : result (option MappingResult) :=
  match ai_response with
  | None => Raise TypeError
  | Some text =>
      match search re_json_object text with
      | Some json_match =>
          match json_loads py (group json_match) with
          | None => Raise JSONDecodeError
          | Some parsed =>
              Ok (Some
                {| job_id := j_job_id job;
                   mapped_programs := get (ai_mapped_programs parsed) [];
                   confidence_score := get (ai_confidence_score parsed) f0_0;
                   reasoning := get (ai_reasoning parsed) "";
                   keywords_found := get (ai_keywords_found parsed) [];
                   mapped_at := now;
                   source := ai_analysis |})
          end
      | None => Ok None
      end
  end.

Definition _parse_ai_response (ai_response : option string) (job : job_data)
  (now : string) : result MappingResult :=
  returned ← try_except (parse_attempt ai_response job now) (fun _ => Ok None);
  match returned with
  | Some r => Ok r
  | None => _keyword_based_mapping job now
  end.

(** The [try] block of [map_job_to_programs]. *)
Definition map_job_body (job : job_data) (env : call_env) : result MappingResult :=
  prompt ← _create_mapping_prompt job;
  _ ← index (openai_model (the_settings self)) "model";
  _ ← index (openai_max_tokens (the_settings self)) "max_tokens";
  _ ← index (openai_temperature (the_settings self)) "temperature";
  choices ← service env prompt;
  ai_analysis ← match choices with
                | [] => Raise IndexError
                | content :: _ => Ok content
                end;
  _parse_ai_response ai_analysis job (now env).

Definition map_job_to_programs (job : job_data) (env : call_env)
  : result MappingResult :=
  try_except (map_job_body job env)
             (fun _ => _create_fallback_mapping job (now env)).

(** The loop of [process_jobs_batch]; [envs i] is the world during the
    job at position [i]. *)
Fixpoint mapping_loop (jobs : list job_data) (envs : nat -> call_env)
  (mapping_results : list MappingResult) : result (list MappingResult) :=
  match jobs with
  | [] => Ok mapping_results
  | job :: rest =>
      r ← map_job_to_programs job (envs (length mapping_results));
      mapping_loop rest envs (mapping_results ++ [r])
  end.

(** [process_jobs_batch]; [jobs_file] is the outcome of reading and
    decoding the input file, the value returned is what is written to the
    output file. *)
Definition process_jobs_batch (jobs_file : result (list job_data))
  (envs : nat -> call_env) : result (list MappingResult) :=
  try_except
    (jobs ← jobs_file; mapping_loop jobs envs [])
    (fun e => Raise e).

(** ** The scoring loops read as filtering and adding *)

(** The terms of [terms] that occur in [text]. *)
Definition occurring (text : string) (terms : list string) : list string :=
  List.filter (fun term => str_in term text) terms.

(** Adding [weight] once for every term found. *)
Definition add_each (weight : pyfloat) (found : list string) (score : pyfloat)
  : pyfloat :=
  fold_left (fun s _ => add s weight) found score.

(** 0.3 for each occurring name, acronym or code name, then 0.2 for each
    occurring key skill. *)
Definition spec_base_score (text : string) (details : program_details) : pyfloat :=
  add_each f0_2 (occurring text (program_skills details))
    (add_each f0_3
       (occurring text (program_terms (get (full_name details) "") details))
       f0_0).

(** ... and 0.4 when the prime contractor occurs in the company. *)
Definition spec_score (text : string) (job : job_data) (details : program_details)
  : pyfloat :=
  if contractor_matches job details
  then add (spec_base_score text details) f0_4
  else spec_base_score text details.

(** The terms recorded as found for one program. *)
Definition spec_found (text : string) (details : program_details) : list string :=
  occurring text (program_terms (get (full_name details) "") details)
    ++ occurring text (program_skills details).

(** The programs whose score meets the threshold, in dictionary order. *)
Definition spec_selected (text : string) (job : job_data) (threshold : pyfloat)
  (items : programs_dictionary) : programs_dictionary :=
  List.filter (fun '(_, details) => geb (spec_score text job details) threshold)
              items.

(** The terms recorded for a list of programs, in dictionary order. *)
Definition found_of (text : string) (items : programs_dictionary) : list string :=
  concat (map (fun item => spec_found text (snd item)) items).

(** The searchable text read literally: title and description joined. *)
Definition concatenated_text (job : job_data) : string :=
  lower (get (j_title job) "" +:+ get (j_description job) "").

(** ** The keyword rule as the specification words it

    These definitions use none of the engine's helpers ([job_text],
    [program_terms], [program_skills], [contractor_matches],
    [score_terms]): they are what the engine is compared with. *)

(** The title, a single space and the description, lower-cased. *)
Definition stated_text (job : job_data) : string :=
  lower (get (j_title job) "" +:+ " " +:+ get (j_description job) "").

(** The full name, the acronyms and the code names, lower-cased. *)
Definition stated_names (details : program_details) : list string :=
  map lower (get (full_name details) ""
               :: get (acronyms details) [] ++ get (code_names details) []).

(** The key skills, lower-cased. *)
Definition stated_skills (details : program_details) : list string :=
  map lower (get (key_skills details) []).

(** The lower-cased prime contractor occurs in the lower-cased company. *)
Definition stated_contractor (job : job_data) (details : program_details) : bool :=
  str_in (lower (get (prime_contractor details) ""))
         (lower (get (j_company job) "")).

(** 0.3 for each name occurring in [text], then 0.2 for each key skill
    occurring in it, then 0.4 for the contractor. *)
Definition stated_score (text : string) (job : job_data)
  (details : program_details) : pyfloat :=
  let named_score := add_each f0_3 (occurring text (stated_names details)) f0_0 in
  let skilled_score :=
    add_each f0_2 (occurring text (stated_skills details)) named_score in
  if stated_contractor job details then add skilled_score f0_4 else skilled_score.

(** What is recorded as found for one program. *)
Definition stated_found (text : string) (details : program_details) : list string :=
  occurring text (stated_names details) ++ occurring text (stated_skills details).

(** The entries whose score meets or exceeds the threshold, in order. *)
Definition stated_selected (text : string) (job : job_data) (threshold : pyfloat)
  (items : programs_dictionary) : programs_dictionary :=
  List.filter (fun item => geb (stated_score text job (snd item)) threshold) items.

(** What is recorded for a list of entries, in order. *)
Definition stated_keywords (text : string) (items : programs_dictionary)
  : list string :=
  concat (map (fun item => stated_found text (snd item)) items).

(** [min(0.7, 0.2 * n)] *)
Definition spec_confidence (n : nat) : pyfloat :=
  py_min f0_7 (mul f0_2 (of_int (Z.of_nat n))).


(** The three request settings that [map_job_to_programs] reads before
    it calls the service. *)
Definition service_configured : Prop :=
  is_Some (openai_model (the_settings self)) /\
  is_Some (openai_max_tokens (the_settings self)) /\
  is_Some (openai_temperature (the_settings self)).

(** Every entry has the [full_name] that the keyword loop indexes. *)
Definition named (items : programs_dictionary) : Prop :=
  Forall (fun item => is_Some (full_name (snd item))) items.

(** A dictionary file that exists but does not decode. *)
Definition malformed (f : file_state) : Prop :=
  exists text, f = Contents text /\ json_load_programs py text = None.

End WithRuntime.

End Mapping.

(* ===================================================================== *)
(** * Sample data: the runtimes, engines and jobs used in examples *)
(* ===================================================================== *)

Module Examples.
Import PyFloat.

(** A clock that ticks once a second from noon. *)
Definition sample_datetime : Normalizer.runtime :=
  {| Normalizer.datetime := nat;
     Normalizer.clock := fun t => t;
     Normalizer.isoformat := fun d =>
       "2024-05-01T12:00:0" +:+ String (ascii_of_nat (48 + d mod 10)) EmptyString;
     Normalizer.strftime := fun d _ =>
       "20240501_12000" +:+ String (ascii_of_nat (48 + d mod 10)) EmptyString;
     Normalizer.strptime := fun s fmt =>
       if String.eqb fmt "%Y-%m-%d" && String.eqb s "2024-04-30"
       then Some 0 else None |}.

Definition raw_empty : gmap string pyval := ∅.

Definition raw_stamped : gmap string pyval :=
  {[ "title" := PStr "Systems   Engineer";
     "source" := PStr "insight_global";
     "scraped_at" := PStr "2024-04-30T08:15:00" ]}.

Definition raw_bad_title : gmap string pyval :=
  {[ "job_id" := PStr "IG-7"; "title" := PInt 7 ]}.

Fixpoint dedup (l : list string) : list string :=
  match l with
  | [] => []
  | x :: rest => x :: List.filter (fun y => negb (String.eqb x y)) (dedup rest)
  end.

Definition empty_payload : Mapping.ai_payload :=
  {| Mapping.ai_mapped_programs := None; Mapping.ai_confidence_score := None;
     Mapping.ai_reasoning := None; Mapping.ai_keywords_found := None |}.

Definition guessing_payload : Mapping.ai_payload :=
  {| Mapping.ai_mapped_programs := Some ["F35"];
     Mapping.ai_confidence_score := Some f0_7;
     Mapping.ai_reasoning := Some "avionics work";
     Mapping.ai_keywords_found := Some ["avionics"] |}.

(** A decoder that knows two texts and rejects everything else. *)
Definition sample_json : Mapping.runtime :=
  {| Mapping.json_loads := fun s =>
       if String.eqb s "{}" then Some empty_payload
       else if String.eqb s "{F35}" then Some guessing_payload
       else None;
     Mapping.json_load_programs := fun _ => None;
     Mapping.set_iter := dedup |}.

Definition f35 : Mapping.program_details :=
  {| Mapping.full_name := Some "F-35 Lightning II";
     Mapping.prime_contractor := Some "Lockheed Martin";
     Mapping.acronyms := Some ["JSF"];
     Mapping.code_names := None;
     Mapping.key_skills := Some ["avionics"] |}.

Definition anonymous_program : Mapping.program_details :=
  {| Mapping.full_name := Some "Ground Based Strategic Deterrent";
     Mapping.prime_contractor := None;
     Mapping.acronyms := Some ["GBSD"];
     Mapping.code_names := None;
     Mapping.key_skills := None |}.

Definition sample_settings (threshold : pyfloat) : Mapping.settings :=
  {| Mapping.openai_model := Some "gpt-4";
     Mapping.openai_max_tokens := Some 500%Z;
     Mapping.openai_temperature := Some f0_2;
     Mapping.keyword_match_threshold := Some threshold |}.

Definition f35_engine : Mapping.engine :=
  {| Mapping.the_settings := sample_settings f0_5;
     Mapping.programs_dict := [("F35", f35)] |}.

Definition empty_engine : Mapping.engine :=
  {| Mapping.the_settings := sample_settings f0_5;
     Mapping.programs_dict := [] |}.

Definition systems_engineer : Mapping.job_data :=
  {| Mapping.j_job_id := Some "ig-1001";
     Mapping.j_title := Some "Systems Engineer";
     Mapping.j_company := Some "Lockheed Martin";
     Mapping.j_location := Some "Fort Worth, Texas";
     Mapping.j_clearance_level := Some (Some "Secret");
     Mapping.j_description :=
       Some "Requires active Secret clearance, work on F-35 program avionics" |}.

(** A program name that straddles the end of the title. *)
Definition split_name_engine : Mapping.engine :=
  {| Mapping.the_settings := sample_settings f0_3;
     Mapping.programs_dict :=
       [("F35", {| Mapping.full_name := Some "F35";
                   Mapping.prime_contractor := Some "Lockheed Martin";
                   Mapping.acronyms := None; Mapping.code_names := None;
                   Mapping.key_skills := None |})] |}.

Definition split_name_job : Mapping.job_data :=
  {| Mapping.j_job_id := Some "ig-1002";
     Mapping.j_title := Some "Mechanic F";
     Mapping.j_company := Some "Apex Systems";
     Mapping.j_location := None;
     Mapping.j_clearance_level := None;
     Mapping.j_description := Some "35 hours a week" |}.


(** What the keyword strategy answers for [systems_engineer]. *)
Definition f35_keyword_result : Mapping.MappingResult :=
  {| Mapping.job_id := Some "ig-1001";
     Mapping.mapped_programs := ["F35"];
     Mapping.confidence_score := f0_2;
     Mapping.reasoning := "Keyword-based mapping using terms: avionics";
     Mapping.keywords_found := ["avionics"];
     Mapping.mapped_at := "2024-05-01T12:00:00";
     Mapping.source := Mapping.keyword_matching |}.

(** What the keyword strategy answers for any job when the dictionary is
    empty, here for [systems_engineer]. *)
Definition empty_keyword_result : Mapping.MappingResult :=
  {| Mapping.job_id := Some "ig-1001";
     Mapping.mapped_programs := [];
     Mapping.confidence_score := f0_0;
     Mapping.reasoning := "Keyword-based mapping using terms: ";
     Mapping.keywords_found := [];
     Mapping.mapped_at := "2024-05-01T12:00:00";
     Mapping.source := Mapping.keyword_matching |}.

Definition service_down : Mapping.call_env :=
  {| Mapping.service := fun _ => Raise (ServiceError "timed out");
     Mapping.now := "2024-05-01T12:00:00" |}.

Definition service_says (content : option string) : Mapping.call_env :=
  {| Mapping.service := fun _ => Ok [content];
     Mapping.now := "2024-05-01T12:00:00" |}.

End Examples.

(* ===================================================================== *)
(** * What the text operations compute, written as plain recursions *)
(* ===================================================================== *)

Module TextSpec.
Import PyText.

(** Every character of [s] satisfies [p]. *)
Fixpoint all_chars (p : ascii -> bool) (s : string) : bool :=
  match s with
  | EmptyString => true
  | String c s' => p c && all_chars p s'
  end.

(** Each character that satisfies [p] is replaced by [repl]. *)
Fixpoint replace_chars (p : ascii -> bool) (repl : string) (s : string) : string :=
  match s with
  | EmptyString => EmptyString
  | String c s' =>
      if p c then repl +:+ replace_chars p repl s'
      else String c (replace_chars p repl s')
  end.

(** The text after its leading run of characters satisfying [p]. *)
Fixpoint skip (p : ascii -> bool) (s : string) : string :=
  match s with
  | EmptyString => EmptyString
  | String c s' => if p c then skip p s' else s
  end.

(** Each run of whitespace becomes one space; [in_run] says that the
    text before already ended in whitespace that has been accounted for. *)
Fixpoint collapse_spaces (in_run : bool) (s : string) : string :=
  match s with
  | EmptyString => EmptyString
  | String c s' =>
      if is_space c then
        if in_run then collapse_spaces true s'
        else String " " (collapse_spaces true s')
      else String c (collapse_spaces false s')
  end.

(** The only whitespace is the space character and no two of them are
    adjacent; with [after_space] the text may not begin with one either. *)
Fixpoint single_spaced (after_space : bool) (s : string) : bool :=
  match s with
  | EmptyString => true
  | String c s' =>
      if is_space c
      then Ascii.eqb c " " && negb after_space && single_spaced true s'
      else single_spaced false s'
  end.

(** The character before the position reached after reading [s]. *)
Fixpoint last_of (prev : option ascii) (s : string) : option ascii :=
  match s with
  | EmptyString => prev
  | String c s' => last_of (Some c) s'
  end.

Definition starts_with_space (s : string) : bool :=
  match s with
  | EmptyString => false
  | String c _ => is_space c
  end.

Definition ends_with_space (s : string) : bool :=
  match last_of None s with
  | Some c => is_space c
  | None => false
  end.

(** A character of the ASCII range.  On text made of such characters
    [is_word], [is_space] and the boundary test of [RBnd] are Python's
    [\w], [\s] and [\b]; outside it Python's classes are the Unicode
    ones, so what depends on a class is stated for ASCII text. *)
Definition is_ascii (c : ascii) : bool := (code c <? 128)%nat.

(** The characters that [_normalize_job_id] leaves in an identifier. *)
Definition id_char (c : ascii) : bool :=
  is_lower c || is_digit c || Re.one_of "_-" c.

(** The characters that [_clean_description] leaves in a description. *)
Definition safe_char (c : ascii) : bool :=
  is_word c || Ascii.eqb c " " || Re.one_of "-.,!?()" c.

End TextSpec.

(* ===================================================================== *)
(** * [normalize_jobs.py]: [main], and what the field rules amount to *)
(* ===================================================================== *)

Module NormalizerMain.
Import PyText Re TextSpec Normalizer.

(** The keyword that each level's pattern can find in an upper-cased
    text. *)
Definition level_keywords : list (string * string) :=
  [ ("TS/SCI", "TS/SCI"); ("TS", "TS"); ("Secret", "SECRET");
    ("Confidential", "CONFIDENTIAL") ].

(** [kw] stands in [text] between two positions that [\b] accepts. *)
Definition whole_word (kw text : string) : Prop :=
  exists pre post,
    text = pre +:+ kw +:+ post /\
    word_opt (last_of None pre) = false /\
    word_opt (peek post) = false.

(** A value that is neither empty nor a string: the string methods and
    [re.sub] raise on it. *)
Definition not_text (v : pyval) : bool :=
  truthy v && match v with PStr _ => false | _ => true end.

(** The fields that [normalize_job] hands to a string operation. *)
Definition text_fields : list string :=
  ["job_id"; "title"; "company"; "location"; "description"].

Definition dropped (job_data : RawJobRecord) : bool :=
  existsb (fun key => not_text (get job_data key (PStr ""))) text_fields.

(** The record's [source] is a string, or absent. *)
Definition source_is_text (job : RawJobRecord) : bool :=
  match get job "source" (PStr "") with PStr _ => true | _ => false end.

(** The record's [source] is the string [a], letter case apart. *)
Definition from_source (a : string) (job : RawJobRecord) : bool :=
  match get job "source" (PStr "") with
  | PStr s => String.eqb (lower s) (lower a)
  | _ => false
  end.

Section WithRuntime.
Variable py : runtime.

(** The first of [formats] that parses [date_str]. *)
Fixpoint first_parsed (formats : list string) (date_str : string)
  : option (datetime py) :=
  match formats with
  | [] => None
  | fmt :: rest =>
      match strptime py date_str fmt with
      | Some d => Some d
      | None => first_parsed rest date_str
      end
  end.

(** The list comprehension of [main] that keeps the jobs of one source:
    [job.get('source', '').lower() == args.source.lower()]. *)
Fixpoint filter_source (source_arg : string) (jobs : list RawJobRecord)
  : result (list RawJobRecord) :=
  match jobs with
  | [] => Ok []
  | job :: rest =>
      match get job "source" (PStr "") with
      | PStr s =>
          selected ← filter_source source_arg rest;
          mret (if String.eqb (lower s) (lower source_arg)
                then job :: selected else selected)
      | _ => Raise AttributeError
      end
  end.

(** How a run of [main] ends: the output file is written, or the error
    is logged and the process exits with status 1. *)
Inductive outcome : Type :=
| Written (normalized_jobs : list NormalizedJob)
| Exit1.

(** [main]; [input] is the outcome of reading and decoding the input
    file, [source_arg] is [args.source], [output] is the outcome of
    writing the output file. *)
Definition main (input : result (list RawJobRecord)) (source_arg : option string)
  (output : result unit) (t : nat) : outcome * nat :=
  match input with
  | Raise _ => (Exit1, t)
  | Ok jobs =>
      let filtered :=
        match source_arg with
        | Some a => if String.eqb a "" then Ok jobs else filter_source a jobs
        | None => Ok jobs
        end in
      match filtered with
      | Raise _ => (Exit1, t)
      | Ok jobs =>
          match normalize_batch py jobs t with
          | (Ok normalized_jobs, t') =>
              match output with
              | Ok _ => (Written normalized_jobs, t')
              | Raise _ => (Exit1, t')
              end
          | (Raise _, t') => (Exit1, t')
          end
      end
  end.

End WithRuntime.

End NormalizerMain.

(* ===================================================================== *)
(** * [map_jobs_to_programs.py]: [main], and what the tiers amount to *)
(* ===================================================================== *)

Module MappingMain.
Import PyText Re PyFloat TextSpec Mapping.

(** Every entry has the two keys that [_create_mapping_prompt] indexes. *)
Definition complete (items : programs_dictionary) : bool :=
  forallb (fun '(_, details) =>
             match full_name details, prime_contractor details with
             | Some _, Some _ => true
             | _, _ => false
             end) items.

(** Any character but [c]. *)
Definition other_than (c : ascii) (a : ascii) : bool := negb (Ascii.eqb a c).

(** What is left of a text after its last closing brace. *)
Fixpoint after_last_brace (s : string) : option string :=
  match s with
  | EmptyString => None
  | String a s' =>
      match after_last_brace s' with
      | Some rest => Some rest
      | None => if Ascii.eqb a "}" then Some s' else None
      end
  end.

(** The result that [_create_fallback_mapping] builds. *)
Definition failed_to_analyze (job : job_data) (now : string) : MappingResult :=
  {| job_id := j_job_id job;
     mapped_programs := [];
     confidence_score := f0_0;
     reasoning := "Failed to analyze job posting";
     keywords_found := [];
     mapped_at := now;
     source := fallback |}.

(** The result that [_parse_ai_response] builds from a decoded answer. *)
Definition answer_of (parsed : ai_payload) (job : job_data) (now : string)
  : MappingResult :=
  {| job_id := j_job_id job;
     mapped_programs := get (ai_mapped_programs parsed) [];
     confidence_score := get (ai_confidence_score parsed) f0_0;
     reasoning := get (ai_reasoning parsed) "";
     keywords_found := get (ai_keywords_found parsed) [];
     mapped_at := now;
     source := ai_analysis |}.

(** How a run of [main] ends: the results are written, or the error is
    logged and the process exits with status 1. *)
Inductive outcome : Type :=
| Written (mapping_results : list MappingResult)
| Exit1.

Section WithRuntime.
Variable py : runtime.

(** [list(set(l))] has the elements of [l], each once. *)
Definition set_semantics : Prop :=
  forall l : list string,
    NoDup (set_iter py l) /\ forall x, In x (set_iter py l) <-> In x l.

(** [main]; [loaded], [dictionary_file] and [api_key] are what
    [ProgramMappingEngine(args.config)] finds, [jobs_file] is the outcome
    of reading and decoding [args.input] as a list of job records, and
    [output] is the outcome of writing [args.output]. *)
Definition main (loaded : result settings) (dictionary_file : file_state)
  (api_key : option string) (jobs_file : result (list job_data))
  (envs : nat -> call_env) (output : result unit) : outcome :=
  match
    (engine ← __init__ py loaded dictionary_file api_key;
     mapping_results ← process_jobs_batch py engine jobs_file envs;
     _ ← output;
     mret mapping_results)
  with
  | Ok mapping_results => Written mapping_results
  | Raise _ => Exit1
  end.

End WithRuntime.

End MappingMain.

(* ===================================================================== *)
(** * [insight_global_spider.py] *)
(* ===================================================================== *)

Module Spider.
Import PyText Re.

(** A scrapy response, seen through what the spider asks of it:
    [css_get sel] is [response.css(sel).get()], [css_texts sel] is [None]
    when [response.css(sel)] selects nothing and otherwise the
    [.css('::text').getall()] of the selection, [url_path] is
    [urlparse(response.url).path] and [url_hash] is [hash(response.url)]. *)
Record response : Type := {
  url : string;
  url_path : string;
  url_hash : Z;
  css_get : string -> option string;
  css_texts : string -> option (list string);
  text : string;
  headers : pyval
}.

Definition clearance_keywords : list string :=
  [ "TS/SCI"; "Top Secret/SCI"; "Top Secret SCI";
    "TS"; "Top Secret";
    "Secret"; "SECRET";
    "Confidential"; "CONFIDENTIAL";
    "DoD"; "Department of Defense";
    "Clearance"; "CLEARANCE";
    "Security Clearance"; "SECURITY CLEARANCE";
    "Government Clearance"; "GOVERNMENT CLEARANCE" ].

Definition title_selectors : list string :=
  [ "h1.job-title::text"; ".job-header h1::text";
    "[data-testid=" +:+ Mapping.dq +:+ "job-title" +:+ Mapping.dq +:+ "]::text";
    "h1::text"; ".title::text"; ".job-details h1::text" ].

Definition location_selectors : list string :=
  [ ".job-location::text"; ".location::text";
    "[data-testid=" +:+ Mapping.dq +:+ "location" +:+ Mapping.dq +:+ "]::text";
    ".job-details .location::text"; ".job-info .location::text" ].

Definition description_selectors : list string :=
  [ ".job-description"; ".job-details .description";
    "[data-testid=" +:+ Mapping.dq +:+ "job-description" +:+ Mapping.dq +:+ "]";
    ".description"; ".job-content"; ".job-details .content" ].

Definition date_selectors : list string :=
  [ ".posted-date::text"; ".job-date::text";
    "[data-testid=" +:+ Mapping.dq +:+ "posted-date" +:+ Mapping.dq +:+ "]::text";
    ".date::text"; ".job-info .date::text" ].

(** [/job/(\d+)] *)
Definition re_job_url : regex := cats [lit "/job/"; RPlus is_digit].

(** [.] without [re.DOTALL] *)
Definition not_newline (c : ascii) : bool := negb (Ascii.eqb c "010").

Definition job_patterns : list regex :=
  [ cats [lit "/job/"; RPlus is_digit];
    cats [lit "/jobs/"; RPlus is_digit];
    cats [lit "/careers/"; RStar not_newline; lit "job"];
    lit "/position/" ].

Fixpoint drop (n : nat) (s : string) : string :=
  match n, s with
  | S n', String _ s' => drop n' s'
  | _, _ => s
  end.

(** [m.group(1)] for [re_job_url]: the match without its five literal
    characters. *)
Definition group1 (m : string * string) : string := drop 5 (group m).

Section OnResponse.
Variable r : response.

(** The loop shared by [_extract_title], [_extract_location] and
    [_extract_posted_date]: the first selector with a non-empty result,
    stripped. *)
Fixpoint first_text (selectors : list string) : option string :=
  match selectors with
  | [] => None
  | selector :: rest =>
      match css_get r selector with
      | Some found =>
          if negb (String.eqb found "") then Some (strip found)
          else first_text rest
      | None => first_text rest
      end
  end.

Definition _extract_title : option string := first_text title_selectors.
Definition _extract_location : option string := first_text location_selectors.
Definition _extract_posted_date : option string := first_text date_selectors.

Fixpoint first_description (selectors : list string) : option string :=
  match selectors with
  | [] => None
  | selector :: rest =>
      match css_texts r selector with
      | Some texts =>
          let description_text := join " " texts in
          if negb (String.eqb (strip description_text) "")
          then Some (strip description_text)
          else first_description rest
      | None => first_description rest
      end
  end.

Definition _extract_description : option string :=
  first_description description_selectors.

(** The loop of [_extract_clearance]. *)
Fixpoint first_keyword (keywords : list string) (description_upper : string)
  : option string :=
  match keywords with
  | [] => None
  | keyword :: rest =>
      if str_in (upper keyword) description_upper then Some keyword
      else first_keyword rest description_upper
  end.

Definition _extract_clearance : option string :=
  match _extract_description with
  | Some description =>
      if String.eqb description "" then None
      else first_keyword clearance_keywords (upper description)
  | None => None
  end.

Definition _extract_job_id : string :=
  match search re_job_url (url_path r) with
  | Some job_id_match => "insight_" +:+ group1 job_id_match
  | None =>
      let hashed := "insight_" +:+ pretty (url_hash r mod 1000000)%Z in
      match css_get r "[data-job-id]::attr(data-job-id)" with
      | Some job_id_element =>
          if negb (String.eqb job_id_element "")
          then "insight_" +:+ job_id_element
          else hashed
      | None => hashed
      end
  end.

Definition _extract_raw_data : pyval :=
  PDict [("html", PStr (text r)); ("url", PStr (url r)); ("headers", headers r)].

Definition opt_str (o : option string) : pyval :=
  match o with
  | Some s => PStr s
  | None => PNone
  end.

(** The dictionary that [parse_job_detail] builds; [now] is
    [datetime.now().isoformat()]. *)
Definition job_data (now : string) : Normalizer.RawJobRecord :=
  list_to_map
    [ ("job_id", PStr _extract_job_id);
      ("title", opt_str _extract_title);
      ("company", PStr "Insight Global");
      ("location", opt_str _extract_location);
      ("clearance_level", opt_str _extract_clearance);
      ("description", opt_str _extract_description);
      ("url", PStr (url r));
      ("posted_date", opt_str _extract_posted_date);
      ("source", PStr "Insight Global");
      ("scraped_at", PStr now);
      ("raw_data", _extract_raw_data) ].

(** [parse_job_detail]: the item yielded, if any. *)
Definition parse_job_detail (now : string) : option Normalizer.RawJobRecord :=
  if truthy (opt_str _extract_clearance)
  then Some (job_data now)
  else None.

End OnResponse.

(** The keywords that no earlier keyword of the list hides: a keyword is
    hidden when an earlier one, upper-cased, occurs in it. *)
Fixpoint reachable (seen keywords : list string) : list string :=
  match keywords with
  | [] => []
  | keyword :: rest =>
      if existsb (fun earlier => str_in (upper earlier) (upper keyword)) seen
      then reachable (seen ++ [keyword]) rest
      else keyword :: reachable (seen ++ [keyword]) rest
  end.

(** [_is_job_detail_page] *)
Definition _is_job_detail_page (url : string) : bool :=
  existsb (fun pattern => matches pattern url) job_patterns.

(** A detail page whose description is found by the first selector. *)
Definition sample_page : response :=
  {| url := "https://jobs.insightglobal.com/job/4512";
     url_path := "/job/4512";
     url_hash := 0;
     css_get := fun selector =>
       if String.eqb selector "h1.job-title::text"
       then Some " Systems Engineer " else None;
     css_texts := fun selector =>
       if String.eqb selector ".job-description"
       then Some ["Active"; "secret clearance"] else None;
     text := "";
     headers := PDict [] |}.


End Spider.

(* ===================================================================== *)
(** * Facts about binary64 arithmetic *)
(* ===================================================================== *)

Module PyFloatFacts.
Import PyFloat.
Local Open Scope Z_scope.

(** The constants are the values of the decimal literals. *)
#[warnings="-inexact-float"] Lemma literals_are_binary64 :
  Prim2SF 0.0 = f0_0 /\ Prim2SF 0.2 = f0_2 /\ Prim2SF 0.3 = f0_3 /\
  Prim2SF 0.4 = f0_4 /\ Prim2SF 0.5 = f0_5 /\ Prim2SF 0.7 = f0_7.
Proof. repeat split; vm_compute; reflexivity. Qed.

(** ** Mantissa width *)

Lemma digits2_bounds (p : positive) :
  2 ^ (Zpos (digits2_pos p) - 1) <= Zpos p < 2 ^ Zpos (digits2_pos p).
Proof.
  induction p as [p IH | p IH |]; cbn [digits2_pos].
  - rewrite Pos2Z.inj_succ.
    replace (Z.succ (Zpos (digits2_pos p)) - 1)
      with (Z.succ (Zpos (digits2_pos p) - 1)) by lia.
    rewrite !Z.pow_succ_r by lia. lia.
  - rewrite Pos2Z.inj_succ.
    replace (Z.succ (Zpos (digits2_pos p)) - 1)
      with (Z.succ (Zpos (digits2_pos p) - 1)) by lia.
    rewrite !Z.pow_succ_r by lia. lia.
  - cbn. lia.
Qed.

Lemma digits2_unique (p : positive) (d : Z) :
  2 ^ (d - 1) <= Zpos p < 2 ^ d -> Zpos (digits2_pos p) = d.
Proof.
  intros [Hlo Hhi].
  pose proof (digits2_bounds p) as [Hlo' Hhi'].
  assert (Hd : 0 < d).
  { destruct (Z_lt_le_dec 0 d) as [|Hle]; [assumption|].
    exfalso. destruct (Z.eq_dec d 0) as [->|Hne].
    - cbn in Hhi. lia.
    - rewrite Z.pow_neg_r in Hhi by lia. lia. }
  destruct (Z.lt_trichotomy (Zpos (digits2_pos p)) d) as [Hlt | [Heq | Hgt]].
  - exfalso.
    assert (2 ^ Zpos (digits2_pos p) <= 2 ^ (d - 1))
      by (apply Z.pow_le_mono_r; lia).
    lia.
  - assumption.
  - exfalso.
    assert (2 ^ d <= 2 ^ (Zpos (digits2_pos p) - 1))
      by (apply Z.pow_le_mono_r; lia).
    lia.
Qed.

Lemma iter_xO_spec (p s : positive) :
  Zpos (Pos.iter xO p s) = Zpos p * 2 ^ Zpos s.
Proof.
  apply (Pos.iter_ind positive xO p
           (fun s q => Zpos q = Zpos p * 2 ^ Zpos s)).
  - rewrite Z.pow_1_r. lia.
  - intros s' q IH. rewrite Pos2Z.inj_succ, Z.pow_succ_r by lia.
    rewrite Pos2Z.inj_xO, IH. ring.
Qed.

(** ** Right shifts drop low bits *)

Lemma shr_1_m (r : shr_record) :
  0 <= shr_m r -> shr_m (shr_1 r) = shr_m r / 2.
Proof.
  destruct r as [m r s]. cbn [shr_m shr_1].
  destruct m as [| [p | p |] | p]; intros H; cbn [shr_m]; try lia;
    try reflexivity.
  - apply Z.div_unique with (r := 1); lia.
  - apply Z.div_unique with (r := 0); lia.
Qed.

Lemma iter_shr_1_m (k : positive) :
  forall r, 0 <= shr_m r -> shr_m (SpecFloat.iter_pos shr_1 k r) = shr_m r / 2 ^ Zpos k.
Proof.
  induction k as [k IH | k IH |]; intros r Hr; cbn [SpecFloat.iter_pos].
  - assert (H1 : 0 <= shr_m (shr_1 r)).
    { rewrite shr_1_m by assumption. apply Z.div_pos; lia. }
    assert (H2 : 0 <= shr_m (SpecFloat.iter_pos shr_1 k (shr_1 r))).
    { rewrite IH by assumption. apply Z.div_pos; [assumption|].
      apply Z.pow_pos_nonneg; lia. }
    rewrite IH by assumption. rewrite IH by assumption.
    rewrite shr_1_m by assumption.
    rewrite !Z.div_div by (try apply Z.pow_pos_nonneg; lia).
    f_equal.
    replace (Zpos k~1) with (Z.succ (Zpos k + Zpos k)) by lia.
    rewrite Z.pow_succ_r by lia.
    rewrite (Z.pow_add_r 2 (Zpos k) (Zpos k)) by lia.
    reflexivity.
  - assert (H2 : 0 <= shr_m (SpecFloat.iter_pos shr_1 k r)).
    { rewrite IH by assumption. apply Z.div_pos; [assumption|].
      apply Z.pow_pos_nonneg; lia. }
    rewrite IH by assumption. rewrite IH by assumption.
    rewrite !Z.div_div by (try apply Z.pow_pos_nonneg; lia).
    f_equal.
    replace (Zpos k~0) with (Zpos k + Zpos k) by lia.
    rewrite (Z.pow_add_r 2 (Zpos k) (Zpos k)) by lia. reflexivity.
  - rewrite shr_1_m by assumption. reflexivity.
Qed.

Lemma shr_nonneg (m : Z) (l : location) (e k : Z) :
  0 <= m -> 0 <= k ->
  shr_m (fst (shr (shr_record_of_loc m l) e k)) = m / 2 ^ k /\
  snd (shr (shr_record_of_loc m l) e k) = e + k.
Proof.
  intros Hm Hk.
  assert (Hrec : shr_m (shr_record_of_loc m l) = m).
  { destruct l as [|[]]; reflexivity. }
  destruct k as [|k|k]; cbn [shr fst snd]; try lia.
  - rewrite Hrec. rewrite Z.pow_0_r, Z.div_1_r. split; [reflexivity | lia].
  - rewrite iter_shr_1_m by (rewrite Hrec; assumption).
    rewrite Hrec. split; reflexivity.
Qed.

Lemma round_nearest_even_bounds (m : Z) (l : location) :
  m <= round_nearest_even m l <= m + 1.
Proof.
  destruct l as [|[]]; cbn [round_nearest_even]; try lia.
  destruct (Z.even m); lia.
Qed.

Lemma fexp_normal (x : Z) : -1021 <= x -> fexp prec emax x = x - 53.
Proof. intros H. unfold fexp, emin, prec, emax. lia. Qed.

Lemma shr_fexp_spec (m : Z) (l : location) (e d : Z) :
  0 < m -> Zdigits2 m = d -> 53 <= d -> -1074 <= e ->
  shr_m (fst (shr_fexp prec emax m e l)) = m / 2 ^ (d - 53) /\
  snd (shr_fexp prec emax m e l) = e + (d - 53).
Proof.
  intros Hm Hd H53 He. unfold shr_fexp. rewrite Hd.
  rewrite fexp_normal by lia.
  replace (d + e - 53 - e) with (d - 53) by lia.
  apply shr_nonneg; lia.
Qed.

(** ** Rounding a wide positive mantissa

    A mantissa of at least 53 digits at an exponent in the normal range
    rounds to a normal number (or overflows); the exponent does not drop
    below that of the truncated mantissa, and at that exponent the
    mantissa is not below the truncated one. *)
Lemma round_aux_finite (P : positive) (e : Z) :
  53 <= Zpos (digits2_pos P) -> -1074 <= e ->
  match binary_round_aux prec emax false (Zpos P) e loc_Exact with
  | S754_infinity false => True
  | S754_finite false m' e' =>
      2 ^ 52 <= Zpos m' < 2 ^ 53 /\
      e + Zpos (digits2_pos P) - 53 <= e' /\
      (e' = e + Zpos (digits2_pos P) - 53 ->
       Zpos P / 2 ^ (Zpos (digits2_pos P) - 53) <= Zpos m')
  | _ => False
  end.
Proof.
  intros H53 He. set (d := Zpos (digits2_pos P)) in *.
  pose proof (digits2_bounds P) as [Hlo Hhi]. fold d in Hlo, Hhi.
  unfold binary_round_aux.
  destruct (shr_fexp_spec (Zpos P) loc_Exact e d) as [Hm1 He1];
    try lia; try reflexivity.
  destruct (shr_fexp prec emax (Zpos P) e loc_Exact) as [mrs1 e1].
  cbn [fst snd] in Hm1, He1.
  set (k := d - 53) in *.
  assert (Hpk : 0 < 2 ^ k) by (apply Z.pow_pos_nonneg; lia).
  assert (Hsplit : 2 ^ (d - 1) = 2 ^ 52 * 2 ^ k).
  { rewrite <- Z.pow_add_r by lia. f_equal. lia. }
  assert (Hsplit' : 2 ^ d = 2 ^ 53 * 2 ^ k).
  { rewrite <- Z.pow_add_r by lia. f_equal. lia. }
  assert (Hm1lo : 2 ^ 52 <= shr_m mrs1).
  { rewrite Hm1. apply Z.div_le_lower_bound; lia. }
  assert (Hm1hi : shr_m mrs1 < 2 ^ 53).
  { rewrite Hm1. apply Z.div_lt_upper_bound; lia. }
  pose proof (round_nearest_even_bounds (shr_m mrs1) (loc_of_shr_record mrs1))
    as Hr.
  set (m2 := round_nearest_even (shr_m mrs1) (loc_of_shr_record mrs1)) in *.
  destruct (Z_lt_le_dec m2 (2 ^ 53)) as [Hlt | Hge].
  - (* the rounded mantissa still has 53 digits *)
    assert (Hd2 : Zdigits2 m2 = 53).
    { destruct m2 as [|q|q]; try lia. cbn [Zdigits2].
      apply digits2_unique. lia. }
    destruct (shr_fexp_spec m2 loc_Exact e1 53) as [Hm3 He3]; try lia.
    destruct (shr_fexp prec emax m2 e1 loc_Exact) as [mrs3 e3].
    cbn [fst snd] in Hm3, He3.
    replace (53 - 53) with 0 in Hm3, He3 by lia.
    rewrite Z.pow_0_r, Z.div_1_r in Hm3. rewrite Hm3.
    destruct m2 as [|q|q]; try lia.
    destruct (e3 <=? emax - prec); [|exact I].
    repeat split; try lia.
  - (* rounding carried into a 54th digit *)
    assert (Hm2 : m2 = 2 ^ 53) by lia.
    assert (Hd2 : Zdigits2 m2 = 54).
    { rewrite Hm2. reflexivity. }
    destruct (shr_fexp_spec m2 loc_Exact e1 54) as [Hm3 He3]; try lia.
    destruct (shr_fexp prec emax m2 e1 loc_Exact) as [mrs3 e3].
    cbn [fst snd] in Hm3, He3.
    rewrite Hm3, Hm2.
    change (2 ^ 53 / 2 ^ (54 - 53)) with (Zpos 4503599627370496).
    cbv beta iota.
    destruct (e3 <=? emax - prec); [|exact I].
    repeat split; try lia.
Qed.

(** [float(n)] for [n >= 4] is a normal number not below [4.0], or
    infinite. *)
Lemma of_int_ge_4 (n : Z) :
  4 <= n ->
  match of_int n with
  | S754_infinity false => True
  | S754_finite false m e => 2 ^ 52 <= Zpos m < 2 ^ 53 /\ -50 <= e
  | _ => False
  end.
Proof.
  intros Hn. destruct n as [|p|p]; try lia.
  unfold of_int. cbn [binary_normalize]. unfold binary_round.
  pose proof (digits2_bounds p) as [Hlo Hhi].
  set (d := Zpos (digits2_pos p)) in *.
  assert (Hd3 : 3 <= d).
  { destruct (Z_lt_le_dec d 3) as [Hlt|]; [|assumption]. exfalso.
    assert (2 ^ d <= 2 ^ 2) by (apply Z.pow_le_mono_r; lia). lia. }
  rewrite fexp_normal by lia. unfold shl_align.
  destruct (d + 0 - 53 - 0) as [|s|s] eqn:Hs.
  - pose proof (round_aux_finite p 0) as H. fold d in H.
    assert (H' := H ltac:(lia) ltac:(lia)). clear H.
    destruct (binary_round_aux prec emax false (Zpos p) 0 loc_Exact)
      as [|[]| |[] m e]; try exact H'.
    destruct H' as (Hm & He & _). split; [assumption | lia].
  - pose proof (round_aux_finite p 0) as H. fold d in H.
    assert (H' := H ltac:(lia) ltac:(lia)). clear H.
    destruct (binary_round_aux prec emax false (Zpos p) 0 loc_Exact)
      as [|[]| |[] m e]; try exact H'.
    destruct H' as (Hm & He & _). split; [assumption | lia].
  - assert (Hs' : Zpos s = 53 - d) by lia.
    assert (Hmz : Zpos (Pos.iter xO p s) = Zpos p * 2 ^ Zpos s)
      by apply iter_xO_spec.
    assert (Hpk : 0 < 2 ^ Zpos s) by (apply Z.pow_pos_nonneg; lia).
    assert (H52 : 2 ^ 52 = 2 ^ (d - 1) * 2 ^ Zpos s).
    { rewrite <- Z.pow_add_r by lia. f_equal. lia. }
    assert (H53 : 2 ^ 53 = 2 ^ d * 2 ^ Zpos s).
    { rewrite <- Z.pow_add_r by lia. f_equal. lia. }
    assert (Hdz : Zpos (digits2_pos (Pos.iter xO p s)) = 53).
    { apply digits2_unique. rewrite Hmz. change (53 - 1) with 52. nia. }
    pose proof (round_aux_finite (Pos.iter xO p s) (d + 0 - 53)) as H.
    rewrite Hdz in H.
    assert (H' := H ltac:(lia) ltac:(lia)). clear H.
    destruct (binary_round_aux prec emax false (Zpos (Pos.iter xO p s))
                (d + 0 - 53) loc_Exact)
      as [|[]| |[] m e]; try exact H'.
    destruct H' as (Hm & He & _). split; [assumption | lia].
Qed.

(** ** Comparison *)

Lemma ltb_finite_false (m1 m2 : positive) (e1 e2 : Z) :
  e2 < e1 \/ (e1 = e2 /\ Zpos m2 <= Zpos m1) ->
  ltb (S754_finite false m1 e1) (S754_finite false m2 e2) = false.
Proof.
  intros H. unfold ltb, SFltb, SFcompare.
  destruct (Z.compare_spec e1 e2) as [Heq | Hlt | Hgt];
    try reflexivity; try lia.
  rewrite Pos.compare_cont_spec. cbn [Pos.switch_Eq].
  destruct (Pos.compare_spec m1 m2) as [? | Hlt | ?]; try reflexivity. lia.
Qed.

(** ** Products with 0.2 *)

Lemma ltb_mul_0_2_finite (mx : positive) (ex : Z) :
  2 ^ 52 <= Zpos mx < 2 ^ 53 -> -50 <= ex ->
  ltb (mul (S754_finite false mx ex) f0_2) f0_7 = false.
Proof.
  intros Hmx Hex. unfold mul, f0_2, f0_7.
  cbn [SFmul xorb].
  set (M := 7205759403792794%positive).
  pose proof (digits2_bounds (mx * M)) as [Hlo Hhi].
  pose proof (round_aux_finite (mx * M) (ex + -55)) as H.
  set (d := Zpos (digits2_pos (mx * M))) in *.
  assert (HP : Zpos (mx * M) = Zpos mx * Zpos M) by apply Pos2Z.inj_mul.
  assert (HPlo : 2 ^ 52 * Zpos M <= Zpos (mx * M)) by (rewrite HP; nia).
  assert (HPhi : Zpos (mx * M) < 2 ^ 53 * Zpos M) by (rewrite HP; nia).
  assert (Hd105 : 105 <= d).
  { destruct (Z_lt_le_dec d 105) as [Hlt|]; [|assumption]. exfalso.
    assert (2 ^ d <= 2 ^ 104) by (apply Z.pow_le_mono_r; lia).
    subst M. lia. }
  assert (Hd106 : d <= 106).
  { destruct (Z_lt_le_dec 106 d) as [Hlt|]; [|assumption]. exfalso.
    assert (2 ^ 106 <= 2 ^ (d - 1)) by (apply Z.pow_le_mono_r; lia).
    subst M. lia. }
  assert (H53 : 53 <= d) by lia.
  assert (Hex' : -1074 <= ex + -55) by lia.
  specialize (H H53 Hex').
  destruct (binary_round_aux prec emax false (Zpos (mx * M)) (ex + -55) loc_Exact)
    as [s|s| |s m e].
  1, 3: contradiction.
  1: destruct s; [contradiction | reflexivity].
  destruct s; [contradiction|].
  destruct H as (Hm & He & Hq).
  apply ltb_finite_false.
  destruct (Z_lt_le_dec (-53) e) as [Hgt | Hle]; [left; assumption | right].
  assert (Heq : e = -53) by lia.
  split; [assumption|].
  assert (Hd : d = 105) by lia.
  assert (Hq' : Zpos (mx * M) / 2 ^ (d - 53) <= Zpos m) by (apply Hq; lia).
  rewrite Hd in Hq'.
  assert (HM : Zpos M <= Zpos (mx * M) / 2 ^ (105 - 53)).
  { apply Z.div_le_lower_bound; [reflexivity|]. change (105 - 53) with 52. lia. }
  revert HM Hq'. generalize (Zpos (mx * M) / 2 ^ (105 - 53)).
  subst M. clear. intros q HM Hq'. lia.
Qed.

(** From four programs on, [n * 0.2] is not below [0.7]. *)
Lemma ltb_mul_0_2_of_int (n : Z) :
  4 <= n -> ltb (mul (of_int n) f0_2) f0_7 = false.
Proof.
  intros Hn. pose proof (of_int_ge_4 n Hn) as H.
  destruct (of_int n) as [s|s| |s m e].
  - contradiction.
  - destruct s; [contradiction | reflexivity].
  - contradiction.
  - destruct s; [contradiction|].
    destruct H as [Hm He]. apply ltb_mul_0_2_finite; assumption.
Qed.

Lemma mul_comm (x y : pyfloat) : mul x y = mul y x.
Proof.
  unfold mul.
  destruct x as [sx|sx| |sx mx ex], y as [sy|sy| |sy my ey];
    cbn [SFmul]; try reflexivity; try (rewrite (xorb_comm sx sy); reflexivity).
  rewrite (xorb_comm sx sy), (Pos.mul_comm mx my), (Z.add_comm ex ey).
  reflexivity.
Qed.

(** ** The confidence of the keyword strategy as a function of the count *)

Lemma confidence_four_up (n : nat) :
  (4 <= n)%nat -> Mapping.keyword_confidence n = f0_7.
Proof.
  intros Hn. unfold Mapping.keyword_confidence, py_min.
  rewrite ltb_mul_0_2_of_int by lia. reflexivity.
Qed.

Lemma confidence_capped (n : nat) : leb (Mapping.keyword_confidence n) f0_7 = true.
Proof.
  destruct (le_lt_dec 4 n) as [Hge | Hlt].
  - rewrite confidence_four_up by assumption. vm_compute. reflexivity.
  - do 4 (destruct n as [|n]; [vm_compute; reflexivity|]). lia.
Qed.

Lemma confidence_monotone (n m : nat) :
  (n <= m)%nat -> leb (Mapping.keyword_confidence n) (Mapping.keyword_confidence m) = true.
Proof.
  intros Hnm.
  destruct (le_lt_dec 4 m) as [Hm | Hm].
  - rewrite (confidence_four_up m) by assumption. apply confidence_capped.
  - do 4 (destruct m as [|m];
          [do 4 (destruct n as [|n];
                 [first [exfalso; lia | vm_compute; reflexivity]|]);
           exfalso; lia|]).
    lia.
Qed.

Lemma spec_confidence_eq (n : nat) :
  Mapping.spec_confidence n = Mapping.keyword_confidence n.
Proof.
  unfold Mapping.spec_confidence, Mapping.keyword_confidence.
  rewrite mul_comm. reflexivity.
Qed.

End PyFloatFacts.

(* ===================================================================== *)
(** * Properties of the normalizer *)
(* ===================================================================== *)

Module NormalizerFacts.
Import Normalizer Examples.

(** ** Running the monad *)

Lemma bind_run {A B : Type} (m : M A) (f : A -> M B) (t : nat) :
  (m ≫= f) t =
  match m t with
  | (Ok a, t') => f a t'
  | (Raise e, t') => (Raise e, t')
  end.
Proof. reflexivity. Qed.

Lemma bind_ok {A B : Type} (m : M A) (f : A -> M B) (t t' : nat) (b : B) :
  (m ≫= f) t = (Ok b, t') ->
  exists a t1, m t = (Ok a, t1) /\ f a t1 = (Ok b, t').
Proof.
  rewrite bind_run. destruct (m t) as [[a|e] t1]; intros H.
  - exists a, t1. split; [reflexivity | assumption].
  - discriminate.
Qed.

Lemma now_run (py : runtime) (t : nat) : now py t = (Ok (clock py t), S t).
Proof. reflexivity. Qed.

Lemma now_ok (py : runtime) (t t' : nat) (d : datetime py) :
  now py t = (Ok d, t') -> d = clock py t /\ t' = S t.
Proof. rewrite now_run. intros H. inversion H. split; reflexivity. Qed.

Lemma ret_ok {A : Type} (a b : A) (t t' : nat) :
  (mret a : M A) t = (Ok b, t') -> a = b /\ t = t'.
Proof. intros H. inversion H. split; reflexivity. Qed.

(** ** [normalize_job] absorbs every exception of its body *)

Lemma normalize_job_ok (py : runtime) (raw : RawJobRecord) (t : nat) :
  exists o t', normalize_job py raw t = (Ok o, t').
Proof.
  unfold normalize_job, try_exceptM.
  destruct ((normalize_job_body py raw ≫= fun n => mret (Some n)) t)
    as [[o|e] t'].
  - exists o, t'. reflexivity.
  - exists None, t'. reflexivity.
Qed.

Lemma normalize_each_length (py : runtime) (jobs : list RawJobRecord) :
  forall t, length (normalize_each py jobs t) = length jobs.
Proof.
  induction jobs as [|job rest IH]; intros t; cbn [normalize_each].
  - reflexivity.
  - destruct (normalize_job py job t) as [r t']. cbn [length].
    rewrite IH. reflexivity.
Qed.

Lemma normalize_each_ok (py : runtime) (jobs : list RawJobRecord) :
  forall t, Forall (fun r => exists o, r = Ok o) (normalize_each py jobs t).
Proof.
  induction jobs as [|job rest IH]; intros t; cbn [normalize_each].
  - constructor.
  - destruct (normalize_job_ok py job t) as (o & t' & E). rewrite E.
    constructor; [exists o; reflexivity | apply IH].
Qed.

Lemma normalize_loop_kept (py : runtime) (jobs : list RawJobRecord) :
  forall acc t, exists t',
    normalize_loop py jobs acc t
    = (Ok (acc ++ kept (normalize_each py jobs t)), t').
Proof.
  induction jobs as [|job rest IH]; intros acc t;
    cbn [normalize_loop normalize_each].
  - exists t. cbn [kept]. rewrite app_nil_r. reflexivity.
  - rewrite bind_run.
    destruct (normalize_job_ok py job t) as (o & t1 & E). rewrite E.
    destruct o as [n|]; cbn [kept].
    + destruct (IH (acc ++ [n]) t1) as (t' & E'). exists t'.
      rewrite E', <- app_assoc. reflexivity.
    + apply IH.
Qed.

(** The kept jobs are the [Ok (Some _)] outcomes, in the same order. *)
Lemma kept_sublist (outcomes : list (result (option NormalizedJob))) :
  sublist ((fun n => Ok (Some n)) <$> kept outcomes) outcomes.
Proof.
  induction outcomes as [|[[n|]|e] rest IH]; cbn [kept fmap list_fmap].
  - constructor.
  - apply sublist_skip, IH.
  - apply sublist_cons, IH.
  - apply sublist_cons, IH.
Qed.

Lemma kept_elem (outcomes : list (result (option NormalizedJob))) (n : NormalizedJob) :
  In n (kept outcomes) <-> In (Ok (Some n)) outcomes.
Proof.
  induction outcomes as [|[[n'|]|e] rest IH]; cbn [kept In].
  - reflexivity.
  - rewrite IH. split; intros [H|H]; auto; left; congruence.
  - rewrite IH. split; [auto | intros [H|H]; [discriminate | assumption]].
  - rewrite IH. split; [auto | intros [H|H]; [discriminate | assumption]].
Qed.

(** ** The fields read by [normalize_job_body] *)

Lemma body_source_scraped (py : runtime) (raw : RawJobRecord) (t t' : nat)
  (n : NormalizedJob) :
  normalize_job_body py raw t = (Ok n, t') ->
  source n = get raw "source" (PStr "") /\
  exists k, t' = S (S k) /\
    scraped_at n = get raw "scraped_at" (PStr (isoformat py (clock py k))).
Proof.
  unfold normalize_job_body. intros H.
  do 7 (apply bind_ok in H as (? & ? & _ & H)).
  apply bind_ok in H as (d1 & t1 & Hd1 & H). apply now_ok in Hd1 as [-> ->].
  apply bind_ok in H as (d2 & t2 & Hd2 & H). apply now_ok in Hd2 as [-> ->].
  apply ret_ok in H as [<- <-]. cbn [source scraped_at].
  split; [reflexivity|]. eexists. split; reflexivity.
Qed.

(** ** Clearance extraction *)

Section Patterns.
Import PyText Re.

Lemma rmatch_lit_startswith (w : string) :
  w <> "" ->
  forall prev v k x, rmatch (lit w) prev v k = Some x -> startswith w v = true.
Proof.
  induction w as [|c w IH]; intros Hne prev v k x; [contradiction|].
  destruct w as [|c' w'].
  - cbn [lit rmatch startswith]. destruct v as [|a v]; [discriminate|].
    destruct (Ascii.eqb_spec a c) as [->|]; [|discriminate].
    intros _. rewrite Ascii.eqb_refl. reflexivity.
  - change (lit (String c (String c' w')))
      with (RCat (RChr c) (lit (String c' w'))).
    cbn [rmatch]. destruct v as [|a v]; [discriminate|].
    destruct (Ascii.eqb_spec a c) as [->|]; [|discriminate].
    intros H. apply IH in H; [|discriminate].
    cbn [startswith]. rewrite Ascii.eqb_refl. exact H.
Qed.

Lemma append_nil_l (v : string) : "" +:+ v = v.
Proof. reflexivity. Qed.

Lemma append_cons (c : ascii) (s v : string) :
  String c s +:+ v = String c (s +:+ v).
Proof. reflexivity. Qed.

Lemma search_from_suffix (r : regex) (u : string) :
  forall prev v rest,
    search_from r prev u = Some (v, rest) ->
    exists pre prev', u = pre +:+ v /\ match_here r prev' v <> None.
Proof.
  induction u as [|c u IH]; intros prev v rest; cbn [search_from].
  - destruct (match_here r prev "") as [[p rest']|] eqn:E; [|discriminate].
    intros H. inversion H; subst. exists "", prev. split; [reflexivity|].
    rewrite E. discriminate.
  - destruct (match_here r prev (String c u)) as [[p rest']|] eqn:E.
    + intros H. inversion H; subst. exists "", prev. split; [reflexivity|].
      rewrite E. discriminate.
    + intros H. apply IH in H as (pre & prev' & -> & Hm).
      exists (String c pre), prev'. split; [reflexivity | exact Hm].
Qed.

Lemma str_in_unfold (w v : string) :
  str_in w v
  = startswith w v ||
    match v with
    | EmptyString => false
    | String _ v' => str_in w v'
    end.
Proof. destruct v; reflexivity. Qed.

Lemma str_in_suffix (w : string) :
  forall pre v, startswith w v = true -> str_in w (pre +:+ v) = true.
Proof.
  induction pre as [|c pre IH]; intros v H.
  - rewrite append_nil_l, str_in_unfold, H. reflexivity.
  - rewrite append_cons, str_in_unfold, (IH v H). apply orb_true_r.
Qed.

Lemma to_upper_not_lower (c : ascii) : is_lower (to_upper c) = false.
Proof.
  destruct c as [[] [] [] [] [] [] [] []]; vm_compute; reflexivity.
Qed.

(** No text continues with ["To..."] after upper-casing. *)
Lemma upper_no_Top (s : string) :
  forall pre v, upper s = pre +:+ v -> startswith "Top" v = false.
Proof.
  induction s as [|c s IH]; intros pre v H.
  - destruct pre; [|discriminate]. rewrite append_nil_l in H. subst v.
    reflexivity.
  - destruct pre as [|c' pre].
    + rewrite append_nil_l in H. subst v. cbn [upper smap startswith].
      destruct (Ascii.eqb_spec "T" (to_upper c)); [|reflexivity].
      cbn [andb]. destruct s as [|c2 s]; [reflexivity|].
      cbn [smap]. destruct (Ascii.eqb_spec "o" (to_upper c2)) as [Ho|];
        [|reflexivity].
      pose proof (to_upper_not_lower c2) as Hl. rewrite <- Ho in Hl.
      vm_compute in Hl. discriminate.
    + rewrite append_cons in H. cbn [upper smap] in H. inversion H; subst.
      apply (IH pre v). assumption.
Qed.

(** The first pattern matches an upper-cased text only through its
    alternative [TS/SCI]: the two spelled-out alternatives begin with the
    mixed-case ["Top"]. *)
Lemma first_pattern_needs_abbreviation (s : string) :
  matches (snd (nth 0 Normalizer.clearance_patterns ("", RBnd))) (upper s) = true ->
  str_in "TS/SCI" (upper s) = true.
Proof.
  unfold matches, search. cbn [nth snd Normalizer.clearance_patterns].
  destruct (search_from _ None (upper s)) as [[v rest]|] eqn:E; [|discriminate].
  intros _. apply search_from_suffix in E as (pre & prev & Hu & Hm).
  rewrite Hu. apply str_in_suffix.
  pose proof (upper_no_Top s pre v Hu) as HTop.
  unfold match_here in Hm. cbn [cats alts] in Hm.
  cbn [rmatch] in Hm.
  destruct (xorb (word_opt prev) (word_opt (peek v))); [|contradiction].
  match type of Hm with
  | match ?a with _ => _ end <> None => destruct a as [x|] eqn:E1
  end.
  - apply rmatch_lit_startswith in E1; [exact E1 | discriminate].
  - exfalso.
    match type of Hm with
    | match ?a with _ => _ end <> None => destruct a as [x|] eqn:E2
    end.
    + apply rmatch_lit_startswith in E2; [|discriminate]. congruence.
    + match type of Hm with
      | ?a <> None => destruct a as [x|] eqn:E3; [|contradiction]
      end.
      apply rmatch_lit_startswith in E3; [|discriminate]. congruence.
Qed.

End Patterns.

(** TS/SCI is returned only for a text that contains the abbreviation
    itself: no spelling of "Top Secret/SCI" leads to it. *)
Lemma ts_sci_needs_abbreviation (text : string) (t : nat) :
  _extract_clearance (PStr text) t = (Ok (Some "TS/SCI"), t) ->
  PyText.str_in "TS/SCI" (PyText.upper text) = true.
Proof.
  unfold _extract_clearance. destruct (truthy (PStr text)); [|discriminate].
  cbn [negb]. intros H. inversion H as [Hfirst]. clear H.
  apply first_pattern_needs_abbreviation.
  unfold clearance_patterns in *. cbn [first_clearance nth snd] in *.
  destruct (Re.matches _ (PyText.upper text)); [reflexivity|].
  repeat match type of Hfirst with
         | (if ?b then _ else _) = _ => destruct b; [discriminate|]
         end.
  discriminate.
Qed.

(** C2 (the code departs from the claim).  The claim: every text that
    contains "Top Secret/SCI", in any casing or spacing, is classified
    TS/SCI, the patterns being tried in the order TS/SCI, TS, Secret,
    Confidential.  The extractor upper-cases the text and then searches it
    with case-sensitive patterns whose spelled-out alternatives are in
    mixed case, so only the abbreviation "TS/SCI" can match the first
    pattern: each of the texts below is classified Secret. *)
Theorem top_secret_sci_read_as_secret :
  Forall
    (fun text =>
       forall t, _extract_clearance (PStr text) t = (Ok (Some "Secret"), t))
    [ "Top Secret/SCI";
      "TOP SECRET/SCI";
      "top  secret/sci";
      "Requires an active Top Secret/SCI clearance." ]
  /\ (forall t, _extract_clearance (PStr "Active TS/SCI required") t
                = (Ok (Some "TS/SCI"), t)).
Proof.
  split.
  - repeat constructor; intros t; vm_compute; reflexivity.
  - intros t. vm_compute. reflexivity.
Qed.

(** The order of the patterns is the one the claim gives. *)
Example clearance_pattern_order :
  map fst clearance_patterns = ["TS/SCI"; "TS"; "Secret"; "Confidential"].
Proof. reflexivity. Qed.

(** ** Totality and batches *)

(** C8.  [normalize_job] returns a normalized job or [None] for every raw
    record and never raises; the batch loop returns, in input order,
    exactly the jobs of the records that gave one, with nothing standing
    in for a discarded record. *)
Theorem normalize_total_and_batch_order (py : runtime)
  (jobs : list RawJobRecord) (t : nat) :
  (forall raw t0, exists o t', normalize_job py raw t0 = (Ok o, t')) /\
  length (normalize_each py jobs t) = length jobs /\
  exists out t',
    normalize_batch py jobs t = (Ok out, t') /\
    out = kept (normalize_each py jobs t) /\
    sublist ((fun n => Ok (Some n)) <$> out) (normalize_each py jobs t) /\
    (forall n, In n out <-> In (Ok (Some n)) (normalize_each py jobs t)).
Proof.
  split; [intros raw t0; apply normalize_job_ok|].
  split; [apply normalize_each_length|].
  destruct (normalize_loop_kept py jobs [] t) as (t' & E).
  exists (kept (normalize_each py jobs t)), t'.
  split; [exact E|]. split; [reflexivity|].
  split; [apply kept_sublist | intros n; apply kept_elem].
Qed.

(** A record with a numeric title is dropped, its neighbours are kept. *)
Example batch_drops_bad_record :
  map title
    (match fst (normalize_batch sample_datetime
                  [raw_stamped; raw_bad_title; raw_empty] 0) with
     | Ok out => out
     | Raise _ => []
     end)
  = ["Systems Engineer"; ""].
Proof. vm_compute. reflexivity. Qed.

(** ** Pass-through fields *)

(** C9 as stated fails, even when an absent field is read as the empty
    string that the other fields default to: a record without
    [scraped_at] is normalized, and the normalized job has a timestamp
    there. *)
Lemma absent_scraped_at_is_filled_in :
  ~ (forall (py : runtime) (raw : RawJobRecord) (t t' : nat) (n : NormalizedJob),
       normalize_job py raw t = (Ok (Some n), t') ->
       source n = get raw "source" (PStr "") /\
       scraped_at n = get raw "scraped_at" (PStr "")).
Proof.
  intros H.
  destruct (normalize_job sample_datetime raw_empty 0) as [[[n|]|e] t'] eqn:E;
    try (vm_compute in E; discriminate).
  destruct (H sample_datetime raw_empty 0 t' n E) as [_ Hscraped].
  vm_compute in E. inversion E; subst. vm_compute in Hscraped. discriminate.
Qed.

(** C9 (amended).  When normalization gives a job, its [source] is the
    raw record's [source] if the record has one and the empty string
    otherwise, and its [scraped_at] is the raw record's [scraped_at] if
    the record has one and otherwise the time read just before
    [normalized_at]; no other step of the normalization touches either
    value. *)
Theorem source_and_scraped_at_passthrough (py : runtime) (raw : RawJobRecord)
  (t t' : nat) (n : NormalizedJob) :
  normalize_job py raw t = (Ok (Some n), t') ->
  source n = match raw !! "source" with
             | Some v => v
             | None => PStr ""
             end /\
  scraped_at n = match raw !! "scraped_at" with
                 | Some v => v
                 | None => PStr (isoformat py (clock py (t' - 2)))
                 end.
Proof.
  unfold normalize_job, try_exceptM.
  destruct ((normalize_job_body py raw ≫= fun n => mret (Some n)) t)
    as [[o|e] t1] eqn:E; intros H; inversion H; subst; clear H.
  apply bind_ok in E as (n' & t2 & Hbody & Hret).
  apply ret_ok in Hret as [Hn ->]. inversion Hn; subst; clear Hn.
  apply body_source_scraped in Hbody as (Hs & k & -> & Hk).
  split; [exact Hs|].
  replace (S (S k) - 2) with k by lia. exact Hk.
Qed.

Lemma source_and_scraped_at_passthrough_witness :
  normalize_job sample_datetime raw_stamped 0
  = (Ok (Some
       {| job_id := "normalized_20240501_120000";
          title := "Systems Engineer"; company := ""; location := "";
          clearance_level := None; description := ""; url := PStr "";
          posted_date := "2024-05-01T12:00:01";
          source := PStr "insight_global";
          scraped_at := PStr "2024-04-30T08:15:00";
          normalized_at := "2024-05-01T12:00:03" |}), 4)
  /\ PStr "insight_global"
     = match raw_stamped !! "source" with
       | Some v => v
       | None => PStr ""
       end
  /\ PStr "2024-04-30T08:15:00"
     = match raw_stamped !! "scraped_at" with
       | Some v => v
       | None => PStr (isoformat sample_datetime (clock sample_datetime (4 - 2)))
       end.
Proof.
  assert (E : normalize_job sample_datetime raw_stamped 0
              = (Ok (Some
                   {| job_id := "normalized_20240501_120000";
                      title := "Systems Engineer"; company := ""; location := "";
                      clearance_level := None; description := ""; url := PStr "";
                      posted_date := "2024-05-01T12:00:01";
                      source := PStr "insight_global";
                      scraped_at := PStr "2024-04-30T08:15:00";
                      normalized_at := "2024-05-01T12:00:03" |}), 4))
    by (vm_compute; reflexivity).
  split; [exact E|].
  exact (source_and_scraped_at_passthrough sample_datetime raw_stamped 0 4 _ E).
Defined.

End NormalizerFacts.

(* ===================================================================== *)
(** * Properties of the mapping engine *)
(* ===================================================================== *)

Module MappingFacts.
Import PyText PyFloat Mapping Examples.

(** ** Text *)

Lemma startswith_empty (s : string) : startswith "" s = true.
Proof. destruct s; reflexivity. Qed.

Lemma str_in_empty (s : string) : str_in "" s = true.
Proof. destruct s; reflexivity. Qed.

(** ** The scoring loops against the filter-and-add reading *)

Lemma score_terms_spec (weight : pyfloat) (text : string) (terms : list string) :
  forall (score : pyfloat) (found : list string),
    score_terms weight text terms (score, found)
    = (add_each weight (occurring text terms) score,
       found ++ occurring text terms).
Proof.
  unfold score_terms, add_each, occurring.
  induction terms as [|term rest IH]; intros score found; cbn [fold_left List.filter].
  - rewrite app_nil_r. reflexivity.
  - destruct (str_in term text); rewrite IH.
    + cbn [fold_left]. rewrite <- app_assoc. reflexivity.
    + reflexivity.
Qed.

Lemma score_program_spec (job : job_data) (details : program_details) (fn : string) :
  full_name details = Some fn ->
  score_program job details
  = Ok (spec_score (job_text job) job details,
        spec_found (job_text job) details).
Proof.
  intros Hfn. unfold score_program, spec_score, spec_base_score, spec_found.
  rewrite Hfn. cbn [index get mbind result_bind rbind].
  rewrite !score_terms_spec. cbn [app].
  destruct (contractor_matches job details); reflexivity.
Qed.

Lemma score_program_unnamed (job : job_data) (details : program_details) :
  full_name details = None ->
  score_program job details = Raise (KeyError "full_name").
Proof. intros Hfn. unfold score_program. rewrite Hfn. reflexivity. Qed.

Lemma keyword_loop_spec (self : engine) (job : job_data) (t : pyfloat)
  (items : programs_dictionary) :
  keyword_match_threshold (the_settings self) = Some t ->
  named items ->
  forall mapped found,
    keyword_loop self job items mapped found
    = Ok (mapped ++ map fst (spec_selected (job_text job) job t items),
          found ++ found_of (job_text job)
                     (spec_selected (job_text job) job t items)).
Proof.
  intros Ht. unfold named, found_of, spec_selected.
  induction items as [|[code details] rest IH]; intros Hnamed mapped found;
    cbn [keyword_loop List.filter].
  - cbn [map concat]. rewrite !app_nil_r. reflexivity.
  - inversion Hnamed as [|? ? [fn Hfn] Hrest]; subst. cbn [snd] in Hfn.
    rewrite (score_program_spec job details fn Hfn), Ht.
    cbn [index mbind result_bind rbind].
    destruct (geb (spec_score (job_text job) job details) t).
    + rewrite (IH Hrest). cbn [map concat fst snd].
      rewrite <- !app_assoc. reflexivity.
    + apply (IH Hrest).
Qed.

(** ** The shape of every keyword result *)

Lemma keyword_result (py : runtime) (self : engine) (job : job_data)
  (now : string) (r : MappingResult) :
  _keyword_based_mapping py self job now = Ok r ->
  exists mapped found,
    keyword_loop self job (programs_dict self) [] [] = Ok (mapped, found) /\
    r = {| job_id := j_job_id job;
           mapped_programs := mapped;
           confidence_score := keyword_confidence (length mapped);
           reasoning := "Keyword-based mapping using terms: "
                          +:+ join ", " (set_iter py found);
           keywords_found := set_iter py found;
           mapped_at := now;
           source := keyword_matching |}.
Proof.
  unfold _keyword_based_mapping.
  destruct (keyword_loop self job (programs_dict self) [] [])
    as [[mapped found]|e]; cbn [mbind result_bind rbind mret result_ret];
    intros H; inversion H; subst.
  exists mapped, found. split; reflexivity.
Qed.

Lemma keyword_named (py : runtime) (self : engine) (job : job_data)
  (now : string) (t : pyfloat) :
  keyword_match_threshold (the_settings self) = Some t ->
  named (programs_dict self) ->
  let selected := spec_selected (job_text job) job t (programs_dict self) in
  _keyword_based_mapping py self job now
  = Ok {| job_id := j_job_id job;
          mapped_programs := map fst selected;
          confidence_score := keyword_confidence (length (map fst selected));
          reasoning := "Keyword-based mapping using terms: "
                         +:+ join ", " (set_iter py (found_of (job_text job) selected));
          keywords_found := set_iter py (found_of (job_text job) selected);
          mapped_at := now;
          source := keyword_matching |}.
Proof.
  intros Ht Hnamed selected. unfold _keyword_based_mapping.
  rewrite (keyword_loop_spec self job t (programs_dict self) Ht Hnamed [] []).
  reflexivity.
Qed.

Lemma keyword_empty_dictionary (py : runtime) (self : engine) (job : job_data)
  (now : string) :
  programs_dict self = [] ->
  exists k, _keyword_based_mapping py self job now = Ok k /\
            mapped_programs k = [] /\ confidence_score k = f0_0 /\
            keywords_found k = set_iter py [] /\ source k = keyword_matching.
Proof.
  intros Hd. unfold _keyword_based_mapping. rewrite Hd.
  cbn [keyword_loop mbind result_bind rbind mret result_ret].
  eexists. split; [reflexivity|]. cbn. repeat split; reflexivity.
Qed.

(** ** The shape of every result of the engine *)

Lemma fallback_result (job : job_data) (now : string) :
  exists r, _create_fallback_mapping job now = Ok r /\
            job_id r = j_job_id job /\ mapped_programs r = [] /\
            confidence_score r = f0_0 /\ source r = fallback.
Proof. eexists. split; [reflexivity|]. repeat split; reflexivity. Qed.

Lemma parse_attempt_result (py : runtime) (content : option string)
  (job : job_data) (now : string) (r : MappingResult) :
  parse_attempt py content job now = Ok (Some r) ->
  job_id r = j_job_id job /\ source r = ai_analysis.
Proof.
  unfold parse_attempt. destruct content as [text|]; [|discriminate].
  destruct (Re.search re_json_object text) as [m|]; [|discriminate].
  destruct (json_loads py (Re.group m)) as [parsed|]; [|discriminate].
  intros H. inversion H; subst. split; reflexivity.
Qed.


Lemma parse_ai_response_result (py : runtime) (self : engine)
  (content : option string) (job : job_data) (now : string) (r : MappingResult) :
  _parse_ai_response py self content job now = Ok r ->
  job_id r = j_job_id job /\
  (source r = ai_analysis \/
   _keyword_based_mapping py self job now = Ok r).
Proof.
  unfold _parse_ai_response.
  destruct (parse_attempt py content job now) as [[r'|]|e] eqn:E;
    cbn [try_except mbind result_bind rbind]; intros H.
  - inversion H; subst. apply parse_attempt_result in E as [Hid Hsrc].
    split; [assumption | left; assumption].
  - split; [|right; assumption].
    apply keyword_result in H as (mapped & found & _ & ->). reflexivity.
  - split; [|right; assumption].
    apply keyword_result in H as (mapped & found & _ & ->). reflexivity.
Qed.

Lemma map_job_body_result (py : runtime) (self : engine) (job : job_data)
  (env : call_env) (r : MappingResult) :
  map_job_body py self job env = Ok r ->
  job_id r = j_job_id job /\
  (source r = ai_analysis \/
   _keyword_based_mapping py self job (now env) = Ok r).
Proof.
  unfold map_job_body.
  destruct (_create_mapping_prompt self job) as [prompt|e]; [|discriminate].
  destruct (openai_model (the_settings self)); [|discriminate].
  destruct (openai_max_tokens (the_settings self)); [|discriminate].
  destruct (openai_temperature (the_settings self)); [|discriminate].
  cbn [index mbind result_bind rbind].
  destruct (service env prompt) as [[|content rest]|e]; try discriminate.
  cbn [rbind]. apply parse_ai_response_result.
Qed.

Lemma map_job_ok (py : runtime) (self : engine) (job : job_data) (env : call_env) :
  exists r, map_job_to_programs py self job env = Ok r /\
            job_id r = j_job_id job /\
            (forall e, map_job_body py self job env = Raise e ->
                       mapped_programs r = [] /\ confidence_score r = f0_0 /\
                       source r = fallback).
Proof.
  unfold map_job_to_programs.
  destruct (map_job_body py self job env) as [r|e] eqn:E; cbn [try_except].
  - exists r. split; [reflexivity|].
    split; [apply (map_job_body_result _ _ _ _ _ E) | discriminate].
  - eexists. split; [reflexivity|]. repeat split; reflexivity.
Qed.

(** ** The batch loop *)

Lemma mapping_loop_spec (py : runtime) (self : engine) (envs : nat -> call_env)
  (jobs : list job_data) :
  forall acc, exists results,
    mapping_loop py self jobs envs acc = Ok (acc ++ results) /\
    length results = length jobs /\
    forall i job, jobs !! i = Some job ->
      exists r, results !! i = Some r /\
                map_job_to_programs py self job (envs (length acc + i)) = Ok r.
Proof.
  induction jobs as [|job rest IH]; intros acc; cbn [mapping_loop].
  - exists []. rewrite app_nil_r. split; [reflexivity|].
    split; [reflexivity|]. intros i job H. discriminate.
  - destruct (map_job_ok py self job (envs (length acc))) as (r & Er & _).
    rewrite Er. cbn [mbind result_bind rbind].
    destruct (IH (acc ++ [r])) as (results & E & Hlen & Hnth).
    exists (r :: results). rewrite E, <- app_assoc. split; [reflexivity|].
    split; [cbn [length]; rewrite Hlen; reflexivity|].
    intros [|i] job' Hjob; cbn in Hjob.
    + inversion Hjob; subst. exists r. split; [reflexivity|].
      rewrite Nat.add_0_r. exact Er.
    + destruct (Hnth i job' Hjob) as (r' & Hr' & Er').
      exists r'. split; [exact Hr'|].
      rewrite length_app in Er'. cbn [length] in Er'.
      replace (length acc + S i) with (length acc + 1 + i) by lia. exact Er'.
Qed.

(** ** Failure of the semantic tier *)







(** What the second case looks like: the prompt is built, the request
    settings are read, the answer holds no JSON object, and with no
    threshold configured the result is the fail-safe mapping. *)
Example unparseable_answer_without_threshold :
  map_job_to_programs sample_json
    {| the_settings :=
         {| openai_model := Some "gpt-4"; openai_max_tokens := Some 500%Z;
            openai_temperature := Some f0_2;
            keyword_match_threshold := None |};
       programs_dict := [("F35", f35)] |}
    systems_engineer (service_says (Some "I cannot answer in JSON."))
  = Ok (MappingMain.failed_to_analyze systems_engineer "2024-05-01T12:00:00").
Proof. vm_compute. reflexivity. Qed.

(** ** The engine boundary *)

(** C3.  [map_job_to_programs] returns a result for every job and never
    raises; whenever anything inside the cascade raises, the result is
    the fail-safe mapping: no programs, confidence [0.0], source
    [fallback]. *)
Theorem map_job_never_raises (py : runtime) (self : engine) (job : job_data)
  (env : call_env) :
  exists r, map_job_to_programs py self job env = Ok r /\
            (forall e, map_job_body py self job env = Raise e ->
                       mapped_programs r = [] /\ confidence_score r = f0_0 /\
                       source r = fallback).
Proof.
  destruct (map_job_ok py self job env) as (r & Hr & _ & Hraise).
  exists r. split; assumption.
Qed.

(** A dictionary entry without [prime_contractor] makes the prompt raise
    [KeyError]; the boundary turns it into the fail-safe mapping. *)
Example key_error_is_absorbed :
  let self := {| the_settings := sample_settings f0_5;
                 programs_dict := [("GBSD", anonymous_program)] |} in
  map_job_body sample_json self systems_engineer (service_says (Some "{}"))
  = Raise (KeyError "prime_contractor") /\
  map_job_to_programs sample_json self systems_engineer (service_says (Some "{}"))
  = _create_fallback_mapping systems_engineer "2024-05-01T12:00:00".
Proof. split; vm_compute; reflexivity. Qed.

(** ** Loading the dictionary *)

(** C4 as stated fails: a dictionary file that exists but does not decode
    makes loading raise instead of giving the empty dictionary. *)
Lemma malformed_dictionary_raises :
  ~ (forall (py : runtime) (f : file_state),
       f = Missing \/ malformed py f ->
       _load_programs_dictionary py f = Ok []).
Proof.
  intros H.
  assert (Hbad : malformed sample_json (Contents "{not json")).
  { exists "{not json". split; reflexivity. }
  specialize (H sample_json (Contents "{not json") (or_intror Hbad)).
  vm_compute in H. discriminate.
Qed.

(** C4 (amended).  A missing dictionary file gives the empty dictionary;
    a file that does not decode makes loading, and with it the
    construction of the engine, raise.  With the empty dictionary the
    keyword strategy gives no programs and confidence [0.0] for every
    job, the engine returns a result for every job, and that result has
    no programs and confidence [0.0] unless it is what the service
    answered. *)
Theorem dictionary_fail_open (py : runtime) :
  _load_programs_dictionary py Missing = Ok [] /\
  (forall f, malformed py f ->
     _load_programs_dictionary py f = Raise JSONDecodeError /\
     forall s key, __init__ py (Ok s) f key = Raise JSONDecodeError) /\
  (forall self job env,
     programs_dict self = [] ->
     (exists k, _keyword_based_mapping py self job (now env) = Ok k /\
                mapped_programs k = [] /\ confidence_score k = f0_0) /\
     (exists r, map_job_to_programs py self job env = Ok r /\
                (source r <> ai_analysis ->
                 mapped_programs r = [] /\ confidence_score r = f0_0))).
Proof.
  split; [reflexivity|]. split.
  - intros f (text & -> & Hload).
    assert (E : _load_programs_dictionary py (Contents text) = Raise JSONDecodeError).
    { unfold _load_programs_dictionary. rewrite Hload. reflexivity. }
    split; [exact E|]. intros s key. unfold __init__.
    cbn [mbind result_bind rbind]. rewrite E. reflexivity.
  - intros self job env Hd.
    destruct (keyword_empty_dictionary py self job (now env) Hd)
      as (k & Hk & Hmapped & Hconf & _).
    split; [exists k; repeat split; assumption|].
    destruct (map_job_ok py self job env) as (r & Hr & _ & Hraise).
    exists r. split; [exact Hr|]. intros Hsrc.
    unfold map_job_to_programs in Hr.
    destruct (map_job_body py self job env) as [r'|e] eqn:E; cbn [try_except] in Hr.
    + inversion Hr; subst r'.
      destruct (map_job_body_result py self job env r E) as [_ [Hai | Hkw]].
      * contradiction.
      * rewrite Hk in Hkw. inversion Hkw; subst. split; assumption.
    + destruct (Hraise e eq_refl) as (Hm & Hc & _). split; assumption.
Qed.

(** With the empty dictionary the service can still name programs. *)
Example empty_dictionary_semantic_answer :
  exists r, map_job_to_programs sample_json empty_engine systems_engineer
              (service_says (Some "Mapping: {F35}")) = Ok r /\
            source r = ai_analysis /\ mapped_programs r = ["F35"].
Proof. eexists. split; [vm_compute; reflexivity|]. split; reflexivity. Qed.

(** ** Keyword scoring *)

(** The engine's text, term lists and contractor test are the stated
    ones. *)
Lemma job_text_stated (job : job_data) : job_text job = stated_text job.
Proof. reflexivity. Qed.

Lemma program_terms_stated (details : program_details) (fn : string) :
  full_name details = Some fn ->
  program_terms fn details = stated_names details.
Proof.
  intros Hfn. unfold program_terms, stated_names. rewrite Hfn.
  cbn [get map app]. rewrite map_app. reflexivity.
Qed.

Lemma program_skills_stated (details : program_details) :
  program_skills details = stated_skills details.
Proof. reflexivity. Qed.

Lemma contractor_matches_stated (job : job_data) (details : program_details) :
  contractor_matches job details = stated_contractor job details.
Proof. reflexivity. Qed.

Lemma score_program_stated (job : job_data) (details : program_details) :
  is_Some (full_name details) ->
  score_program job details
  = Ok (stated_score (stated_text job) job details,
        stated_found (stated_text job) details).
Proof.
  intros [fn Hfn]. rewrite (score_program_spec job details fn Hfn).
  unfold spec_score, spec_base_score, spec_found, stated_score, stated_found.
  rewrite Hfn. cbn [get].
  rewrite (program_terms_stated details fn Hfn), program_skills_stated,
    contractor_matches_stated, job_text_stated.
  reflexivity.
Qed.

Lemma score_stated (job : job_data) (details : program_details) :
  is_Some (full_name details) ->
  spec_score (job_text job) job details
  = stated_score (stated_text job) job details /\
  spec_found (job_text job) details = stated_found (stated_text job) details.
Proof.
  intros [fn Hfn].
  pose proof (score_program_spec job details fn Hfn) as H1.
  pose proof (score_program_stated job details (ex_intro _ fn Hfn)) as H2.
  rewrite H1 in H2. inversion H2. split; reflexivity.
Qed.

Lemma selected_stated (job : job_data) (t : pyfloat) (items : programs_dictionary) :
  named items ->
  spec_selected (job_text job) job t items
  = stated_selected (stated_text job) job t items.
Proof.
  unfold named, spec_selected, stated_selected.
  induction items as [|[code details] rest IH]; intros Hnamed; [reflexivity|].
  inversion Hnamed as [|? ? Hfn Hrest]; subst. cbn [snd] in Hfn.
  cbn [List.filter snd].
  destruct (score_stated job details Hfn) as [-> _]. rewrite (IH Hrest).
  reflexivity.
Qed.

Lemma found_stated (job : job_data) (items : programs_dictionary) :
  named items ->
  found_of (job_text job) items = stated_keywords (stated_text job) items.
Proof.
  unfold named, found_of, stated_keywords.
  induction items as [|[code details] rest IH]; intros Hnamed; [reflexivity|].
  inversion Hnamed as [|? ? Hfn Hrest]; subst. cbn [snd] in Hfn.
  cbn [map concat snd].
  destruct (score_stated job details Hfn) as [_ ->]. rewrite (IH Hrest).
  reflexivity.
Qed.

Lemma stated_selected_named (text : string) (job : job_data) (t : pyfloat)
  (items : programs_dictionary) :
  named items -> named (stated_selected text job t items).
Proof.
  unfold named, stated_selected. intros H.
  rewrite List.Forall_forall in *. intros item Hin.
  apply filter_In in Hin as [Hin _]. apply H, Hin.
Qed.

Lemma in_stated_selected (text : string) (job : job_data) (t : pyfloat)
  (items : programs_dictionary) (code : string) :
  In code (map fst (stated_selected text job t items)) <->
  exists details, In (code, details) items /\
                  geb (stated_score text job details) t = true.
Proof.
  unfold stated_selected. rewrite in_map_iff. split.
  - intros ([code' details] & Hfst & Hin). cbn [fst] in Hfst. subst code'.
    apply filter_In in Hin as [Hin Hgeb]. exists details. split; assumption.
  - intros (details & Hin & Hgeb). exists (code, details).
    split; [reflexivity|]. apply filter_In. split; assumption.
Qed.

(** C5 as stated fails: the job text is not the plain concatenation of
    title and description.  A name that appears only across the seam
    ("...F" followed by "35...") scores under that reading and does not
    score in the engine. *)
Lemma plain_concatenation_is_not_the_job_text :
  ~ (forall (py : runtime) (self : engine) (job : job_data) (now : string)
            (t : pyfloat) (r : MappingResult),
       keyword_match_threshold (the_settings self) = Some t ->
       named (programs_dict self) ->
       _keyword_based_mapping py self job now = Ok r ->
       forall code,
         In code (mapped_programs r) <->
         exists details,
           In (code, details) (programs_dict self) /\
           geb (stated_score (concatenated_text job) job details) t = true).
Proof.
  intros H.
  assert (Hnamed : named (programs_dict split_name_engine)).
  { repeat constructor. eexists. reflexivity. }
  assert (Hk : _keyword_based_mapping sample_json split_name_engine split_name_job
                 "2024-05-01T12:00:00"
               = Ok {| job_id := Some "ig-1002";
                       mapped_programs := [];
                       confidence_score := f0_0;
                       reasoning := "Keyword-based mapping using terms: ";
                       keywords_found := [];
                       mapped_at := "2024-05-01T12:00:00";
                       source := keyword_matching |})
    by (vm_compute; reflexivity).
  destruct (H sample_json split_name_engine split_name_job _ f0_3 _
              eq_refl Hnamed Hk "F35") as [_ Hin].
  cbn [mapped_programs] in Hin. apply Hin.
  eexists. split; [left; reflexivity | vm_compute; reflexivity].
Qed.

(** C5 (amended).  The keyword strategy scores each program over the
    lower-cased text made of the title, one space and the description:
    each occurring full name, acronym or code name adds 0.3 and is
    recorded, each occurring key skill adds 0.2 and is recorded, a prime
    contractor occurring in the lower-cased company adds 0.4; a program is
    in [mapped_programs] exactly when its score meets or exceeds the
    configured threshold.  The right-hand sides are the stated rule,
    which is written without the engine's helpers. *)
Theorem keyword_strategy_scores (py : runtime) (self : engine) (job : job_data)
  (now : string) (t : pyfloat) :
  keyword_match_threshold (the_settings self) = Some t ->
  named (programs_dict self) ->
  exists r,
    _keyword_based_mapping py self job now = Ok r /\
    (forall code details,
       In (code, details) (programs_dict self) ->
       score_program job details
       = Ok (stated_score (stated_text job) job details,
             stated_found (stated_text job) details)) /\
    mapped_programs r
    = map fst (stated_selected (stated_text job) job t (programs_dict self)) /\
    (forall code,
       In code (mapped_programs r) <->
       exists details,
         In (code, details) (programs_dict self) /\
         geb (stated_score (stated_text job) job details) t = true) /\
    keywords_found r
    = set_iter py (stated_keywords (stated_text job)
                     (stated_selected (stated_text job) job t
                                      (programs_dict self))).
Proof.
  intros Ht Hnamed. eexists.
  split; [apply (keyword_named py self job now t Ht Hnamed)|].
  cbn [mapped_programs keywords_found].
  rewrite (selected_stated job t (programs_dict self) Hnamed).
  rewrite (found_stated job _ (stated_selected_named _ job t _ Hnamed)).
  split; [|split; [reflexivity | split; [|reflexivity]]].
  - intros code details Hin. unfold named in Hnamed.
    rewrite List.Forall_forall in Hnamed.
    apply score_program_stated. apply (Hnamed (code, details) Hin).
  - intros code. apply in_stated_selected.
Qed.

Lemma keyword_strategy_scores_witness :
  keyword_match_threshold (the_settings f35_engine) = Some f0_5 /\
  named (programs_dict f35_engine) /\
  exists r,
    _keyword_based_mapping sample_json f35_engine systems_engineer
      "2024-05-01T12:00:00" = Ok r /\
    mapped_programs r = ["F35"] /\ keywords_found r = ["avionics"].
Proof.
  assert (Hnamed : named (programs_dict f35_engine)).
  { repeat constructor. eexists. reflexivity. }
  split; [reflexivity|]. split; [exact Hnamed|].
  destruct (keyword_strategy_scores sample_json f35_engine systems_engineer
              "2024-05-01T12:00:00" f0_5 eq_refl Hnamed)
    as (r & Hr & _ & Hmapped & _ & Hfound).
  exists r. split; [exact Hr|]. split.
  - rewrite Hmapped. vm_compute. reflexivity.
  - rewrite Hfound. vm_compute. reflexivity.
Defined.

(** ** Confidence of the keyword strategy *)

(** C6.  The confidence of a keyword result is [min(0.7, 0.2 * n)] for
    [n] the number of mapped programs, in binary64 arithmetic; it never
    exceeds [0.7], and a result with no more programs than another has no
    more confidence. *)
Theorem keyword_confidence_capped_monotone (py py' : runtime)
  (self self' : engine) (job job' : job_data) (now now' : string)
  (r r' : MappingResult) :
  _keyword_based_mapping py self job now = Ok r ->
  _keyword_based_mapping py' self' job' now' = Ok r' ->
  confidence_score r = spec_confidence (length (mapped_programs r)) /\
  leb (confidence_score r) f0_7 = true /\
  (length (mapped_programs r) <= length (mapped_programs r') ->
   leb (confidence_score r) (confidence_score r') = true).
Proof.
  intros Hr Hr'.
  apply keyword_result in Hr as (mapped & found & _ & ->).
  apply keyword_result in Hr' as (mapped' & found' & _ & ->).
  cbn [confidence_score mapped_programs].
  split; [symmetry; apply PyFloatFacts.spec_confidence_eq|].
  split; [apply PyFloatFacts.confidence_capped|].
  apply PyFloatFacts.confidence_monotone.
Qed.

Lemma keyword_confidence_capped_monotone_witness :
  _keyword_based_mapping sample_json empty_engine systems_engineer
    "2024-05-01T12:00:00" = Ok empty_keyword_result /\
  _keyword_based_mapping sample_json f35_engine systems_engineer
    "2024-05-01T12:00:00" = Ok f35_keyword_result /\
  f0_0 = spec_confidence 0 /\
  leb f0_0 f0_7 = true /\
  (0 <= 1 -> leb f0_0 f0_2 = true).
Proof.
  assert (H0 : _keyword_based_mapping sample_json empty_engine systems_engineer
                 "2024-05-01T12:00:00" = Ok empty_keyword_result)
    by (vm_compute; reflexivity).
  assert (H1 : _keyword_based_mapping sample_json f35_engine systems_engineer
                 "2024-05-01T12:00:00" = Ok f35_keyword_result)
    by (vm_compute; reflexivity).
  split; [exact H0|]. split; [exact H1|].
  exact (keyword_confidence_capped_monotone _ _ _ _ _ _ _ _ _ _ H0 H1).
Defined.

(** The first counts: 0.0, 0.2, 0.4, 0.6000000000000001, then 0.7. *)
Example keyword_confidence_values :
  map keyword_confidence [0; 1; 2; 3; 4; 5]
  = [ f0_0; f0_2; f0_4; S754_finite false 5404319552844596 (-53); f0_7; f0_7 ].
Proof. vm_compute. reflexivity. Qed.

(** ** Batches *)

(** C7.  The batch returns one result per job, in input order; result [i]
    carries the [job_id] of job [i] and is what mapping job [i] alone
    gives under the world of position [i], so it does not depend on the
    other jobs of the batch or on what happened while they were mapped. *)
Theorem batch_preserves_order_and_cardinality (py : runtime) (self : engine)
  (jobs : list job_data) (envs : nat -> call_env) :
  exists results,
    process_jobs_batch py self (Ok jobs) envs = Ok results /\
    length results = length jobs /\
    (forall i job,
       jobs !! i = Some job ->
       exists r, results !! i = Some r /\
                 job_id r = j_job_id job /\
                 map_job_to_programs py self job (envs i) = Ok r) /\
    (forall jobs' envs' results' i job,
       process_jobs_batch py self (Ok jobs') envs' = Ok results' ->
       jobs !! i = Some job -> jobs' !! i = Some job -> envs' i = envs i ->
       results' !! i = results !! i).
Proof.
  assert (Hbatch : forall js es, exists rs,
            process_jobs_batch py self (Ok js) es = Ok rs /\
            length rs = length js /\
            forall i job, js !! i = Some job ->
              exists r, rs !! i = Some r /\
                        map_job_to_programs py self job (es i) = Ok r).
  { intros js es.
    destruct (mapping_loop_spec py self es js []) as (rs & E & Hlen & Hnth).
    exists rs. unfold process_jobs_batch.
    cbn [mbind result_bind rbind]. rewrite E. cbn [app try_except].
    split; [reflexivity|]. split; [exact Hlen|]. exact Hnth. }
  destruct (Hbatch jobs envs) as (results & E & Hlen & Hnth).
  exists results. split; [exact E|]. split; [exact Hlen|]. split.
  - intros i job Hjob. destruct (Hnth i job Hjob) as (r & Hr & Er).
    exists r. split; [exact Hr|]. split; [|exact Er].
    destruct (map_job_ok py self job (envs i)) as (r0 & Er0 & Hid & _).
    rewrite Er in Er0. inversion Er0; subst. exact Hid.
  - intros jobs' envs' results' i job E' Hjob Hjob' Henv.
    destruct (Hbatch jobs' envs') as (rs' & E'' & _ & Hnth').
    rewrite E' in E''. inversion E''; subst rs'.
    destruct (Hnth i job Hjob) as (r & Hr & Er).
    destruct (Hnth' i job Hjob') as (r' & Hr' & Er').
    rewrite Henv, Er in Er'. inversion Er'; subst r'.
    rewrite Hr, Hr'. reflexivity.
Qed.

(** A service failure on the first job leaves the second job's result
    what it is on its own. *)
Example batch_failure_is_contained :
  process_jobs_batch sample_json f35_engine
    (Ok [systems_engineer; systems_engineer])
    (fun i => match i with
              | 0 => service_down
              | _ => service_says (Some "no object here")
              end)
  = (r0 ← _create_fallback_mapping systems_engineer "2024-05-01T12:00:00";
     mret [r0; f35_keyword_result]).
Proof. vm_compute. reflexivity. Qed.

(** ** Programs without a prime contractor *)

(** C10.  When a program has no [prime_contractor], or an empty one, the
    contractor check holds for every job whatever its company, so the
    program's score is its name-and-skill score plus 0.4. *)
Theorem missing_contractor_always_matches (job : job_data)
  (details : program_details) :
  prime_contractor details = None \/ prime_contractor details = Some "" ->
  contractor_matches job details = true /\
  spec_score (job_text job) job details
  = add (spec_base_score (job_text job) details) f0_4 /\
  (forall fn,
     full_name details = Some fn ->
     score_program job details
     = Ok (add (spec_base_score (job_text job) details) f0_4,
           spec_found (job_text job) details)).
Proof.
  intros Hpc.
  assert (Hmatch : contractor_matches job details = true).
  { unfold contractor_matches.
    destruct Hpc as [-> | ->]; cbn [get lower smap]; apply str_in_empty. }
  split; [exact Hmatch|].
  assert (Hscore : spec_score (job_text job) job details
                   = add (spec_base_score (job_text job) details) f0_4).
  { unfold spec_score. rewrite Hmatch. reflexivity. }
  split; [exact Hscore|].
  intros fn Hfn. rewrite (score_program_spec job details fn Hfn), Hscore.
  reflexivity.
Qed.

Lemma missing_contractor_always_matches_witness :
  (prime_contractor anonymous_program = None \/
   prime_contractor anonymous_program = Some "") /\
  contractor_matches systems_engineer anonymous_program = true /\
  score_program systems_engineer anonymous_program = Ok (f0_4, []).
Proof.
  assert (Hpc : prime_contractor anonymous_program = None \/
                prime_contractor anonymous_program = Some "")
    by (left; reflexivity).
  split; [exact Hpc|].
  destruct (missing_contractor_always_matches systems_engineer anonymous_program Hpc)
    as (Hmatch & _ & Hscore).
  split; [exact Hmatch|].
  rewrite (Hscore _ eq_refl). vm_compute. reflexivity.
Defined.

End MappingFacts.

(* ===================================================================== *)
(** * Facts about the text operations *)
(* ===================================================================== *)

Module TextFacts.
Import PyText Re TextSpec.

(** ** Substitution of a character class *)

Lemma sub_fuel_set (p : ascii -> bool) (repl : string) :
  forall fuel s prev,
    String.length s < fuel ->
    sub_fuel fuel (RSet p) repl prev s = replace_chars p repl s.
Proof.
  induction fuel as [|fuel IH]; intros s prev Hlen; [lia|].
  destruct s as [|c s]; [reflexivity|].
  cbn [sub_fuel match_here rmatch replace_chars].
  cbn [String.length] in Hlen.
  destruct (p c).
  - replace (String.length s <? String.length (String c s))%nat with true
      by (symmetry; apply Nat.ltb_lt; cbn [String.length]; lia).
    rewrite IH by lia. reflexivity.
  - rewrite IH by lia. reflexivity.
Qed.

Lemma sub_set (p : ascii -> bool) (repl s : string) :
  sub (RSet p) repl s = replace_chars p repl s.
Proof. unfold sub. apply sub_fuel_set. lia. Qed.

(** ** Substitution of whitespace runs *)

Lemma skip_length (p : ascii -> bool) (s : string) :
  String.length (skip p s) <= String.length s.
Proof.
  induction s as [|c s IH]; cbn [skip String.length]; [lia|].
  destruct (p c); cbn [String.length]; lia.
Qed.

Lemma star_k_greedy (p : ascii -> bool) (s : string) :
  forall prev, exists prev',
    star_k p prev s (fun a rest => Some (a, rest)) = Some (prev', skip p s).
Proof.
  induction s as [|c s IH]; intros prev; cbn [star_k skip].
  - exists prev. reflexivity.
  - destruct (p c).
    + destruct (IH (Some c)) as [prev' E]. rewrite E. exists prev'. reflexivity.
    + exists prev. reflexivity.
Qed.

Lemma collapse_skip (s : string) :
  collapse_spaces false (skip is_space s) = collapse_spaces true s.
Proof.
  induction s as [|c s IH]; cbn [skip collapse_spaces]; [reflexivity|].
  destruct (is_space c) eqn:E; [exact IH|].
  cbn [collapse_spaces]. rewrite E. reflexivity.
Qed.

Lemma sub_fuel_spaces :
  forall fuel s prev,
    String.length s < fuel ->
    sub_fuel fuel (RPlus is_space) " " prev s = collapse_spaces false s.
Proof.
  induction fuel as [|fuel IH]; intros s prev Hlen; [lia|].
  destruct s as [|c s]; [reflexivity|].
  cbn [sub_fuel match_here rmatch collapse_spaces].
  cbn [String.length] in Hlen.
  destruct (is_space c).
  - destruct (star_k_greedy is_space s (Some c)) as [prev' E]. rewrite E.
    pose proof (skip_length is_space s) as Hskip.
    replace (String.length (skip is_space s) <? String.length (String c s))%nat
      with true
      by (symmetry; apply Nat.ltb_lt; cbn [String.length]; lia).
    rewrite IH by lia. rewrite collapse_skip. reflexivity.
  - rewrite IH by lia. reflexivity.
Qed.

Lemma sub_spaces (s : string) :
  sub (RPlus is_space) " " s = collapse_spaces false s.
Proof. unfold sub. apply sub_fuel_spaces. lia. Qed.

Lemma collapse_single_spaced (s : string) :
  forall in_run after_space,
    (after_space = true -> in_run = true) ->
    single_spaced after_space (collapse_spaces in_run s) = true.
Proof.
  induction s as [|c s IH]; intros in_run after_space H;
    cbn [collapse_spaces]; [reflexivity|].
  destruct (is_space c) eqn:E.
  - destruct in_run.
    + apply IH. reflexivity.
    + cbn [single_spaced].
      destruct after_space; [specialize (H eq_refl); discriminate|].
      change (is_space " ") with true. cbn [Ascii.eqb Bool.eqb negb andb].
      apply IH. reflexivity.
  - cbn [single_spaced]. rewrite E. apply IH. discriminate.
Qed.

Lemma single_spaced_weaken (s : string) :
  single_spaced true s = true -> single_spaced false s = true.
Proof.
  destruct s as [|c s]; [reflexivity|]. cbn [single_spaced].
  destruct (is_space c); [|trivial].
  rewrite andb_false_r. discriminate.
Qed.

Lemma collapse_fixed (s : string) :
  forall b, single_spaced b s = true -> collapse_spaces b s = s.
Proof.
  induction s as [|c s IH]; intros b H; [reflexivity|].
  cbn [single_spaced] in H. cbn [collapse_spaces].
  destruct (is_space c).
  - apply andb_true_iff in H as [H Hs]. apply andb_true_iff in H as [Hc Hb].
    apply Ascii.eqb_eq in Hc. subst c.
    destruct b; [discriminate|]. rewrite (IH true Hs). reflexivity.
  - rewrite (IH false H). reflexivity.
Qed.

(** ** [strip] *)

Lemma lstrip_skip (s : string) : lstrip s = skip is_space s.
Proof. induction s as [|c s IH]; cbn [lstrip skip]; [|rewrite IH]; reflexivity. Qed.

Lemma last_of_nonempty (s : string) :
  s <> "" -> forall p q, last_of p s = last_of q s.
Proof. destruct s as [|c s]; [contradiction | reflexivity]. Qed.

Lemma ends_with_space_cons (c : ascii) (s : string) :
  s <> "" -> ends_with_space (String c s) = ends_with_space s.
Proof.
  intros H. unfold ends_with_space. cbn [last_of].
  rewrite (last_of_nonempty s H (Some c) None). reflexivity.
Qed.

Lemma rstrip_fixed (s : string) :
  rstrip s = s <-> ends_with_space s = false.
Proof.
  induction s as [|c s IH]; [split; reflexivity|].
  cbn [rstrip]. destruct s as [|c' s'].
  - cbn [rstrip]. unfold ends_with_space. cbn [last_of].
    destruct (is_space c); split; intros H; congruence.
  - rewrite ends_with_space_cons by discriminate.
    destruct (rstrip (String c' s')) as [|d r] eqn:E.
    + split; intros H.
      * destruct (is_space c); discriminate.
      * apply IH in H. discriminate.
    + rewrite <- IH. split; intros H; congruence.
Qed.

Lemma rstrip_ends (s : string) : ends_with_space (rstrip s) = false.
Proof.
  induction s as [|c s IH]; [reflexivity|]. cbn [rstrip].
  destruct (rstrip s) as [|d r] eqn:E.
  - destruct (is_space c) eqn:Ec; [reflexivity|].
    unfold ends_with_space. cbn [last_of]. exact Ec.
  - rewrite ends_with_space_cons by discriminate. exact IH.
Qed.

Lemma rstrip_idem (s : string) : rstrip (rstrip s) = rstrip s.
Proof. apply rstrip_fixed, rstrip_ends. Qed.

Lemma lstrip_fixed (s : string) :
  lstrip s = s <-> starts_with_space s = false.
Proof.
  destruct s as [|c s]; [split; reflexivity|].
  cbn [lstrip starts_with_space]. destruct (is_space c) eqn:E.
  - split; [|discriminate]. intros H. exfalso.
    assert (Hlen : String.length (lstrip s) <= String.length s).
    { rewrite lstrip_skip. apply skip_length. }
    rewrite H in Hlen. cbn [String.length] in Hlen. lia.
  - split; reflexivity.
Qed.

Lemma lstrip_starts (s : string) : starts_with_space (lstrip s) = false.
Proof.
  induction s as [|c s IH]; [reflexivity|]. cbn [lstrip].
  destruct (is_space c) eqn:E; [exact IH | exact E].
Qed.

Lemma rstrip_starts (s : string) :
  starts_with_space s = false -> starts_with_space (rstrip s) = false.
Proof.
  destruct s as [|c s]; [reflexivity|]. cbn [starts_with_space rstrip].
  intros H. destruct (rstrip s); [rewrite H|]; cbn [starts_with_space]; auto.
Qed.

Lemma strip_starts (s : string) : starts_with_space (strip s) = false.
Proof. apply rstrip_starts, lstrip_starts. Qed.

Lemma strip_ends (s : string) : ends_with_space (strip s) = false.
Proof. apply rstrip_ends. Qed.

Lemma strip_fixed (s : string) :
  strip s = s <-> starts_with_space s = false /\ ends_with_space s = false.
Proof.
  unfold strip. split.
  - intros H. rewrite <- H. split; [apply strip_starts | apply strip_ends].
  - intros [Hs He]. apply lstrip_fixed in Hs. rewrite Hs.
    apply rstrip_fixed. exact He.
Qed.

Lemma strip_idem (s : string) : strip (strip s) = strip s.
Proof. apply strip_fixed. split; [apply strip_starts | apply strip_ends]. Qed.

(** ** Collapsing keeps clean ends *)

Lemma collapse_starts (s : string) (in_run : bool) :
  starts_with_space s = false ->
  starts_with_space (collapse_spaces in_run s) = false.
Proof.
  destruct s as [|c s]; [reflexivity|]. cbn [starts_with_space collapse_spaces].
  intros H. rewrite H. cbn [starts_with_space]. exact H.
Qed.

Lemma collapse_nonempty (s : string) (in_run : bool) :
  ends_with_space s = false -> s <> "" -> collapse_spaces in_run s <> "".
Proof.
  revert in_run. induction s as [|c s IH]; intros in_run He Hne; [contradiction|].
  cbn [collapse_spaces]. destruct (is_space c) eqn:Ec; [|discriminate].
  destruct in_run; [|discriminate].
  destruct s as [|c' s'].
  - unfold ends_with_space in He. cbn [last_of] in He. congruence.
  - apply IH; [|discriminate].
    rewrite ends_with_space_cons in He by discriminate. exact He.
Qed.

Lemma collapse_ends (s : string) :
  forall in_run,
    ends_with_space s = false ->
    ends_with_space (collapse_spaces in_run s) = false.
Proof.
  induction s as [|c s IH]; intros in_run He; [reflexivity|].
  destruct s as [|c' s'].
  - unfold ends_with_space in He. cbn [last_of] in He.
    cbn [collapse_spaces]. rewrite He. unfold ends_with_space.
    cbn [last_of]. exact He.
  - rewrite ends_with_space_cons in He by discriminate.
    assert (Hne : forall b, collapse_spaces b (String c' s') <> "")
      by (intros b; apply collapse_nonempty; [exact He | discriminate]).
    change (collapse_spaces in_run (String c (String c' s')))
      with (if is_space c
            then if in_run then collapse_spaces true (String c' s')
                 else String " " (collapse_spaces true (String c' s'))
            else String c (collapse_spaces false (String c' s'))).
    destruct (is_space c); [destruct in_run|].
    + apply IH, He.
    + rewrite ends_with_space_cons by apply Hne. apply IH, He.
    + rewrite ends_with_space_cons by apply Hne. apply IH, He.
Qed.

(** ** Characters *)

Lemma all_chars_app (p : ascii -> bool) (a b : string) :
  all_chars p (a +:+ b) = all_chars p a && all_chars p b.
Proof.
  induction a as [|c a IH]; [reflexivity|].
  change (String c a +:+ b) with (String c (a +:+ b)).
  cbn [all_chars]. rewrite IH, andb_assoc. reflexivity.
Qed.

Lemma all_chars_lstrip (p : ascii -> bool) (s : string) :
  all_chars p s = true -> all_chars p (lstrip s) = true.
Proof.
  induction s as [|c s IH]; [trivial|]. cbn [lstrip all_chars].
  intros H. apply andb_true_iff in H as [Hc Hs].
  destruct (is_space c); [apply IH, Hs|]. cbn [all_chars]. rewrite Hc, Hs.
  reflexivity.
Qed.

Lemma all_chars_rstrip (p : ascii -> bool) (s : string) :
  all_chars p s = true -> all_chars p (rstrip s) = true.
Proof.
  induction s as [|c s IH]; [trivial|]. cbn [rstrip all_chars].
  intros H. apply andb_true_iff in H as [Hc Hs]. specialize (IH Hs).
  destruct (rstrip s) as [|d r].
  - destruct (is_space c); cbn [all_chars]; [|rewrite Hc]; reflexivity.
  - cbn [all_chars] in *. rewrite Hc, IH. reflexivity.
Qed.

Lemma all_chars_strip (p : ascii -> bool) (s : string) :
  all_chars p s = true -> all_chars p (strip s) = true.
Proof. intros H. apply all_chars_rstrip, all_chars_lstrip, H. Qed.

Lemma all_chars_smap (p : ascii -> bool) (f : ascii -> ascii) (s : string) :
  (forall c, p (f c) = true) -> all_chars p (smap f s) = true.
Proof.
  intros H. induction s as [|c s IH]; [reflexivity|].
  cbn [smap all_chars]. rewrite H, IH. reflexivity.
Qed.

Lemma smap_fixed (p : ascii -> bool) (f : ascii -> ascii) (s : string) :
  (forall c, p c = true -> f c = c) -> all_chars p s = true -> smap f s = s.
Proof.
  intros H. induction s as [|c s IH]; [reflexivity|]. cbn [smap all_chars].
  intros Hs. apply andb_true_iff in Hs as [Hc Hs].
  rewrite (H c Hc), (IH Hs). reflexivity.
Qed.

Lemma smap_length (f : ascii -> ascii) (s : string) :
  String.length (smap f s) = String.length s.
Proof.
  induction s as [|c s IH]; [reflexivity|]. cbn [smap String.length].
  rewrite IH. reflexivity.
Qed.

Lemma smap_smap (f g : ascii -> ascii) (s : string) :
  smap f (smap g s) = smap (fun c => f (g c)) s.
Proof.
  induction s as [|c s IH]; [reflexivity|]. cbn [smap]. rewrite IH. reflexivity.
Qed.

Lemma replace_chars_one (p : ascii -> bool) (r : ascii) (s : string) :
  replace_chars p (String r EmptyString) s = smap (fun c => if p c then r else c) s.
Proof.
  induction s as [|c s IH]; [reflexivity|]. cbn [replace_chars smap].
  rewrite IH. destruct (p c); reflexivity.
Qed.

Lemma all_chars_delete (p q : ascii -> bool) (s : string) :
  (forall c, p c = false -> q c = true) ->
  all_chars q (replace_chars p "" s) = true.
Proof.
  intros H. induction s as [|c s IH]; [reflexivity|]. cbn [replace_chars].
  destruct (p c) eqn:E; [exact IH|]. cbn [all_chars].
  rewrite (H c E), IH. reflexivity.
Qed.

Lemma all_chars_delete_keep (p q : ascii -> bool) (s : string) :
  all_chars q s = true -> all_chars q (replace_chars p "" s) = true.
Proof.
  induction s as [|c s IH]; [trivial|]. cbn [replace_chars all_chars].
  intros H. apply andb_true_iff in H as [Hc Hs].
  destruct (p c); [apply IH, Hs|]. cbn [all_chars]. rewrite Hc, (IH Hs).
  reflexivity.
Qed.

Lemma all_chars_and (p q : ascii -> bool) (s : string) :
  all_chars p s = true -> all_chars q s = true ->
  all_chars (fun c => p c && q c) s = true.
Proof.
  induction s as [|c s IH]; [trivial|]. cbn [all_chars].
  intros Hp Hq. apply andb_true_iff in Hp as [Hp1 Hp2].
  apply andb_true_iff in Hq as [Hq1 Hq2].
  rewrite Hp1, Hq1, (IH Hp2 Hq2). reflexivity.
Qed.

Lemma all_chars_impl (p q : ascii -> bool) (s : string) :
  (forall c, p c = true -> q c = true) ->
  all_chars p s = true -> all_chars q s = true.
Proof.
  intros H. induction s as [|c s IH]; [trivial|]. cbn [all_chars].
  intros Hs. apply andb_true_iff in Hs as [Hc Hs].
  rewrite (H c Hc), (IH Hs). reflexivity.
Qed.

Lemma collapse_only_spaces (s : string) :
  forall in_run,
    all_chars (fun c => negb (is_space c) || Ascii.eqb c " ")
              (collapse_spaces in_run s) = true.
Proof.
  induction s as [|c s IH]; intros in_run; [reflexivity|].
  cbn [collapse_spaces]. destruct (is_space c) eqn:E.
  - destruct in_run; [apply IH|]. cbn [all_chars]. rewrite IH. reflexivity.
  - cbn [all_chars]. rewrite E, IH. reflexivity.
Qed.

End TextFacts.

(* ===================================================================== *)
(** * The field rules of the normalizer *)
(* ===================================================================== *)

Module NormalizerFields.
Import PyText Re TextSpec TextFacts Normalizer Examples.

Lemma truthy_str (s : string) : s <> "" -> truthy (PStr s) = true.
Proof.
  intros H. cbn [truthy]. destruct (String.eqb_spec s ""); [contradiction|].
  reflexivity.
Qed.

Lemma id_char_after (c : ascii) :
  id_char (to_lower (if negb (is_lower c || is_upper c || is_digit c || one_of "_-" c)
                     then "_"%char else c)) = true.
Proof. destruct c as [[] [] [] [] [] [] [] []]; vm_compute; reflexivity. Qed.

Lemma id_char_fixed (c : ascii) :
  id_char c = true ->
  to_lower (if negb (is_lower c || is_upper c || is_digit c || one_of "_-" c)
            then "_"%char else c) = c.
Proof.
  destruct c as [[] [] [] [] [] [] [] []]; vm_compute; intros H;
    first [reflexivity | discriminate].
Qed.

Lemma job_id_value (py : runtime) (s : string) (t : nat) :
  s <> "" ->
  _normalize_job_id py (PStr s) t
  = (Ok (smap (fun c =>
                 to_lower (if negb (is_lower c || is_upper c || is_digit c
                                    || one_of "_-" c)
                           then "_"%char else c)) s), t).
Proof.
  intros H. unfold _normalize_job_id. rewrite (truthy_str s H). cbn [negb].
  unfold re_job_id_special. rewrite sub_set, replace_chars_one.
  unfold lower. rewrite smap_smap. reflexivity.
Qed.

(** X1.  A non-empty identifier keeps its length and comes out in the
    alphabet [a-z0-9_-]; no clock reading is made. *)
Theorem job_id_alphabet (py : runtime) (s : string) (t : nat) :
  s <> "" ->
  exists r,
    _normalize_job_id py (PStr s) t = (Ok r, t) /\
    String.length r = String.length s /\
    all_chars id_char r = true.
Proof.
  intros H. rewrite (job_id_value py s t H). eexists. split; [reflexivity|].
  split; [apply smap_length | apply all_chars_smap, id_char_after].
Qed.

Lemma job_id_alphabet_witness :
  "IG 1001/A" <> "" /\
  exists r,
    _normalize_job_id sample_datetime (PStr "IG 1001/A") 0 = (Ok r, 0) /\
    String.length r = 9 /\ all_chars id_char r = true.
Proof.
  assert (H : "IG 1001/A" <> "") by discriminate.
  split; [exact H|].
  exact (job_id_alphabet sample_datetime "IG 1001/A" 0 H).
Defined.

(** X2.  An identifier that is already in that alphabet is returned as it is,
    so normalizing twice is normalizing once. *)
Theorem job_id_idempotent (py : runtime) (s : string) (t : nat) :
  s <> "" ->
  exists r,
    _normalize_job_id py (PStr s) t = (Ok r, t) /\
    _normalize_job_id py (PStr r) t = (Ok r, t) /\
    (all_chars id_char s = true -> r = s).
Proof.
  intros H. rewrite (job_id_value py s t H). eexists. split; [reflexivity|].
  split.
  - assert (Hne : smap (fun c =>
                 to_lower (if negb (is_lower c || is_upper c || is_digit c
                                    || one_of "_-" c)
                           then "_"%char else c)) s <> "").
    { destruct s; [contradiction | discriminate]. }
    rewrite (job_id_value py _ t Hne). f_equal. f_equal.
    apply (smap_fixed id_char); [apply id_char_fixed|].
    apply all_chars_smap, id_char_after.
  - intros Hs. apply (smap_fixed id_char); [apply id_char_fixed | exact Hs].
Qed.

Lemma job_id_idempotent_witness :
  "Req#7 (TS)" <> "" /\
  exists r,
    _normalize_job_id sample_datetime (PStr "Req#7 (TS)") 0 = (Ok r, 0) /\
    _normalize_job_id sample_datetime (PStr r) 0 = (Ok r, 0).
Proof.
  assert (H : "Req#7 (TS)" <> "") by discriminate.
  split; [exact H|].
  destruct (job_id_idempotent sample_datetime "Req#7 (TS)" 0 H)
    as (r & H1 & H2 & _).
  exists r. split; assumption.
Defined.

Lemma title_value (s : string) (t : nat) :
  _normalize_title (PStr s) t
  = (Ok (if String.eqb s "" then "" else collapse_spaces false (strip s)), t).
Proof.
  unfold _normalize_title. cbn [truthy]. destruct (String.eqb s "");
    cbn [negb]; [reflexivity|].
  unfold re_spaces. rewrite sub_spaces. reflexivity.
Qed.

Lemma collapse_strip_normal (s : string) :
  strip (collapse_spaces false (strip s)) = collapse_spaces false (strip s) /\
  single_spaced false (collapse_spaces false (strip s)) = true.
Proof.
  split.
  - apply strip_fixed. split.
    + apply collapse_starts, strip_starts.
    + apply collapse_ends, strip_ends.
  - apply collapse_single_spaced. discriminate.
Qed.

(** X3.  A title comes out without leading or trailing whitespace and with
    single spaces as its only whitespace, and such a title is a fixed
    point. *)
Theorem title_whitespace_normal (s : string) (t : nat) :
  exists y,
    _normalize_title (PStr s) t = (Ok y, t) /\
    strip y = y /\
    single_spaced false y = true /\
    _normalize_title (PStr y) t = (Ok y, t).
Proof.
  rewrite title_value. eexists. split; [reflexivity|].
  destruct (String.eqb s "") eqn:E.
  - repeat split; reflexivity.
  - destruct (collapse_strip_normal s) as [Hstrip Hsingle].
    split; [exact Hstrip|]. split; [exact Hsingle|].
    rewrite title_value.
    destruct (String.eqb_spec (collapse_spaces false (strip s)) "") as [->|];
      [reflexivity|].
    rewrite Hstrip, (collapse_fixed _ false Hsingle). reflexivity.
Qed.

Lemma company_value (s : string) (t : nat) :
  _normalize_company (PStr s) t
  = (Ok (if String.eqb s "" then ""
         else assoc_get company_mappings (lower (strip s)) (strip s)), t).
Proof.
  unfold _normalize_company. cbn [truthy]. destruct (String.eqb s "");
    reflexivity.
Qed.

Lemma assoc_get_cases (d : list (string * string)) (key default : string) :
  (assoc_get d key default = default /\
   forall k v, In (k, v) d -> k <> key) \/
  (exists v, In (key, v) d /\ assoc_get d key default = v).
Proof.
  induction d as [|[k v] d IH]; cbn [assoc_get].
  - left. split; [reflexivity|]. intros k v [].
  - destruct (String.eqb_spec k key) as [->|Hne].
    + right. exists v. split; [left|]; reflexivity.
    + destruct IH as [[E Hmiss] | (v' & Hin & E)].
      * left. split; [exact E|]. intros k' v' [H|H].
        -- inversion H; subst. exact Hne.
        -- apply (Hmiss k' v' H).
      * right. exists v'. split; [right; exact Hin | exact E].
Qed.

Lemma strip_display_name (y : string) :
  In y (map snd company_mappings) -> strip y = y.
Proof.
  cbn. intros H. repeat destruct H as [<-|H]; try contradiction; reflexivity.
Qed.

Lemma company_choice_trimmed (s : string) :
  strip (assoc_get company_mappings (lower (strip s)) (strip s))
  = assoc_get company_mappings (lower (strip s)) (strip s).
Proof.
  destruct (assoc_get_cases company_mappings (lower (strip s)) (strip s))
    as [[E _] | (v & Hin & E)]; rewrite E.
  - apply strip_idem.
  - apply strip_display_name, in_map_iff. exists (lower (strip s), v).
    split; [reflexivity | exact Hin].
Qed.

(** X4.  A company name is trimmed and, when it is one of the four aliases in
    any letter case, replaced by its display name; the result is never
    changed by normalizing it again. *)
Theorem company_idempotent (s : string) (t : nat) :
  exists y,
    _normalize_company (PStr s) t = (Ok y, t) /\
    _normalize_company (PStr y) t = (Ok y, t) /\
    (y = strip s \/ In y (map snd company_mappings)) /\
    (forall key name, In (key, name) company_mappings ->
                      lower (strip s) = key -> y = name).
Proof.
  rewrite company_value. eexists. split; [reflexivity|].
  destruct (String.eqb_spec s "") as [->|Hne].
  - split; [reflexivity|]. split; [left; reflexivity|].
    intros key name Hin Hkey. exfalso. subst key. cbn in Hin.
    repeat destruct Hin as [Hin|Hin]; try contradiction;
      vm_compute in Hin; discriminate.
  - split; [|split].
    + destruct (assoc_get_cases company_mappings (lower (strip s)) (strip s))
        as [[E Hmiss] | (v & Hin & E)]; rewrite E.
      * rewrite company_value.
        destruct (String.eqb_spec (strip s) "") as [E0|N0];
          [rewrite E0; reflexivity|].
        rewrite strip_idem, E. reflexivity.
      * cbn in Hin.
        repeat destruct Hin as [Hin|Hin]; try contradiction;
          inversion Hin; subst v; vm_compute; reflexivity.
    + destruct (assoc_get_cases company_mappings (lower (strip s)) (strip s))
        as [[E Hmiss] | (v & Hin & E)]; rewrite E.
      * left. reflexivity.
      * right. apply in_map_iff. exists (lower (strip s), v).
        split; [reflexivity | exact Hin].
    + intros key name Hin Hkey. rewrite Hkey.
      cbn in Hin.
      repeat destruct Hin as [Hin|Hin]; try contradiction;
        inversion Hin; subst; reflexivity.
Qed.

Lemma safe_char_kept (c : ascii) :
  negb (is_word c || is_space c || one_of "-.,!?()" c) = false ->
  (negb (is_space c) || Ascii.eqb c " ") = true ->
  safe_char c = true.
Proof.
  destruct c as [[] [] [] [] [] [] [] []]; vm_compute; intros H1 H2;
    first [reflexivity | discriminate].
Qed.

Lemma safe_char_ascii (c : ascii) : safe_char c = true -> is_ascii c = true.
Proof.
  destruct c as [[] [] [] [] [] [] [] []]; vm_compute; intros H;
    first [reflexivity | discriminate].
Qed.

Lemma safe_char_no_angle (c : ascii) :
  safe_char c = true -> negb (one_of "<>" c) = true.
Proof.
  destruct c as [[] [] [] [] [] [] [] []]; vm_compute; intros H;
    first [reflexivity | discriminate].
Qed.

Lemma description_value (s : string) (t : nat) :
  _clean_description (PStr s) t
  = (Ok (if String.eqb s "" then ""
         else strip (replace_chars
                       (fun c => negb (is_word c || is_space c
                                       || one_of "-.,!?()" c)) ""
                       (collapse_spaces false (sub re_html_tag "" s)))), t).
Proof.
  unfold _clean_description. cbn [truthy]. destruct (String.eqb s "");
    cbn [negb]; [reflexivity|].
  unfold re_spaces, re_unsafe_char. rewrite sub_spaces, sub_set. reflexivity.
Qed.

Lemma cleaned_text_safe (x : string) :
  all_chars safe_char
    (strip (replace_chars
              (fun c => negb (is_word c || is_space c || one_of "-.,!?()" c)) ""
              (collapse_spaces false x))) = true.
Proof.
  set (p := fun c => negb (is_word c || is_space c || one_of "-.,!?()" c)).
  apply all_chars_strip.
  apply (all_chars_impl
           (fun c => (fun c => negb (p c)) c
                     && (fun c => negb (is_space c) || Ascii.eqb c " ") c)).
  - intros c H. apply andb_true_iff in H as [H1 H2].
    apply safe_char_kept; [|exact H2].
    apply negb_true_iff in H1. exact H1.
  - apply all_chars_and.
    + apply all_chars_delete. intros c H. rewrite H. reflexivity.
    + apply all_chars_delete_keep. apply collapse_only_spaces.
Qed.

(** X5.  For ASCII text, a cleaned description consists of word
    characters, single space characters and the punctuation
    [- . , ! ? ( )] only (so it has no angle bracket, whatever the markup
    was), and neither begins nor ends with whitespace. *)
Theorem description_alphabet (s : string) (t : nat) :
  all_chars is_ascii s = true ->
  exists y,
    _clean_description (PStr s) t = (Ok y, t) /\
    all_chars is_ascii y = true /\
    all_chars safe_char y = true /\
    all_chars (fun c => negb (one_of "<>" c)) y = true /\
    strip y = y.
Proof.
  intros Hascii. rewrite description_value. eexists. split; [reflexivity|].
  destruct (String.eqb s ""); [repeat split; reflexivity|].
  pose proof (cleaned_text_safe (sub re_html_tag "" s)) as Hsafe.
  split; [|split; [exact Hsafe | split; [|apply strip_idem]]].
  - apply (all_chars_impl safe_char); [apply safe_char_ascii | exact Hsafe].
  - apply (all_chars_impl safe_char); [apply safe_char_no_angle | exact Hsafe].
Qed.

Lemma description_alphabet_witness :
  exists y,
    _clean_description (PStr "<p>Active  <b>Secret</b> clearance; C++ & SQL.</p>") 0
    = (Ok y, 0) /\
    all_chars safe_char y = true /\ strip y = y.
Proof.
  destruct (description_alphabet
              "<p>Active  <b>Secret</b> clearance; C++ & SQL.</p>" 0)
    as (y & E & _ & Hsafe & _ & Hstrip); [vm_compute; reflexivity|].
  exists y. split; [exact E|]. split; assumption.
Defined.

End NormalizerFields.

(* ===================================================================== *)
(** * Clearance extraction: what a level means, what a keyword gives *)
(* ===================================================================== *)

Module ClearanceFacts.
Import PyText Re TextSpec TextFacts Normalizer NormalizerMain Examples.

(** ** Upper-cased text has no lower-case letter *)

Lemma upper_chars (s : string) :
  all_chars (fun c => negb (is_lower c)) (upper s) = true.
Proof.
  apply all_chars_smap. intros c.
  rewrite NormalizerFacts.to_upper_not_lower. reflexivity.
Qed.

Lemma startswith_chars (p : ascii -> bool) (w : string) :
  forall v, startswith w v = true -> all_chars p v = true -> all_chars p w = true.
Proof.
  induction w as [|c w IH]; intros v H Hv; [reflexivity|].
  destruct v as [|a v]; [discriminate|]. cbn [startswith all_chars] in *.
  apply andb_true_iff in H as [Hc Hw]. apply andb_true_iff in Hv as [Ha Hv].
  apply Ascii.eqb_eq in Hc. subst a. rewrite Ha, (IH v Hw Hv). reflexivity.
Qed.

Lemma upper_no_lower_prefix (s pre v w : string) :
  upper s = pre +:+ v ->
  all_chars (fun c => negb (is_lower c)) w = false ->
  startswith w v = false.
Proof.
  intros Hu Hw. destruct (startswith w v) eqn:E; [|reflexivity].
  pose proof (upper_chars s) as Hall. rewrite Hu, all_chars_app in Hall.
  apply andb_true_iff in Hall as [_ Hv].
  rewrite (startswith_chars _ w v E Hv) in Hw. discriminate.
Qed.

(** ** What a match of one of the four patterns shows *)

Lemma alts_match (rs : list regex) :
  forall prev v k x,
    rmatch (alts rs) prev v k = Some x ->
    exists r, In r rs /\ rmatch r prev v k <> None.
Proof.
  induction rs as [|r rs IH]; intros prev v k x H.
  - cbn in H. destruct v; discriminate.
  - destruct rs as [|r' rs'].
    + cbn [alts] in H. exists r. split; [left; reflexivity|]. congruence.
    + change (alts (r :: r' :: rs')) with (RAlt r (alts (r' :: rs'))) in H.
      cbn [rmatch] in H. destruct (rmatch r prev v k) eqn:E.
      * exists r. split; [left; reflexivity|]. congruence.
      * apply IH in H as (r0 & Hin & Hm). exists r0.
        split; [right; exact Hin | exact Hm].
Qed.

Lemma pattern_match_alternative (rs : list regex) (u : string) :
  matches (cats [RBnd; alts rs; RBnd]) u = true ->
  exists pre v r k,
    u = pre +:+ v /\ In r rs /\ rmatch r (last_of None pre) v k <> None.
Proof.
  unfold matches, search.
  assert (G : forall u prev,
             search_from (cats [RBnd; alts rs; RBnd]) prev u <> None ->
             exists pre v r k,
               u = pre +:+ v /\ In r rs /\ rmatch r (last_of prev pre) v k <> None).
  { clear u. induction u as [|c u IH]; intros prev; cbn [search_from].
    - destruct (match_here _ prev "") as [[p rest]|] eqn:E; [|congruence].
      intros _. unfold match_here in E. cbn [cats rmatch] in E.
      destruct (xorb (word_opt prev) (word_opt (peek ""))); [|discriminate].
      apply alts_match in E as (r & Hin & Hm).
      exists "", "", r. eexists. split; [reflexivity|]. split; [exact Hin|].
      exact Hm.
    - destruct (match_here _ prev (String c u)) as [[p rest]|] eqn:E.
      + intros _. unfold match_here in E. cbn [cats rmatch] in E.
        destruct (xorb (word_opt prev) (word_opt (peek (String c u))));
          [|discriminate].
        apply alts_match in E as (r & Hin & Hm).
        exists "", (String c u), r. eexists.
        split; [reflexivity|]. split; [exact Hin | exact Hm].
      + intros H. apply IH in H as (pre & v & r & k & -> & Hin & Hm).
        exists (String c pre), v, r, k. split; [reflexivity|].
        split; [exact Hin | exact Hm]. }
  intros H. apply (G u None).
  destruct (search_from _ None u); [discriminate | discriminate].
Qed.

Lemma first_startswith (w : string) (rs : list regex) :
  w <> "" ->
  forall prev v k,
    rmatch (cats (lit w :: rs)) prev v k <> None -> startswith w v = true.
Proof.
  intros Hw prev v k H. destruct rs as [|r rs].
  - cbn [cats] in H. destruct (rmatch (lit w) prev v k) eqn:E; [|congruence].
    apply (NormalizerFacts.rmatch_lit_startswith w Hw _ _ _ _ E).
  - change (cats (lit w :: r :: rs)) with (RCat (lit w) (cats (r :: rs))) in H.
    cbn [rmatch] in H.
    destruct (rmatch (lit w) prev v _) eqn:E; [|congruence].
    apply (NormalizerFacts.rmatch_lit_startswith w Hw _ _ _ _ E).
Qed.

(** Every alternative of the four patterns begins with a literal; only the
    upper-case ones can begin a piece of an upper-cased text. *)
Lemma pattern_keyword (s : string) (level kw : string) (pattern : regex) :
  In (level, kw, pattern)
     (map (fun '(l, k, (_, p)) => (l, k, p))
          (combine level_keywords clearance_patterns)) ->
  matches pattern (upper s) = true ->
  str_in kw (upper s) = true.
Proof.
  intros Hin Hm. unfold level_keywords, clearance_patterns in Hin.
  cbn [combine map In] in Hin.
  destruct Hin as [Hin | [Hin | [Hin | [Hin | []]]]];
    apply pair_equal_spec in Hin as [Hin <-];
    apply pair_equal_spec in Hin as [<- <-];
    apply pattern_match_alternative in Hm
      as (pre & v & r & k & Hu & Hr & Hmatch);
    rewrite Hu; apply NormalizerFacts.str_in_suffix;
    cbn [In] in Hr.
  - destruct Hr as [<- | [<- | [<- | []]]].
    + apply (first_startswith "TS/SCI" [] ltac:(discriminate) _ _ _ Hmatch).
    + apply (first_startswith "Top" _ ltac:(discriminate)) in Hmatch.
      rewrite (upper_no_lower_prefix s pre v "Top" Hu eq_refl) in Hmatch.
      discriminate.
    + apply (first_startswith "Top" _ ltac:(discriminate)) in Hmatch.
      rewrite (upper_no_lower_prefix s pre v "Top" Hu eq_refl) in Hmatch.
      discriminate.
  - destruct Hr as [<- | [<- | []]].
    + apply (first_startswith "TS" [] ltac:(discriminate) _ _ _ Hmatch).
    + apply (first_startswith "Top" _ ltac:(discriminate)) in Hmatch.
      rewrite (upper_no_lower_prefix s pre v "Top" Hu eq_refl) in Hmatch.
      discriminate.
  - destruct Hr as [<- | [<- | []]].
    + apply (first_startswith "Secret" [] ltac:(discriminate)) in Hmatch.
      rewrite (upper_no_lower_prefix s pre v "Secret" Hu eq_refl) in Hmatch.
      discriminate.
    + apply (first_startswith "SECRET" [] ltac:(discriminate) _ _ _ Hmatch).
  - destruct Hr as [<- | [<- | []]].
    + apply (first_startswith "Confidential" [] ltac:(discriminate)) in Hmatch.
      rewrite (upper_no_lower_prefix s pre v "Confidential" Hu eq_refl) in Hmatch.
      discriminate.
    + apply (first_startswith "CONFIDENTIAL" [] ltac:(discriminate) _ _ _ Hmatch).
Qed.

Lemma first_clearance_in (patterns : list (string * regex)) (text level : string) :
  first_clearance patterns text = Some level ->
  exists pattern, In (level, pattern) patterns /\ matches pattern text = true.
Proof.
  induction patterns as [|[l p] rest IH]; cbn [first_clearance]; [discriminate|].
  destruct (matches p text) eqn:E.
  - intros H. inversion H; subst. exists p. split; [left; reflexivity | exact E].
  - intros H. apply IH in H as (p' & Hin & Hm). exists p'.
    split; [right; exact Hin | exact Hm].
Qed.

Lemma extract_clearance_value (text : string) (t : nat) :
  _extract_clearance (PStr text) t
  = (Ok (if String.eqb text "" then None
         else first_clearance clearance_patterns (upper text)), t).
Proof.
  unfold _extract_clearance. cbn [truthy].
  destruct (String.eqb text ""); reflexivity.
Qed.

Lemma first_clearance_keyword (text level : string) :
  first_clearance clearance_patterns (upper text) = Some level ->
  exists kw, In (level, kw) level_keywords /\ str_in kw (upper text) = true.
Proof.
  intros Hfirst.
  apply first_clearance_in in Hfirst as (pattern & Hin & Hm).
  unfold clearance_patterns in Hin. cbn [In] in Hin.
  destruct Hin as [Hin | [Hin | [Hin | [Hin | []]]]];
    apply pair_equal_spec in Hin as [<- <-].
  - exists "TS/SCI". split; [cbn; auto|].
    refine (pattern_keyword text "TS/SCI" "TS/SCI" _ _ Hm).
    unfold level_keywords, clearance_patterns. cbn [combine map In]. auto.
  - exists "TS". split; [cbn; auto|].
    refine (pattern_keyword text "TS" "TS" _ _ Hm).
    unfold level_keywords, clearance_patterns. cbn [combine map In]. auto.
  - exists "SECRET". split; [cbn; auto|].
    refine (pattern_keyword text "Secret" "SECRET" _ _ Hm).
    unfold level_keywords, clearance_patterns. cbn [combine map In]. auto.
  - exists "CONFIDENTIAL". split; [cbn; auto 6|].
    refine (pattern_keyword text "Confidential" "CONFIDENTIAL" _ _ Hm).
    unfold level_keywords, clearance_patterns. cbn [combine map In]. auto 6.
Qed.

(** X6.  A level is reported only for a text in which, letter case aside, its
    keyword occurs: TS/SCI, TS, SECRET or CONFIDENTIAL. *)
Theorem clearance_level_has_keyword (text level : string) (t : nat) :
  _extract_clearance (PStr text) t = (Ok (Some level), t) ->
  exists kw, In (level, kw) level_keywords /\ str_in kw (upper text) = true.
Proof.
  rewrite extract_clearance_value. destruct (String.eqb text ""); [discriminate|].
  intros H. apply first_clearance_keyword. congruence.
Qed.

Lemma clearance_level_has_keyword_witness :
  _extract_clearance (PStr "Must hold an active secret clearance") 0
  = (Ok (Some "Secret"), 0) /\
  exists kw, In ("Secret", kw) level_keywords /\
             str_in kw (upper "Must hold an active secret clearance") = true.
Proof.
  assert (H : _extract_clearance (PStr "Must hold an active secret clearance") 0
              = (Ok (Some "Secret"), 0)) by (vm_compute; reflexivity).
  split; [exact H|].
  exact (clearance_level_has_keyword _ _ _ H).
Defined.

(** ** A keyword standing as a word is always found *)

Lemma rmatch_lit_complete (w : string) :
  w <> "" ->
  forall prev rest k, rmatch (lit w) prev (w +:+ rest) k = k (last_of prev w) rest.
Proof.
  induction w as [|c w IH]; intros Hne prev rest k; [contradiction|].
  destruct w as [|c' w'].
  - change (String c "" +:+ rest) with (String c rest).
    cbn [lit rmatch last_of]. rewrite Ascii.eqb_refl. reflexivity.
  - change (lit (String c (String c' w')))
      with (RCat (RChr c) (lit (String c' w'))).
    change (String c (String c' w') +:+ rest)
      with (String c (String c' w' +:+ rest)).
    cbn [rmatch]. rewrite Ascii.eqb_refl.
    rewrite IH by discriminate. reflexivity.
Qed.

Lemma alts_found (rs : list regex) (r : regex) :
  In r rs ->
  forall prev v k, rmatch r prev v k <> None -> rmatch (alts rs) prev v k <> None.
Proof.
  induction rs as [|r0 rs IH]; intros Hin prev v k H; [contradiction|].
  destruct rs as [|r1 rs'].
  - destruct Hin as [->|[]]. exact H.
  - change (alts (r0 :: r1 :: rs')) with (RAlt r0 (alts (r1 :: rs'))).
    cbn [rmatch]. destruct (rmatch r0 prev v k) eqn:E; [discriminate|].
    destruct Hin as [->|Hin]; [congruence|]. apply (IH Hin). exact H.
Qed.

Lemma search_from_finds (r : regex) (pre v : string) :
  forall prev,
    match_here r (last_of prev pre) v <> None ->
    search_from r prev (pre +:+ v) <> None.
Proof.
  induction pre as [|c pre IH]; intros prev H.
  - change ("" +:+ v) with v. cbn [last_of] in H.
    destruct v as [|a v]; cbn [search_from];
      destruct (match_here r prev _) as [[p rest]|]; congruence.
  - change (String c pre +:+ v) with (String c (pre +:+ v)).
    cbn [search_from].
    destruct (match_here r prev (String c (pre +:+ v))) as [[p rest]|];
      [discriminate|].
    apply IH. exact H.
Qed.

Lemma append_empty (a b : string) : a +:+ b = "" -> a = "" /\ b = "".
Proof.
  destruct a as [|c a].
  - change ("" +:+ b) with b. intros ->. split; reflexivity.
  - change (String c a +:+ b) with (String c (a +:+ b)). discriminate.
Qed.

Lemma peek_app (w rest : string) : w <> "" -> peek (w +:+ rest) = peek w.
Proof. destruct w; [contradiction | reflexivity]. Qed.

Lemma bounded_keyword_matches (rs : list regex) (w pre post : string) :
  In (lit w) rs -> w <> "" ->
  word_opt (peek w) = true ->
  word_opt (last_of None w) = true ->
  word_opt (last_of None pre) = false ->
  word_opt (peek post) = false ->
  matches (cats [RBnd; alts rs; RBnd]) (pre +:+ w +:+ post) = true.
Proof.
  intros Hin Hne Hfirst Hlast Hpre Hpost. unfold matches, search.
  destruct (search_from _ None (pre +:+ w +:+ post)) eqn:E; [reflexivity|].
  exfalso. revert E. apply search_from_finds.
  unfold match_here. cbn [cats rmatch].
  rewrite (peek_app w post Hne), Hpre, Hfirst. cbn [xorb].
  apply (alts_found rs (lit w) Hin).
  rewrite rmatch_lit_complete by exact Hne. cbn [rmatch].
  rewrite (TextFacts.last_of_nonempty w Hne _ None), Hlast, Hpost.
  cbn [xorb]. discriminate.
Qed.

Lemma first_clearance_found (patterns : list (string * regex)) (text : string)
  (entry : string * regex) :
  In entry patterns -> matches (snd entry) text = true ->
  exists level', first_clearance patterns text = Some level'.
Proof.
  induction patterns as [|[l p] rest IH]; intros Hin Hm; [contradiction|].
  cbn [first_clearance]. destruct (matches p text) eqn:E.
  - exists l. reflexivity.
  - destruct Hin as [<-|Hin]; [|apply (IH Hin Hm)].
    cbn [snd] in Hm. congruence.
Qed.

Lemma keyword_pattern_matches (i : nat) (kw pre post : string) :
  nth_error (map snd level_keywords) i = Some kw ->
  word_opt (last_of None pre) = false ->
  word_opt (peek post) = false ->
  matches (snd (nth i clearance_patterns ("", RBnd))) (pre +:+ kw +:+ post) = true.
Proof.
  intros Hi Hpre Hpost.
  destruct i as [|[|[|[|i]]]]; cbn in Hi; try (destruct i; discriminate);
    apply Some_inj in Hi; subst kw;
    unfold clearance_patterns; cbn [nth snd];
    apply bounded_keyword_matches;
    first [ exact Hpre | exact Hpost | discriminate | reflexivity
          | left; reflexivity | right; left; reflexivity ].
Qed.

(** X7.  An ASCII text in which TS/SCI, TS, SECRET or CONFIDENTIAL stands as
    a word of its own, in any letter case, always gets a level; with
    TS/SCI the level is TS/SCI. *)
Theorem clearance_keyword_found (text kw : string) (t : nat) :
  all_chars is_ascii text = true ->
  In kw (map snd level_keywords) ->
  whole_word kw (upper text) ->
  exists level,
    _extract_clearance (PStr text) t = (Ok (Some level), t) /\
    (kw = "TS/SCI" -> level = "TS/SCI").
Proof.
  intros _ Hkw (pre & post & Hu & Hpre & Hpost).
  rewrite extract_clearance_value.
  destruct (String.eqb_spec text "") as [->|Hne].
  { exfalso. change (upper "") with "" in Hu. symmetry in Hu.
    apply append_empty in Hu as [_ Hu]. apply append_empty in Hu as [Hu _].
    subst kw. cbn in Hkw.
    destruct Hkw as [H | [H | [H | [H | []]]]]; discriminate. }
  rewrite Hu.
  apply In_nth_error in Hkw as [i Hi].
  pose proof (keyword_pattern_matches i kw pre post Hi Hpre Hpost) as Hm.
  assert (Hlen : i < length clearance_patterns).
  { assert (H : i < length (map snd level_keywords))
      by (apply nth_error_Some; rewrite Hi; discriminate).
    exact H. }
  destruct (first_clearance_found clearance_patterns (pre +:+ kw +:+ post)
              (nth i clearance_patterns ("", RBnd)))
    as [level E]; [apply nth_In; exact Hlen | exact Hm |].
  exists level. split; [rewrite E; reflexivity|].
  intros ->. destruct i as [|[|[|[|i]]]]; cbn in Hi;
    try discriminate; try (destruct i; discriminate).
  unfold clearance_patterns in E, Hm. cbn [nth snd first_clearance] in E, Hm.
  rewrite Hm in E. congruence.
Qed.

Lemma clearance_keyword_found_witness :
  all_chars is_ascii "Active ts/sci, polygraph" = true /\
  In "TS/SCI" (map snd level_keywords) /\
  whole_word "TS/SCI" (upper "Active ts/sci, polygraph") /\
  _extract_clearance (PStr "Active ts/sci, polygraph") 0
  = (Ok (Some "TS/SCI"), 0).
Proof.
  assert (Hkw : In "TS/SCI" (map snd level_keywords)) by (left; reflexivity).
  assert (Hw : whole_word "TS/SCI" (upper "Active ts/sci, polygraph")).
  { exists "ACTIVE ", ", POLYGRAPH". repeat split; reflexivity. }
  split; [reflexivity|]. split; [exact Hkw|]. split; [exact Hw|].
  destruct (clearance_keyword_found "Active ts/sci, polygraph" "TS/SCI" 0
              eq_refl Hkw Hw)
    as (level & E & Hl).
  rewrite E, (Hl eq_refl). reflexivity.
Defined.

End ClearanceFacts.

(* ===================================================================== *)
(** * Whole records: dates, dropped records, invariants, [main] *)
(* ===================================================================== *)

Module NormalizerJobFacts.
Import PyText Re TextSpec TextFacts Normalizer NormalizerMain Examples.
Import NormalizerFacts NormalizerFields ClearanceFacts.

(** ** Dates *)

Lemma try_formats_value (py : runtime) (formats : list string) (s : string)
  (t : nat) :
  try_formats py formats s t
  = match first_parsed py formats s with
    | Some d => (Ok (isoformat py d), t)
    | None => (Ok (isoformat py (clock py t)), S t)
    end.
Proof.
  induction formats as [|fmt rest IH]; cbn [try_formats first_parsed].
  - reflexivity.
  - destruct (strptime py s fmt); [reflexivity | exact IH].
Qed.

(** X8.  [_normalize_date] never raises.  A non-empty string gives the date
    read by the first format, in list order, that parses it, without
    reading the clock; everything else (an empty or missing value, a
    string that no format parses, a value that is not a string) gives the
    current time. *)
Theorem date_total (py : runtime) (v : pyval) (t : nat) :
  _normalize_date py v t
  = match v with
    | PStr s =>
        match (if String.eqb s "" then None
               else first_parsed py date_formats s) with
        | Some d => (Ok (isoformat py d), t)
        | None => (Ok (isoformat py (clock py t)), S t)
        end
    | _ => (Ok (isoformat py (clock py t)), S t)
    end.
Proof.
  unfold _normalize_date.
  destruct v as [|b|n|s|l|l]; cbn [truthy].
  - reflexivity.
  - destruct b; reflexivity.
  - destruct (n =? 0)%Z; reflexivity.
  - destruct (String.eqb s ""); cbn [negb]; [reflexivity|].
    unfold try_exceptM. rewrite try_formats_value.
    destruct (first_parsed py date_formats s); reflexivity.
  - destruct l; reflexivity.
  - destruct l; reflexivity.
Qed.

(** ** Which records are dropped *)

Lemma not_text_false (v : pyval) :
  not_text v = false -> truthy v = false \/ exists s, v = PStr s /\ s <> "".
Proof.
  unfold not_text. destruct (truthy v) eqn:E; [|left; reflexivity].
  destruct v as [|b|n|s|l|l]; cbn [andb]; try discriminate.
  intros _. right. exists s. split; [reflexivity|].
  intros ->. discriminate.
Qed.

Lemma not_text_true (v : pyval) :
  not_text v = true ->
  truthy v = true /\ match v with PStr _ => False | _ => True end.
Proof.
  unfold not_text. destruct (truthy v); [|discriminate].
  destruct v; cbn [andb]; try discriminate; intros _; split; auto.
Qed.

Ltac field_ok f :=
  let H := fresh in
  intros v t H; apply not_text_false in H as [H | (s & -> & H)];
  [ unfold f; rewrite H; cbn [negb]; eexists _, _; reflexivity
  | unfold f; rewrite (truthy_str s H); cbn [negb]; eexists _, _; reflexivity ].

Ltac field_raises f :=
  let H := fresh in
  intros v t H; apply not_text_true in H as [H H'];
  unfold f; rewrite H; cbn [negb];
  destruct v; try contradiction; eexists; reflexivity.

Lemma job_id_ok (py : runtime) :
  forall v t, not_text v = false ->
              exists r t', _normalize_job_id py v t = (Ok r, t').
Proof. field_ok _normalize_job_id. Qed.

Lemma title_ok :
  forall v t, not_text v = false -> exists r t', _normalize_title v t = (Ok r, t').
Proof. field_ok _normalize_title. Qed.

Lemma company_ok :
  forall v t, not_text v = false -> exists r t', _normalize_company v t = (Ok r, t').
Proof. field_ok _normalize_company. Qed.

Lemma location_ok :
  forall v t, not_text v = false -> exists r t', _normalize_location v t = (Ok r, t').
Proof. field_ok _normalize_location. Qed.

Lemma clearance_ok :
  forall v t, not_text v = false -> exists r t', _extract_clearance v t = (Ok r, t').
Proof. field_ok _extract_clearance. Qed.

Lemma description_ok :
  forall v t, not_text v = false -> exists r t', _clean_description v t = (Ok r, t').
Proof. field_ok _clean_description. Qed.

Lemma job_id_raises (py : runtime) :
  forall v t, not_text v = true -> exists e, _normalize_job_id py v t = (Raise e, t).
Proof. field_raises _normalize_job_id. Qed.

Lemma title_raises :
  forall v t, not_text v = true -> exists e, _normalize_title v t = (Raise e, t).
Proof. field_raises _normalize_title. Qed.

Lemma company_raises :
  forall v t, not_text v = true -> exists e, _normalize_company v t = (Raise e, t).
Proof. field_raises _normalize_company. Qed.

Lemma location_raises :
  forall v t, not_text v = true -> exists e, _normalize_location v t = (Raise e, t).
Proof. field_raises _normalize_location. Qed.

Lemma clearance_raises :
  forall v t, not_text v = true -> exists e, _extract_clearance v t = (Raise e, t).
Proof. field_raises _extract_clearance. Qed.

Lemma date_ok (py : runtime) (v : pyval) (t : nat) :
  exists r t', _normalize_date py v t = (Ok r, t').
Proof.
  unfold _normalize_date.
  destruct (truthy v); cbn [negb]; [|eexists _, _; reflexivity].
  unfold try_exceptM. destruct v as [| | |s| |]; try (eexists _, _; reflexivity).
  rewrite try_formats_value.
  destruct (first_parsed py date_formats s); eexists _, _; reflexivity.
Qed.

Lemma body_outcome (py : runtime) (raw : RawJobRecord) (t : nat) :
  if dropped raw
  then exists e t', normalize_job_body py raw t = (Raise e, t')
  else exists n t', normalize_job_body py raw t = (Ok n, t').
Proof.
  unfold dropped, text_fields. cbn [existsb]. unfold normalize_job_body.
  destruct (not_text (get raw "job_id" (PStr ""))) eqn:E1.
  { cbn [orb]. destruct (job_id_raises py _ t E1) as [e E].
    rewrite bind_run, E. eexists _, _. reflexivity. }
  destruct (job_id_ok py _ t E1) as (r1 & t1 & R1). rewrite bind_run, R1.
  destruct (not_text (get raw "title" (PStr ""))) eqn:E2.
  { cbn [orb]. destruct (title_raises _ t1 E2) as [e E].
    rewrite bind_run, E. eexists _, _. reflexivity. }
  destruct (title_ok _ t1 E2) as (r2 & t2 & R2). rewrite bind_run, R2.
  destruct (not_text (get raw "company" (PStr ""))) eqn:E3.
  { cbn [orb]. destruct (company_raises _ t2 E3) as [e E].
    rewrite bind_run, E. eexists _, _. reflexivity. }
  destruct (company_ok _ t2 E3) as (r3 & t3 & R3). rewrite bind_run, R3.
  destruct (not_text (get raw "location" (PStr ""))) eqn:E4.
  { cbn [orb]. destruct (location_raises _ t3 E4) as [e E].
    rewrite bind_run, E. eexists _, _. reflexivity. }
  destruct (location_ok _ t3 E4) as (r4 & t4 & R4). rewrite bind_run, R4.
  destruct (not_text (get raw "description" (PStr ""))) eqn:E5.
  { cbn [orb]. destruct (clearance_raises _ t4 E5) as [e E].
    rewrite bind_run, E. eexists _, _. reflexivity. }
  cbn [orb].
  destruct (clearance_ok _ t4 E5) as (r5 & t5 & R5). rewrite bind_run, R5.
  destruct (description_ok _ t5 E5) as (r6 & t6 & R6). rewrite bind_run, R6.
  destruct (date_ok py (get raw "posted_date" (PStr "")) t6) as (r7 & t7 & R7).
  rewrite bind_run, R7.
  rewrite bind_run, now_run. rewrite bind_run, now_run.
  eexists _, _. reflexivity.
Qed.

(** X9.  A record is dropped exactly when one of [job_id], [title], [company],
    [location], [description] holds a value that is neither empty nor a
    string; nothing in [url], [posted_date], [source] or [scraped_at] can
    make a record disappear. *)
Theorem dropped_iff_bad_text_field (py : runtime) (raw : RawJobRecord) (t : nat) :
  (dropped raw = true -> exists t', normalize_job py raw t = (Ok None, t')) /\
  (dropped raw = false ->
   exists n t', normalize_job py raw t = (Ok (Some n), t')).
Proof.
  pose proof (body_outcome py raw t) as H.
  unfold normalize_job, try_exceptM. rewrite bind_run.
  destruct (dropped raw).
  - destruct H as (e & t' & E). rewrite E.
    split; [|discriminate]. intros _. exists t'. reflexivity.
  - destruct H as (n & t' & E). rewrite E.
    split; [discriminate|]. intros _. exists n, t'. reflexivity.
Qed.

(** ** What every normalized job satisfies *)

Lemma falsy_or_str (v : pyval) :
  truthy v = false \/ (exists s, v = PStr s /\ s <> "") \/ not_text v = true.
Proof.
  destruct (not_text v) eqn:E; [right; right; reflexivity|].
  apply not_text_false in E as [E|E]; [left | right; left]; exact E.
Qed.

Lemma job_id_result (py : runtime) (v : pyval) (t t' : nat) (r : string) :
  _normalize_job_id py v t = (Ok r, t') -> r <> "".
Proof.
  destruct (falsy_or_str v) as [H | [(s & -> & H) | H]].
  - unfold _normalize_job_id. rewrite H. cbn [negb]. rewrite bind_run, now_run.
    intros E. apply ret_ok in E as [<- _]. discriminate.
  - rewrite (job_id_value py s t H). intros E. inversion E; subst.
    destruct s; [contradiction | discriminate].
  - destruct (job_id_raises py v t H) as [e E]. rewrite E. discriminate.
Qed.

Lemma title_result (v : pyval) (t t' : nat) (r : string) :
  _normalize_title v t = (Ok r, t') ->
  strip r = r /\ single_spaced false r = true.
Proof.
  destruct (falsy_or_str v) as [H | [(s & -> & H) | H]].
  - unfold _normalize_title. rewrite H. cbn [negb]. intros E.
    apply ret_ok in E as [<- _]. split; reflexivity.
  - rewrite title_value. intros E. inversion E; subst.
    destruct (String.eqb s ""); [split; reflexivity|].
    apply collapse_strip_normal.
  - destruct (title_raises v t H) as [e E]. rewrite E. discriminate.
Qed.

Lemma company_result (v : pyval) (t t' : nat) (r : string) :
  _normalize_company v t = (Ok r, t') -> strip r = r.
Proof.
  destruct (falsy_or_str v) as [H | [(s & -> & H) | H]].
  - unfold _normalize_company. rewrite H. cbn [negb]. intros E.
    apply ret_ok in E as [<- _]. reflexivity.
  - rewrite company_value. intros E. inversion E; subst.
    destruct (String.eqb s ""); [reflexivity|]. apply company_choice_trimmed.
  - destruct (company_raises v t H) as [e E]. rewrite E. discriminate.
Qed.

Lemma description_raises :
  forall v t, not_text v = true -> exists e, _clean_description v t = (Raise e, t).
Proof. field_raises _clean_description. Qed.

Lemma description_result (v : pyval) (t t' : nat) (r : string) :
  _clean_description v t = (Ok r, t') ->
  all_chars safe_char r = true /\ strip r = r.
Proof.
  destruct (falsy_or_str v) as [H | [(s & -> & H) | H]].
  - unfold _clean_description. rewrite H. cbn [negb]. intros E.
    apply ret_ok in E as [<- _]. split; reflexivity.
  - rewrite description_value. intros E. inversion E; subst.
    destruct (String.eqb s ""); [split; reflexivity|].
    split; [apply cleaned_text_safe | apply strip_idem].
  - destruct (description_raises v t H) as [e E]. rewrite E. discriminate.
Qed.

Lemma clearance_result (v : pyval) (t t' : nat) (level : string) :
  _extract_clearance v t = (Ok (Some level), t') ->
  exists s kw, v = PStr s /\ In (level, kw) level_keywords /\
               str_in kw (upper s) = true.
Proof.
  destruct (falsy_or_str v) as [H | [(s & -> & H) | H]].
  - unfold _extract_clearance. rewrite H. cbn [negb]. intros E.
    apply ret_ok in E as [E _]. discriminate.
  - rewrite extract_clearance_value. intros E.
    destruct (String.eqb s ""); [discriminate|].
    destruct (first_clearance_keyword s level) as (kw & H1 & H2); [congruence|].
    exists s, kw. repeat split; assumption.
  - destruct (clearance_raises v t H) as [e E]. rewrite E. discriminate.
Qed.

(** X10.  Every job that [normalize_job] returns has a non-empty [job_id], a
    [title] that is trimmed and single-spaced, a trimmed [company], a
    trimmed [description] that, when the raw description is ASCII text,
    lies within the safe alphabet, and a [clearance_level] that, when
    present, is one of the four levels whose keyword occurs in the raw
    description. *)
Theorem normalized_job_invariants (py : runtime) (raw : RawJobRecord)
  (t t' : nat) (n : NormalizedJob) :
  normalize_job py raw t = (Ok (Some n), t') ->
  job_id n <> "" /\
  (strip (title n) = title n /\ single_spaced false (title n) = true) /\
  strip (company n) = company n /\
  (strip (description n) = description n /\
   ((forall s, raw !! "description" = Some (PStr s) ->
               all_chars is_ascii s = true) ->
    all_chars safe_char (description n) = true)) /\
  (forall level,
     clearance_level n = Some level ->
     exists s kw, raw !! "description" = Some (PStr s) /\
                  In (level, kw) level_keywords /\
                  str_in kw (upper s) = true).
Proof.
  unfold normalize_job, try_exceptM. rewrite bind_run.
  destruct (normalize_job_body py raw t) as [[n'|e] t1] eqn:E;
    intros H; inversion H; subst; clear H.
  unfold normalize_job_body in E.
  apply bind_ok in E as (r1 & t2 & H1 & E).
  apply bind_ok in E as (r2 & t3 & H2 & E).
  apply bind_ok in E as (r3 & t4 & H3 & E).
  apply bind_ok in E as (r4 & t5 & H4 & E).
  apply bind_ok in E as (r5 & t6 & H5 & E).
  apply bind_ok in E as (r6 & t7 & H6 & E).
  apply bind_ok in E as (r7 & t8 & H7 & E).
  apply bind_ok in E as (d1 & t9 & _ & E).
  apply bind_ok in E as (d2 & t10 & _ & E).
  apply ret_ok in E as [<- _].
  cbn [job_id title company description clearance_level].
  split; [apply (job_id_result _ _ _ _ _ H1)|].
  split; [apply (title_result _ _ _ _ H2)|].
  split; [apply (company_result _ _ _ _ H3)|].
  split; [destruct (description_result _ _ _ _ H6) as [Hsafe Hstrip];
          split; [exact Hstrip | intros _; exact Hsafe]|].
  intros level ->. apply clearance_result in H5 as (s & kw & Hv & Hin & Hs).
  exists s, kw. split; [|split; assumption].
  unfold get in Hv. destruct (raw !! "description") as [v|]; [congruence|].
  inversion Hv; subst. cbn in Hs.
  unfold level_keywords in Hin. cbn in Hin.
  repeat destruct Hin as [Hin|Hin]; try contradiction;
    inversion Hin; subst; discriminate.
Qed.

Lemma normalized_job_invariants_witness :
  exists n t',
    normalize_job sample_datetime
      {[ "job_id" := PStr "IG 7"; "title" := PStr " Systems  Engineer ";
         "description" := PStr "<p>Active <b>Secret</b> clearance & C++</p>" ]} 0
    = (Ok (Some n), t') /\
    job_id n <> "" /\ strip (title n) = title n /\
    all_chars safe_char (description n) = true /\
    clearance_level n = Some "Secret".
Proof.
  destruct (normalize_job sample_datetime
              {[ "job_id" := PStr "IG 7"; "title" := PStr " Systems  Engineer ";
                 "description" :=
                   PStr "<p>Active <b>Secret</b> clearance & C++</p>" ]} 0)
    as [[[n|]|e] t'] eqn:E; try (vm_compute in E; discriminate).
  exists n, t'. split; [reflexivity|].
  destruct (normalized_job_invariants sample_datetime _ 0 t' n E)
    as (H1 & [H2 _] & _ & [_ H3] & _).
  split; [exact H1|]. split; [exact H2|]. split.
  - apply H3. intros s Hs. vm_compute in Hs. inversion Hs. reflexivity.
  - vm_compute in E. inversion E. reflexivity.
Defined.

(** ** [main] and its source filter *)

Lemma filter_source_value (a : string) (jobs : list RawJobRecord) :
  forallb source_is_text jobs = true ->
  filter_source a jobs = Ok (List.filter (from_source a) jobs).
Proof.
  induction jobs as [|job rest IH]; [reflexivity|].
  cbn [forallb List.filter filter_source]. intros H.
  apply andb_true_iff in H as [H1 H2]. rewrite (IH H2).
  unfold source_is_text in H1. unfold from_source.
  destruct (get job "source" (PStr "")); try discriminate.
  cbn [mbind result_bind rbind mret result_ret].
  destruct (String.eqb _ _); reflexivity.
Qed.

Lemma filter_source_raises (a : string) (jobs : list RawJobRecord) :
  forallb source_is_text jobs = false ->
  filter_source a jobs = Raise AttributeError.
Proof.
  induction jobs as [|job rest IH]; [discriminate|].
  cbn [forallb filter_source]. intros H.
  unfold source_is_text in H at 1.
  destruct (get job "source" (PStr "")); try reflexivity.
  cbn [andb] in H. rewrite (IH H). reflexivity.
Qed.

Lemma kept_from (py : runtime) (jobs : list RawJobRecord) (n : NormalizedJob) :
  forall t, In n (kept (normalize_each py jobs t)) ->
  exists job t1 t2, In job jobs /\ normalize_job py job t1 = (Ok (Some n), t2).
Proof.
  induction jobs as [|job rest IH]; intros t; cbn [normalize_each kept];
    [intros []|].
  destruct (normalize_job py job t) as [r t1] eqn:E.
  destruct r as [[m|]|e]; cbn [kept In].
  - intros [<-|H].
    + exists job, t, t1. split; [left; reflexivity | exact E].
    + destruct (IH _ H) as (j & a & b & Hj & Hn).
      exists j, a, b. split; [right; exact Hj | exact Hn].
  - intros H. destruct (IH _ H) as (j & a & b & Hj & Hn).
    exists j, a, b. split; [right; exact Hj | exact Hn].
  - intros H. destruct (IH _ H) as (j & a & b & Hj & Hn).
    exists j, a, b. split; [right; exact Hj | exact Hn].
Qed.

Lemma normalize_job_source (py : runtime) (raw : RawJobRecord) (t t' : nat)
  (n : NormalizedJob) :
  normalize_job py raw t = (Ok (Some n), t') ->
  source n = get raw "source" (PStr "").
Proof.
  unfold normalize_job, try_exceptM. rewrite bind_run.
  destruct (normalize_job_body py raw t) as [[n'|e] t1] eqn:E;
    intros H; inversion H; subst; clear H.
  apply (body_source_scraped _ _ _ _ _ E).
Qed.

Lemma main_value (py : runtime) (jobs : list RawJobRecord) (t : nat) :
  exists t',
    main py (Ok jobs) None (Ok ()) t
    = (Written (kept (normalize_each py jobs t)), t').
Proof.
  unfold main, normalize_batch.
  destruct (normalize_loop_kept py jobs [] t) as (t' & E).
  rewrite E. exists t'. reflexivity.
Qed.

(** X11.  When [main] is given a source and writes its output, the jobs it
    writes are the normalized jobs of exactly the input records whose
    [source] is that string, letter case apart; each written job carries
    such a source. *)
Theorem main_keeps_only_the_source (py : runtime) (jobs : list RawJobRecord)
  (a : string) (output : result unit) (t t' : nat) (ns : list NormalizedJob) :
  a <> "" ->
  main py (Ok jobs) (Some a) output t = (Written ns, t') ->
  ns = kept (normalize_each py (List.filter (from_source a) jobs) t) /\
  Forall (fun n => exists s, source n = PStr s /\ lower s = lower a) ns.
Proof.
  intros Ha. unfold main.
  destruct (String.eqb a "") eqn:Ea; [apply String.eqb_eq in Ea; contradiction|].
  destruct (forallb source_is_text jobs) eqn:Hs.
  - rewrite (filter_source_value a jobs Hs). unfold normalize_batch.
    destruct (normalize_loop_kept py (List.filter (from_source a) jobs) [] t)
      as (t1 & E).
    rewrite E. cbn [app]. destruct output; intros H; inversion H; subst; clear H.
    split; [reflexivity|]. apply List.Forall_forall. intros n Hn.
    apply kept_from in Hn as (job & t2 & t3 & Hj & Hn).
    apply filter_In in Hj as [_ Hj]. apply normalize_job_source in Hn.
    rewrite Hn. unfold from_source in Hj.
    destruct (get job "source" (PStr "")); try discriminate.
    eexists. split; [reflexivity|]. apply String.eqb_eq, Hj.
  - rewrite (filter_source_raises a jobs Hs). discriminate.
Qed.

Lemma main_keeps_only_the_source_witness :
  exists ns t',
    main sample_datetime (Ok [raw_stamped; raw_empty]) (Some "Insight_Global")
         (Ok ()) 0 = (Written ns, t') /\
    Forall (fun n => exists s, source n = PStr s /\
                               lower s = lower "Insight_Global") ns.
Proof.
  destruct (main sample_datetime (Ok [raw_stamped; raw_empty])
              (Some "Insight_Global") (Ok ()) 0) as [[ns|] t'] eqn:E;
    [|vm_compute in E; discriminate].
  exists ns, t'. split; [reflexivity|].
  apply (main_keeps_only_the_source sample_datetime [raw_stamped; raw_empty]
           "Insight_Global" (Ok ()) 0 t' ns); [discriminate | exact E].
Defined.

(** X12.  One input record whose [source] is not a string makes a run with a
    source filter exit with status 1 before any record is normalized,
    whatever the other records are; without the filter the same input is
    normalized and written. *)
Theorem main_source_filter_aborts (py : runtime) (jobs : list RawJobRecord)
  (a : string) (output : result unit) (t : nat) :
  a <> "" ->
  forallb source_is_text jobs = false ->
  main py (Ok jobs) (Some a) output t = (Exit1, t) /\
  exists t',
    main py (Ok jobs) None (Ok ()) t
    = (Written (kept (normalize_each py jobs t)), t').
Proof.
  intros Ha Hs. split; [|apply main_value].
  unfold main.
  destruct (String.eqb a "") eqn:Ea; [apply String.eqb_eq in Ea; contradiction|].
  rewrite (filter_source_raises a jobs Hs). reflexivity.
Qed.

Lemma main_source_filter_aborts_witness :
  main sample_datetime (Ok [raw_stamped; {[ "source" := PInt 3 ]}])
       (Some "insight_global") (Ok ()) 0 = (Exit1, 0).
Proof.
  apply (main_source_filter_aborts sample_datetime
           [raw_stamped; {[ "source" := PInt 3 ]}] "insight_global" (Ok ()) 0).
  - discriminate.
  - vm_compute. reflexivity.
Defined.

End NormalizerJobFacts.

(* ===================================================================== *)
(** * The mapping engine: the semantic tier, the keyword tier, [main] *)
(* ===================================================================== *)

Module MappingTierFacts.
Import PyText Re PyFloat TextSpec Mapping MappingMain Examples.
Import NormalizerFacts MappingFacts.

(** ** The JSON object of a model answer *)

Lemma star_any_brace (s : string) :
  forall prev,
    star_k (fun _ => true) prev s
      (fun prev' s' => rmatch (RChr "}") prev' s' (fun p rest => Some (p, rest)))
    = option_map (fun rest => (Some "}"%char, rest)) (after_last_brace s).
Proof.
  induction s as [|a s IH]; intros prev; cbn [star_k after_last_brace].
  - reflexivity.
  - rewrite IH. destruct (after_last_brace s) as [rest|]; [reflexivity|].
    cbn [option_map rmatch]. destruct (Ascii.eqb a "}") eqn:E; [|reflexivity].
    apply Ascii.eqb_eq in E. subst. reflexivity.
Qed.

Lemma match_json_object (prev : option ascii) (s : string) :
  match_here re_json_object prev s
  = match s with
    | String a s' =>
        if Ascii.eqb a "{"
        then option_map (fun rest => (Some "}"%char, rest)) (after_last_brace s')
        else None
    | EmptyString => None
    end.
Proof.
  unfold match_here, re_json_object. cbn [cats rmatch].
  destruct s as [|a s]; [reflexivity|].
  destruct (Ascii.eqb a "{"); [|reflexivity]. apply star_any_brace.
Qed.

Lemma after_last_brace_split (s rest : string) :
  after_last_brace s = Some rest ->
  exists body, s = body +:+ "}" +:+ rest /\
               all_chars (other_than "}") rest = true.
Proof.
  revert rest. induction s as [|a s IH]; intros rest; cbn [after_last_brace];
    [discriminate|].
  destruct (after_last_brace s) as [r|] eqn:E.
  - intros H. inversion H; subst. destruct (IH rest eq_refl) as (body & -> & Hr).
    exists (String a body). split; [reflexivity | exact Hr].
  - destruct (Ascii.eqb a "}") eqn:Ea; [|discriminate].
    intros H. inversion H; subst. apply Ascii.eqb_eq in Ea. subst.
    exists "". split; [reflexivity|].
    clear IH H. induction rest as [|c rest IHr]; [reflexivity|].
    cbn [after_last_brace] in E.
    destruct (after_last_brace rest); [discriminate|].
    destruct (Ascii.eqb c "}") eqn:Ec; [discriminate|].
    cbn [all_chars]. unfold other_than at 1. rewrite Ec. cbn [negb andb].
    apply IHr. reflexivity.
Qed.

Lemma after_last_brace_none (s : string) :
  after_last_brace s = None -> all_chars (other_than "}") s = true.
Proof.
  induction s as [|c s IH]; [reflexivity|]. cbn [after_last_brace].
  destruct (after_last_brace s); [discriminate|].
  destruct (Ascii.eqb c "}") eqn:Ec; [discriminate|]. intros _.
  cbn [all_chars]. unfold other_than at 1. rewrite Ec. apply IH. reflexivity.
Qed.

Lemma after_last_brace_app (body rest : string) :
  all_chars (other_than "}") rest = true ->
  after_last_brace (body +:+ "}" +:+ rest) = Some rest.
Proof.
  intros Hr.
  assert (Hn : after_last_brace rest = None).
  { induction rest as [|c rest IH]; [reflexivity|].
    cbn [all_chars] in Hr. apply andb_true_iff in Hr as [Hc Hr].
    cbn [after_last_brace]. rewrite (IH Hr).
    unfold other_than in Hc. destruct (Ascii.eqb c "}"); [discriminate|].
    reflexivity. }
  induction body as [|a body IH].
  - change ("" +:+ "}" +:+ rest) with (String "}" rest).
    cbn [after_last_brace]. rewrite Hn. reflexivity.
  - change (String a body +:+ "}" +:+ rest)
      with (String a (body +:+ "}" +:+ rest)).
    cbn [after_last_brace]. rewrite IH. reflexivity.
Qed.

Lemma search_json_none (s : string) :
  after_last_brace s = None ->
  forall prev, search_from re_json_object prev s = None.
Proof.
  induction s as [|c s IH]; intros Hn prev; cbn [search_from];
    rewrite match_json_object; [reflexivity|].
  cbn [after_last_brace] in Hn.
  destruct (after_last_brace s) eqn:E; [discriminate|].
  destruct (Ascii.eqb c "{"); cbn [option_map]; apply IH; reflexivity.
Qed.

Lemma length_append (a b : string) :
  String.length (a +:+ b) = (String.length a + String.length b)%nat.
Proof.
  induction a as [|c a IH]; [reflexivity|].
  change (String c a +:+ b) with (String c (a +:+ b)).
  cbn [String.length]. rewrite IH. reflexivity.
Qed.

Lemma take_app (a b : string) :
  take (String.length (a +:+ b) - String.length b) (a +:+ b) = a.
Proof.
  rewrite length_append.
  replace (String.length a + String.length b - String.length b)%nat
    with (String.length a) by lia.
  induction a as [|c a IH]; [destruct b; reflexivity|].
  change (String c a +:+ b) with (String c (a +:+ b)).
  cbn [String.length take]. rewrite IH. reflexivity.
Qed.

Lemma append_assoc (a b c : string) : (a +:+ b) +:+ c = a +:+ (b +:+ c).
Proof.
  induction a as [|x a IH]; [reflexivity|].
  change (String x a +:+ b) with (String x (a +:+ b)).
  change (String x (a +:+ b) +:+ c) with (String x ((a +:+ b) +:+ c)).
  rewrite IH. reflexivity.
Qed.

Lemma search_json_value (s : string) :
  forall prev,
    option_map group (search_from re_json_object prev s)
    = match skip (other_than "{") s with
      | String a s' =>
          match after_last_brace s' with
          | Some rest =>
              Some (take (String.length (String a s') - String.length rest)
                         (String a s'))
          | None => None
          end
      | EmptyString => None
      end.
Proof.
  induction s as [|c s IH]; intros prev; cbn [search_from skip];
    rewrite match_json_object; [reflexivity|].
  unfold other_than at 1. destruct (Ascii.eqb c "{") eqn:Ec; cbn [negb].
  - destruct (after_last_brace s) as [rest|] eqn:E; cbn [option_map].
    + reflexivity.
    + rewrite (search_json_none s E). reflexivity.
  - apply IH.
Qed.

Lemma skip_split (p : ascii -> bool) (s : string) :
  exists pre, s = pre +:+ skip p s /\ all_chars p pre = true /\
              match skip p s with
              | String a _ => p a = false
              | EmptyString => True
              end.
Proof.
  induction s as [|c s (pre & E & Hp & Hs)]; cbn [skip].
  - exists "". repeat split.
  - destruct (p c) eqn:Ec.
    + exists (String c pre).
      change (String c pre +:+ skip p s) with (String c (pre +:+ skip p s)).
      rewrite <- E. cbn [all_chars]. rewrite Ec, Hp. repeat split. exact Hs.
    + exists "". repeat split. exact Ec.
Qed.

Lemma skip_app (p : ascii -> bool) (pre : string) (c : ascii) (s : string) :
  all_chars p pre = true -> p c = false ->
  skip p (pre +:+ String c s) = String c s.
Proof.
  intros Hp Hc. induction pre as [|a pre IH].
  - change ("" +:+ String c s) with (String c s). cbn [skip]. rewrite Hc.
    reflexivity.
  - change (String a pre +:+ String c s) with (String a (pre +:+ String c s)).
    cbn [all_chars] in Hp. apply andb_true_iff in Hp as [Ha Hp].
    cbn [skip]. rewrite Ha. apply IH, Hp.
Qed.

Lemma json_span_found (text pre body post : string) :
  text = pre +:+ "{" +:+ body +:+ "}" +:+ post ->
  all_chars (other_than "{") pre = true ->
  all_chars (other_than "}") post = true ->
  option_map group (search re_json_object text) = Some ("{" +:+ body +:+ "}").
Proof.
  intros -> Hpre Hpost. unfold search. rewrite search_json_value.
  change ("{" +:+ body +:+ "}" +:+ post)
    with (String "{" (body +:+ "}" +:+ post)).
  rewrite (skip_app _ pre "{" _ Hpre eq_refl).
  rewrite (after_last_brace_app body post Hpost). f_equal.
  transitivity (take (String.length (("{" +:+ body +:+ "}") +:+ post)
                      - String.length post)
                     (("{" +:+ body +:+ "}") +:+ post));
    [|apply take_app].
  rewrite !append_assoc. reflexivity.
Qed.

(** X13.  The JSON object that [_parse_ai_response] cuts out of a model answer
    runs from the first opening brace of the answer to its last closing
    brace, and there is one exactly when a closing brace follows the
    first opening brace. *)
Theorem json_object_span (text g : string) :
  option_map group (search re_json_object text) = Some g <->
  exists pre body post,
    text = pre +:+ "{" +:+ body +:+ "}" +:+ post /\
    g = "{" +:+ body +:+ "}" /\
    all_chars (other_than "{") pre = true /\
    all_chars (other_than "}") post = true.
Proof.
  split.
  - unfold search. rewrite search_json_value.
    destruct (skip_split (other_than "{") text) as (pre & E & Hpre & Hhd).
    destruct (skip (other_than "{") text) as [|a s']; [discriminate|].
    destruct (after_last_brace s') as [rest|] eqn:Er; [|discriminate].
    intros H. inversion H; subst g; clear H.
    apply after_last_brace_split in Er as (body & -> & Hrest).
    unfold other_than in Hhd. apply negb_false_iff, Ascii.eqb_eq in Hhd.
    subst a. exists pre, body, rest.
    split; [exact E|]. split; [|split; assumption].
    transitivity (take (String.length (("{" +:+ body +:+ "}") +:+ rest)
                        - String.length rest)
                       (("{" +:+ body +:+ "}") +:+ rest));
      [|apply take_app].
    rewrite !append_assoc. reflexivity.
  - intros (pre & body & post & E & -> & Hpre & Hpost).
    apply (json_span_found text pre body post E Hpre Hpost).
Qed.

Lemma search_json_found (text pre body post : string) :
  text = pre +:+ "{" +:+ body +:+ "}" +:+ post ->
  all_chars (other_than "{") pre = true ->
  all_chars (other_than "}") post = true ->
  exists m, search re_json_object text = Some m /\
            group m = "{" +:+ body +:+ "}".
Proof.
  intros E Hpre Hpost.
  assert (H : option_map group (search re_json_object text)
              = Some ("{" +:+ body +:+ "}"))
    by (apply (json_span_found text pre body post E Hpre Hpost)).
  destruct (search re_json_object text) as [m|]; [|discriminate].
  exists m. split; [reflexivity|]. inversion H. reflexivity.
Qed.

(** ** The semantic tier *)

(** X14.  When the service answers with a text whose widest brace-delimited
    part decodes, the result is built from the decoded object alone: the
    programs, confidence, reasoning and keywords are the answer's (or the
    defaults for missing keys), whatever the dictionary holds. *)
Theorem semantic_answer_taken_as_given (py : runtime) (self : engine)
  (job : job_data) (env : call_env) (prompt pre body post : string)
  (others : list (option string)) (parsed : ai_payload) :
  _create_mapping_prompt self job = Ok prompt ->
  service_configured self ->
  service env prompt = Ok (Some (pre +:+ "{" +:+ body +:+ "}" +:+ post) :: others) ->
  all_chars (other_than "{") pre = true ->
  all_chars (other_than "}") post = true ->
  json_loads py ("{" +:+ body +:+ "}") = Some parsed ->
  map_job_to_programs py self job env = Ok (answer_of parsed job (now env)).
Proof.
  intros Hprompt (Hm & Hk & Ht) Hs Hpre Hpost Hjson.
  destruct Hm as [m Hm], Hk as [k Hk], Ht as [tp Ht].
  unfold map_job_to_programs, map_job_body.
  rewrite Hprompt, Hm, Hk, Ht. cbn [index mbind result_bind rbind].
  rewrite Hs. cbn [mbind result_bind rbind].
  unfold _parse_ai_response, parse_attempt.
  destruct (search_json_found _ pre body post eq_refl Hpre Hpost) as (g & Eg & Hg).
  rewrite Eg, Hg, Hjson. reflexivity.
Qed.

Lemma semantic_answer_taken_as_given_witness :
  map_job_to_programs sample_json empty_engine systems_engineer
    (service_says (Some ("Sure: " +:+ "{" +:+ "F35" +:+ "}" +:+ " fits.")))
  = Ok (answer_of guessing_payload systems_engineer "2024-05-01T12:00:00").
Proof.
  destruct (_create_mapping_prompt empty_engine systems_engineer)
    as [prompt|e] eqn:E; [|vm_compute in E; discriminate].
  apply (semantic_answer_taken_as_given sample_json empty_engine
           systems_engineer
           (service_says (Some ("Sure: " +:+ "{" +:+ "F35" +:+ "}" +:+ " fits.")))
           prompt "Sure: " "F35" " fits." [] guessing_payload).
  - exact E.
  - repeat split; eexists; reflexivity.
  - reflexivity.
  - reflexivity.
  - reflexivity.
  - reflexivity.
Defined.

(** ** The prompt *)

Lemma programs_info_lines_complete (items : programs_dictionary) :
  complete items = true ->
  programs_info_lines items
  = Ok (map (fun '(code, details) =>
               "- " +:+ code +:+ ": " +:+ get (full_name details) ""
                 +:+ " (" +:+ get (prime_contractor details) "" +:+ ")")
            items).
Proof.
  induction items as [|[code details] rest IH]; [reflexivity|].
  cbn [complete forallb programs_info_lines map]. intros H.
  apply andb_true_iff in H as [H1 H2].
  destruct (full_name details) as [fn|]; [|discriminate].
  destruct (prime_contractor details) as [pc|]; [|discriminate].
  cbn [index mbind result_bind rbind]. rewrite (IH H2). reflexivity.
Qed.

Lemma programs_info_lines_incomplete (items : programs_dictionary) :
  complete items = false ->
  exists key, programs_info_lines items = Raise (KeyError key).
Proof.
  induction items as [|[code details] rest IH]; [discriminate|].
  cbn [complete forallb programs_info_lines]. intros H.
  destruct (full_name details) as [fn|];
    [|exists "full_name"; reflexivity].
  destruct (prime_contractor details) as [pc|];
    [|exists "prime_contractor"; reflexivity].
  cbn [andb] in H. destruct (IH H) as [key E]. exists key.
  cbn [index mbind result_bind rbind]. rewrite E. reflexivity.
Qed.

(** X15.  One dictionary entry without a [full_name] or a [prime_contractor]
    turns the engine off for every job: the prompt cannot be built, the
    service is not asked, the keyword strategy is not tried, and the
    result is the fail-safe mapping. *)
Theorem incomplete_dictionary_disables_mapping (py : runtime) (self : engine)
  (job : job_data) (env : call_env) :
  complete (programs_dict self) = false ->
  map_job_to_programs py self job env = Ok (failed_to_analyze job (now env)).
Proof.
  intros H. apply programs_info_lines_incomplete in H as [key E].
  unfold map_job_to_programs, map_job_body, _create_mapping_prompt.
  rewrite E. reflexivity.
Qed.

Lemma incomplete_dictionary_disables_mapping_witness :
  map_job_to_programs sample_json
    {| the_settings := sample_settings f0_3;
       programs_dict := [("F35", f35); ("GBSD", anonymous_program)] |}
    systems_engineer (service_says (Some "{F35}"))
  = Ok (failed_to_analyze systems_engineer "2024-05-01T12:00:00").
Proof.
  apply (incomplete_dictionary_disables_mapping sample_json
           {| the_settings := sample_settings f0_3;
              programs_dict := [("F35", f35); ("GBSD", anonymous_program)] |}
           systems_engineer (service_says (Some "{F35}"))).
  reflexivity.
Defined.

Lemma startswith_refl (s : string) : startswith s s = true.
Proof.
  induction s as [|c s IH]; [reflexivity|]. cbn [startswith].
  rewrite Ascii.eqb_refl. exact IH.
Qed.

Lemma startswith_app (x : string) :
  forall s post, startswith x s = true -> startswith x (s +:+ post) = true.
Proof.
  induction x as [|a x IH]; intros s post; [reflexivity|].
  destruct s as [|b s]; [discriminate|].
  change (String b s +:+ post) with (String b (s +:+ post)).
  cbn [startswith]. intros H. apply andb_true_iff in H as [H1 H2].
  rewrite H1. apply IH, H2.
Qed.

Lemma str_in_app_l (x : string) :
  forall s post, str_in x s = true -> str_in x (s +:+ post) = true.
Proof.
  induction s as [|c s IH]; intros post H.
  - rewrite str_in_unfold in H. rewrite orb_false_r in H.
    rewrite str_in_unfold. rewrite (startswith_app x "" post H). reflexivity.
  - rewrite str_in_unfold in H. apply orb_true_iff in H as [H|H].
    + rewrite str_in_unfold.
      rewrite (startswith_app x (String c s) post H). reflexivity.
    + change (String c s +:+ post) with (String c (s +:+ post)).
      rewrite str_in_unfold, (IH post H). apply orb_true_r.
Qed.

Lemma str_in_app_r (x : string) :
  forall pre s, str_in x s = true -> str_in x (pre +:+ s) = true.
Proof.
  induction pre as [|c pre IH]; intros s H; [exact H|].
  change (String c pre +:+ s) with (String c (pre +:+ s)).
  rewrite str_in_unfold, (IH s H). apply orb_true_r.
Qed.

Lemma str_in_refl (s : string) : str_in s s = true.
Proof. rewrite str_in_unfold, startswith_refl. reflexivity. Qed.

Lemma str_in_join (sep x line : string) (lines : list string) :
  In line lines -> str_in x line = true -> str_in x (join sep lines) = true.
Proof.
  unfold join. intros Hin Hx. induction lines as [|l rest IH]; [destruct Hin|].
  cbn [String.concat]. destruct rest as [|l' rest].
  - destruct Hin as [->|[]]. exact Hx.
  - destruct Hin as [->|Hin].
    + apply str_in_app_l, Hx.
    + apply str_in_app_r, str_in_app_r, IH, Hin.
Qed.

(** X16.  With a complete dictionary the prompt is built for every job, and it
    carries the job's title, company, location and description verbatim
    (or N/A for a missing one) and one line for every dictionary entry
    with its code, full name and prime contractor. *)
Theorem prompt_embeds_job_and_dictionary (self : engine) (job : job_data) :
  complete (programs_dict self) = true ->
  exists prompt,
    _create_mapping_prompt self job = Ok prompt /\
    str_in (get (j_title job) "N/A") prompt = true /\
    str_in (get (j_company job) "N/A") prompt = true /\
    str_in (get (j_location job) "N/A") prompt = true /\
    str_in (get (j_description job) "N/A") prompt = true /\
    forall code details,
      In (code, details) (programs_dict self) ->
      str_in ("- " +:+ code +:+ ": " +:+ get (full_name details) ""
                +:+ " (" +:+ get (prime_contractor details) "" +:+ ")")
             prompt = true.
Proof.
  intros H. unfold _create_mapping_prompt.
  rewrite (programs_info_lines_complete _ H).
  cbn [mbind result_bind rbind mret result_ret].
  eexists. split; [reflexivity|].
  split; [|split; [|split; [|split]]].
  - eapply str_in_join; [do 4 right; left; reflexivity|].
    apply str_in_app_r, str_in_refl.
  - eapply str_in_join; [do 5 right; left; reflexivity|].
    apply str_in_app_r, str_in_refl.
  - eapply str_in_join; [do 6 right; left; reflexivity|].
    apply str_in_app_r, str_in_refl.
  - eapply str_in_join; [do 8 right; left; reflexivity|].
    apply str_in_app_r, str_in_refl.
  - intros code details Hin.
    eapply str_in_join; [do 11 right; left; reflexivity|].
    apply str_in_app_r. eapply str_in_join; [|apply str_in_refl].
    apply in_map_iff. exists (code, details). split; [reflexivity | exact Hin].
Qed.

Lemma prompt_embeds_job_and_dictionary_witness :
  exists prompt,
    _create_mapping_prompt f35_engine systems_engineer = Ok prompt /\
    str_in "Systems Engineer" prompt = true.
Proof.
  destruct (prompt_embeds_job_and_dictionary f35_engine systems_engineer)
    as (prompt & E & H & _); [reflexivity|].
  exists prompt. split; [exact E | exact H].
Defined.

(** ** The keyword tier *)

Lemma keyword_loop_ok (self : engine) (job : job_data)
  (items : programs_dictionary) :
  forall mapped found out,
    keyword_loop self job items mapped found = Ok out ->
    items = [] \/
    (exists t, keyword_match_threshold (the_settings self) = Some t) /\
    named items.
Proof.
  induction items as [|[code details] rest IH]; intros mapped found out;
    [left; reflexivity|].
  cbn [keyword_loop]. intros H. right.
  destruct (full_name details) as [fn|] eqn:Hfn;
    [|rewrite (score_program_unnamed job details Hfn) in H; discriminate].
  rewrite (score_program_spec job details fn Hfn) in H.
  cbn [mbind result_bind rbind] in H.
  destruct (keyword_match_threshold (the_settings self)) as [t|] eqn:Ht;
    [|discriminate].
  cbn [index mbind result_bind rbind] in H.
  split; [exists t; reflexivity|].
  apply Forall_cons. split; [cbn [snd]; rewrite Hfn; eexists; reflexivity|].
  destruct (geb _ t); apply IH in H as [->|[_ H]];
    first [apply Forall_nil; exact I | exact H].
Qed.

Lemma filter_sublist {A : Type} (f : A -> bool) (l : list A) :
  sublist (List.filter f l) l.
Proof.
  induction l as [|x l IH]; cbn [List.filter]; [constructor|].
  destruct (f x); [apply sublist_skip | apply sublist_cons]; exact IH.
Qed.

Lemma keyword_ok_selected (py : runtime) (self : engine) (job : job_data)
  (now : string) (r : MappingResult) :
  _keyword_based_mapping py self job now = Ok r ->
  exists selected,
    sublist selected (programs_dict self) /\
    Forall (fun item => is_Some (full_name (snd item))) selected /\
    mapped_programs r = map fst selected /\
    keywords_found r = set_iter py (found_of (job_text job) selected).
Proof.
  intros H. destruct (keyword_result _ _ _ _ _ H) as (mapped & found & E & ->).
  cbn [mapped_programs keywords_found].
  destruct (keyword_loop_ok _ _ _ _ _ _ E) as [Hd | [[t Ht] Hn]].
  - rewrite Hd in E |- *. cbn [keyword_loop] in E. inversion E; subst.
    exists []. repeat split; constructor.
  - rewrite (keyword_loop_spec self job t _ Ht Hn [] []) in E.
    cbn [app] in E. inversion E; subst.
    exists (spec_selected (job_text job) job t (programs_dict self)).
    split; [apply filter_sublist|]. split; [|split; reflexivity].
    apply List.Forall_forall. intros item Hin.
    unfold spec_selected in Hin. apply filter_In in Hin as [Hin _].
    unfold named in Hn. rewrite List.Forall_forall in Hn. apply Hn, Hin.
Qed.

(** X17.  Whenever the keyword strategy answers, its [mapped_programs] are
    program codes of the dictionary, in dictionary order and at most one
    per entry, so there are never more of them than dictionary entries. *)
Theorem keyword_programs_from_dictionary (py : runtime) (self : engine)
  (job : job_data) (now : string) (r : MappingResult) :
  _keyword_based_mapping py self job now = Ok r ->
  sublist (mapped_programs r) (map fst (programs_dict self)) /\
  (length (mapped_programs r) <= length (programs_dict self))%nat.
Proof.
  intros H. destruct (keyword_ok_selected _ _ _ _ _ H) as (sel & Hs & _ & -> & _).
  split.
  - apply (fmap_sublist fst), Hs.
  - rewrite length_map. apply sublist_length, Hs.
Qed.

Lemma keyword_programs_from_dictionary_witness :
  sublist (mapped_programs f35_keyword_result) (map fst (programs_dict f35_engine)).
Proof.
  apply (keyword_programs_from_dictionary sample_json f35_engine
           systems_engineer "2024-05-01T12:00:00" f35_keyword_result).
  vm_compute. reflexivity.
Defined.

Lemma In_occurring (text : string) (terms : list string) (x : string) :
  In x (occurring text terms) <-> In x terms /\ str_in x text = true.
Proof. exact (filter_In (fun term => str_in term text) x terms). Qed.

(** X18.  Under the set semantics of [set], every keyword that the keyword
    strategy reports occurs in the lower-cased text made of the title, one
    space and the description, and is the lower-cased full name, an
    acronym, a code name or a key skill of a program that was mapped; no
    keyword is reported twice.  The text and the term lists are the
    stated ones, written without the engine's helpers. *)
Theorem keywords_found_are_evidence (py : runtime) (self : engine)
  (job : job_data) (now : string) (r : MappingResult) :
  set_semantics py ->
  _keyword_based_mapping py self job now = Ok r ->
  NoDup (keywords_found r) /\
  forall kw, In kw (keywords_found r) ->
    str_in kw (stated_text job) = true /\
    exists code details,
      In (code, details) (programs_dict self) /\
      In code (mapped_programs r) /\
      In kw (stated_names details ++ stated_skills details).
Proof.
  intros Hset H.
  destruct (keyword_ok_selected _ _ _ _ _ H) as (sel & Hs & Hnamed & -> & ->).
  rewrite (found_stated job sel Hnamed).
  destruct (Hset (stated_keywords (stated_text job) sel)) as [Hnd Hiff].
  split; [exact Hnd|]. intros kw Hkw. apply (proj1 (Hiff kw)) in Hkw.
  unfold stated_keywords in Hkw. apply in_concat in Hkw as (l & Hl & Hkw).
  apply in_map_iff in Hl as ([code details] & <- & Hin). cbn [snd] in Hkw.
  unfold stated_found in Hkw. rewrite in_app_iff, !In_occurring in Hkw.
  split; [destruct Hkw as [[_ Hk]|[_ Hk]]; exact Hk|].
  exists code, details. split; [|split].
  - apply list_elem_of_In. eapply elem_of_sublist; [|exact Hs].
    apply list_elem_of_In, Hin.
  - apply in_map_iff. exists (code, details). split; [reflexivity | exact Hin].
  - apply in_app_iff.
    destruct Hkw as [[Hk _]|[Hk _]]; [left | right]; exact Hk.
Qed.

Lemma dedup_set_semantics : set_semantics sample_json.
Proof.
  unfold set_semantics. cbn [set_iter sample_json].
  assert (Hin : forall l x, In x (dedup l) <-> In x l).
  { induction l as [|y l IH]; intros x; cbn [dedup In]; [tauto|].
    rewrite filter_In, IH. split.
    - intros [H|[H _]]; [left | right]; exact H.
    - intros [H|H]; [left; exact H|].
      destruct (String.eqb y x) eqn:E.
      + left. apply String.eqb_eq, E.
      + right. split; [exact H | reflexivity]. }
  intros l. split; [|apply Hin].
  induction l as [|y l IH]; cbn [dedup]; [constructor|].
  apply NoDup_cons. split.
  - rewrite list_elem_of_In, filter_In, String.eqb_refl.
    intros [_ H]. discriminate.
  - clear Hin. induction IH as [|z l' Hz Hl' IH']; cbn [List.filter];
      [constructor|].
    destruct (negb (String.eqb y z)); [|exact IH'].
    apply NoDup_cons. split; [|exact IH'].
    rewrite list_elem_of_In, filter_In. intros [H _].
    apply Hz, list_elem_of_In, H.
Qed.

Lemma keywords_found_are_evidence_witness :
  NoDup (keywords_found f35_keyword_result) /\
  str_in "avionics" (stated_text systems_engineer) = true /\
  exists code details,
    In (code, details) (programs_dict f35_engine) /\
    In "avionics" (stated_names details ++ stated_skills details).
Proof.
  destruct (keywords_found_are_evidence sample_json f35_engine systems_engineer
              "2024-05-01T12:00:00" f35_keyword_result dedup_set_semantics)
    as [Hnd Hkw]; [vm_compute; reflexivity|].
  split; [exact Hnd|].
  destruct (Hkw "avionics") as (H & code & details & Hin & _ & Hterm);
    [left; reflexivity|].
  split; [exact H|]. exists code, details. split; assumption.
Defined.

(** X19.  The confidence of a keyword result is zero exactly when no program
    was mapped, and it is one of five values. *)
Theorem keyword_confidence_zero_iff_unmapped (py : runtime) (self : engine)
  (job : job_data) (now : string) (r : MappingResult) :
  _keyword_based_mapping py self job now = Ok r ->
  (confidence_score r = f0_0 <-> mapped_programs r = []) /\
  In (confidence_score r)
     [ f0_0; f0_2; f0_4; S754_finite false 5404319552844596 (-53); f0_7 ].
Proof.
  intros H. destruct (keyword_result _ _ _ _ _ H) as (mapped & found & _ & ->).
  cbn [confidence_score mapped_programs].
  destruct mapped as [|a [|b [|c [|d rest]]]].
  - split; [split; reflexivity | left; reflexivity].
  - split; [split; discriminate | right; left; reflexivity].
  - split; [split; discriminate | do 2 right; left; reflexivity].
  - split; [split; discriminate | do 3 right; left; reflexivity].
  - rewrite PyFloatFacts.confidence_four_up by (cbn [length]; lia).
    split; [split; discriminate | do 4 right; left; reflexivity].
Qed.

Lemma keyword_confidence_zero_iff_unmapped_witness :
  confidence_score empty_keyword_result = f0_0 <->
  mapped_programs empty_keyword_result = [].
Proof.
  apply (keyword_confidence_zero_iff_unmapped sample_json empty_engine
           systems_engineer "2024-05-01T12:00:00" empty_keyword_result).
  vm_compute. reflexivity.
Defined.

(** ** Where a result comes from *)

Lemma parse_attempt_answer (py : runtime) (content : option string)
  (job : job_data) (now : string) (r : MappingResult) :
  parse_attempt py content job now = Ok (Some r) ->
  exists text g parsed,
    content = Some text /\
    option_map group (search re_json_object text) = Some g /\
    json_loads py g = Some parsed /\
    r = answer_of parsed job now.
Proof.
  unfold parse_attempt. destruct content as [text|]; [|discriminate].
  destruct (search re_json_object text) as [m|] eqn:Em; [|discriminate].
  destruct (json_loads py (group m)) as [parsed|] eqn:Ej; [|discriminate].
  intros H. inversion H; subst.
  exists text, (group m), parsed. rewrite Em. repeat split. exact Ej.
Qed.

(** X20.  The [source] of a result says which tier produced it: a [fallback]
    result is the fail-safe mapping, a [keyword_matching] result is what
    the keyword strategy returns for the job, and an [ai_analysis]
    result is built from the decoded object of a model answer; in each
    case [job_id] and [mapped_at] are the job's and the call's. *)
Theorem source_names_the_tier (py : runtime) (self : engine) (job : job_data)
  (env : call_env) (r : MappingResult) :
  map_job_to_programs py self job env = Ok r ->
  job_id r = j_job_id job /\ mapped_at r = now env /\
  match source r with
  | fallback => r = failed_to_analyze job (now env)
  | keyword_matching => _keyword_based_mapping py self job (now env) = Ok r
  | ai_analysis =>
      exists prompt text others g parsed,
        service env prompt = Ok (Some text :: others) /\
        option_map group (search re_json_object text) = Some g /\
        json_loads py g = Some parsed /\
        r = answer_of parsed job (now env)
  end.
Proof.
  assert (Hfail : forall x,
            Ok (failed_to_analyze job (now env)) = Ok x ->
            job_id x = j_job_id job /\ mapped_at x = now env /\
            match source x with
            | fallback => x = failed_to_analyze job (now env)
            | keyword_matching =>
                _keyword_based_mapping py self job (now env) = Ok x
            | ai_analysis =>
                exists prompt text others g parsed,
                  service env prompt = Ok (Some text :: others) /\
                  option_map group (search re_json_object text) = Some g /\
                  json_loads py g = Some parsed /\
                  x = answer_of parsed job (now env)
            end).
  { intros x H. inversion H; subst.
    split; [reflexivity|]. split; reflexivity. }
  assert (Hkey : forall x,
            _keyword_based_mapping py self job (now env) = Ok x ->
            job_id x = j_job_id job /\ mapped_at x = now env /\
            match source x with
            | fallback => x = failed_to_analyze job (now env)
            | keyword_matching =>
                _keyword_based_mapping py self job (now env) = Ok x
            | ai_analysis =>
                exists prompt text others g parsed,
                  service env prompt = Ok (Some text :: others) /\
                  option_map group (search re_json_object text) = Some g /\
                  json_loads py g = Some parsed /\
                  x = answer_of parsed job (now env)
            end).
  { intros x H. destruct (keyword_result _ _ _ _ _ H) as (mapped & found & _ & Hr).
    rewrite Hr in H |- *. cbn [job_id mapped_at source].
    split; [reflexivity|]. split; [reflexivity | exact H]. }
  revert r. unfold map_job_to_programs, map_job_body.
  destruct (_create_mapping_prompt self job) as [prompt|e]; [|exact Hfail].
  destruct (openai_model (the_settings self)); [|exact Hfail].
  destruct (openai_max_tokens (the_settings self)); [|exact Hfail].
  destruct (openai_temperature (the_settings self)); [|exact Hfail].
  cbn [index mbind result_bind rbind].
  destruct (service env prompt) as [[|content rest]|e] eqn:Es;
    cbn [mbind result_bind rbind try_except]; try exact Hfail.
  unfold _parse_ai_response.
  destruct (parse_attempt py content job (now env)) as [[r'|]|e] eqn:Ep;
    cbn [try_except mbind result_bind rbind].
  - intros r H. inversion H; subst.
    apply parse_attempt_answer in Ep as (text & g & parsed & -> & Hg & Hj & ->).
    cbn [answer_of job_id mapped_at source].
    split; [reflexivity|]. split; [reflexivity|].
    exists prompt, text, rest, g, parsed.
    split; [exact Es|]. split; [exact Hg|]. split; [exact Hj | reflexivity].
  - destruct (_keyword_based_mapping py self job (now env)) as [k|e'] eqn:Ek;
      cbn [try_except]; [|exact Hfail].
    intros r H. inversion H; subst. apply Hkey. reflexivity.
  - destruct (_keyword_based_mapping py self job (now env)) as [k|e'] eqn:Ek;
      cbn [try_except]; [|exact Hfail].
    intros r H. inversion H; subst. apply Hkey. reflexivity.
Qed.

Lemma source_names_the_tier_witness :
  _keyword_based_mapping sample_json f35_engine systems_engineer
    "2024-05-01T12:00:00" = Ok f35_keyword_result.
Proof.
  destruct (source_names_the_tier sample_json f35_engine systems_engineer
              (service_says (Some "no programs come to mind"))
              f35_keyword_result) as (_ & _ & H).
  - vm_compute. reflexivity.
  - exact H.
Defined.

(** ** [main] *)

Lemma init_value (py : runtime) (s : settings) (f : file_state)
  (key : option string) (d : programs_dictionary) :
  _load_programs_dictionary py f = Ok d ->
  _setup_openai key = Ok () ->
  __init__ py (Ok s) f key = Ok {| the_settings := s; programs_dict := d |}.
Proof. intros Hd Hk. unfold __init__. cbn [mbind result_bind rbind]. rewrite Hd. cbn [rbind]. rewrite Hk. reflexivity. Qed.

Lemma load_raises (py : runtime) (f : file_state) :
  (exists e, _load_programs_dictionary py f = Raise e) <->
  f = Unreadable \/ malformed py f.
Proof.
  unfold _load_programs_dictionary, malformed. split.
  - intros [e H]. destruct f as [| |text]; cbn [try_except] in H;
      [discriminate | left; reflexivity |].
    right. exists text. split; [reflexivity|].
    destruct (json_load_programs py text); [discriminate | reflexivity].
  - intros [->|(text & -> & H)]; [eexists; reflexivity|].
    rewrite H. eexists. reflexivity.
Qed.

Lemma setup_raises (key : option string) :
  (exists e, _setup_openai key = Raise e) <-> key = None \/ key = Some "".
Proof.
  unfold _setup_openai. split.
  - intros [e H]. destruct key as [k|]; [|left; reflexivity].
    destruct (String.eqb k "") eqn:E; [|discriminate].
    apply String.eqb_eq in E. subst. right. reflexivity.
  - intros [->| ->]; eexists; reflexivity.
Qed.

(** X21.  For a jobs file that holds job records, [main] exits with status 1
    exactly when the settings cannot be loaded, the dictionary file is
    unreadable or malformed, the API key is unset or empty, the jobs
    file cannot be read and decoded, or the output cannot be written: no
    job record and no answer or failure of the service ends the run, and
    a run that writes its results writes one result per job. *)
Theorem main_exit_conditions (py : runtime) (loaded : result settings)
  (dictionary_file : file_state) (api_key : option string)
  (jobs_file : result (list job_data)) (envs : nat -> call_env)
  (output : result unit) :
  (main py loaded dictionary_file api_key jobs_file envs output = Exit1 <->
   (exists e, loaded = Raise e) \/
   dictionary_file = Unreadable \/ malformed py dictionary_file \/
   api_key = None \/ api_key = Some "" \/
   (exists e, jobs_file = Raise e) \/ (exists e, output = Raise e)) /\
  (forall results,
     main py loaded dictionary_file api_key jobs_file envs output
     = Written results ->
     exists jobs, jobs_file = Ok jobs /\ length results = length jobs).
Proof.
  unfold main, __init__.
  destruct loaded as [s|e]; cbn [mbind result_bind rbind].
  2:{ split; [|discriminate]. split; [|reflexivity].
      intros _. left. eexists. reflexivity. }
  destruct (_load_programs_dictionary py dictionary_file) as [d|e] eqn:Ed;
    cbn [mbind result_bind rbind].
  2:{ split; [|discriminate]. split; [|reflexivity]. intros _.
      assert (H : exists e, _load_programs_dictionary py dictionary_file = Raise e)
        by (eexists; exact Ed).
      apply load_raises in H as [H|H]; [right; left | right; right; left]; exact H. }
  destruct (_setup_openai api_key) as [[]|e] eqn:Ek;
    cbn [mbind result_bind rbind mret result_ret].
  2:{ split; [|discriminate]. split; [|reflexivity]. intros _.
      assert (H : exists e, _setup_openai api_key = Raise e) by (eexists; exact Ek).
      apply setup_raises in H as [H|H]; [do 3 right; left | do 4 right; left];
        exact H. }
  unfold process_jobs_batch. destruct jobs_file as [jobs|e];
    cbn [mbind result_bind rbind try_except].
  2:{ split; [|discriminate]. split; [|reflexivity]. intros _.
      do 5 right. left. eexists. reflexivity. }
  destruct (mapping_loop_spec py {| the_settings := s; programs_dict := d |}
              envs jobs []) as (results & E & Hlen & _).
  rewrite E. cbn [app try_except rbind].
  destruct output as [[]|e]; cbn [rbind].
  2:{ split; [|discriminate]. split; [|reflexivity]. intros _.
      do 6 right. eexists. reflexivity. }
  split.
  - split; [discriminate|].
    intros [[e H]|[H|[H|[H|[H|[[e H]|[e H]]]]]]]; try discriminate.
    + assert (H' : exists e, _load_programs_dictionary py dictionary_file = Raise e)
        by (apply load_raises; left; exact H).
      destruct H' as [e H']. congruence.
    + assert (H' : exists e, _load_programs_dictionary py dictionary_file = Raise e)
        by (apply load_raises; right; exact H).
      destruct H' as [e H']. congruence.
    + assert (H' : exists e, _setup_openai api_key = Raise e)
        by (apply setup_raises; left; exact H).
      destruct H' as [e H']. congruence.
    + assert (H' : exists e, _setup_openai api_key = Raise e)
        by (apply setup_raises; right; exact H).
      destruct H' as [e H']. congruence.
  - intros rs H. inversion H; subst. exists jobs. split; [reflexivity | exact Hlen].
Qed.

End MappingTierFacts.

(* ===================================================================== *)
(** * The spider, and the spider followed by the normalizer *)
(* ===================================================================== *)

Module SpiderFacts.
Import PyText Re TextSpec TextFacts Examples.
Import NormalizerFacts NormalizerFields ClearanceFacts NormalizerJobFacts.
Import MappingTierFacts.
Import Spider.

(** ** The keyword scan *)

Lemma startswith_split (x : string) :
  forall s, startswith x s = true -> exists post, s = x +:+ post.
Proof.
  induction x as [|a x IH]; intros s H; [exists s; reflexivity|].
  destruct s as [|b s]; [discriminate|]. cbn [startswith] in H.
  apply andb_true_iff in H as [H1 H2]. apply Ascii.eqb_eq in H1. subst b.
  destruct (IH s H2) as [post ->]. exists post. reflexivity.
Qed.

Lemma str_in_split (x : string) :
  forall s, str_in x s = true -> exists pre post, s = pre +:+ x +:+ post.
Proof.
  induction s as [|c s IH]; intros H; rewrite str_in_unfold in H;
    apply orb_true_iff in H as [H|H].
  - apply startswith_split in H as [post ->]. exists "", post. reflexivity.
  - discriminate.
  - apply startswith_split in H as [post ->]. exists "", post. reflexivity.
  - destruct (IH H) as (pre & post & ->). exists (String c pre), post.
    reflexivity.
Qed.

Lemma str_in_trans (a b c : string) :
  str_in a b = true -> str_in b c = true -> str_in a c = true.
Proof.
  intros Hab Hbc. apply str_in_split in Hbc as (pre & post & ->).
  apply str_in_app_r, str_in_app_l, Hab.
Qed.

Lemma first_keyword_some (keywords : list string) (d kw : string) :
  first_keyword keywords d = Some kw ->
  exists before after,
    keywords = before ++ kw :: after /\
    str_in (upper kw) d = true /\
    Forall (fun k => str_in (upper k) d = false) before.
Proof.
  revert kw. induction keywords as [|k rest IH]; intros kw; cbn [first_keyword];
    [discriminate|].
  destruct (str_in (upper k) d) eqn:E.
  - intros H. inversion H; subst. exists [], rest.
    split; [reflexivity|]. split; [exact E | constructor].
  - intros H. destruct (IH kw H) as (before & after & -> & Hk & Hb).
    exists (k :: before), after. split; [reflexivity|].
    split; [exact Hk | constructor; assumption].
Qed.

Lemma first_keyword_finds (keywords : list string) (d k : string) :
  In k keywords -> str_in (upper k) d = true ->
  exists kw, first_keyword keywords d = Some kw.
Proof.
  induction keywords as [|k0 rest IH]; intros Hin Hk; [destruct Hin|].
  cbn [first_keyword]. destruct (str_in (upper k0) d) eqn:E.
  - exists k0. reflexivity.
  - destruct Hin as [->|Hin]; [congruence|]. apply IH; assumption.
Qed.

Lemma first_keyword_reachable (d : string) (keywords : list string) :
  forall seen kw,
    Forall (fun e => str_in (upper e) d = false) seen ->
    first_keyword keywords d = Some kw ->
    In kw (reachable seen keywords).
Proof.
  induction keywords as [|k rest IH]; intros seen kw Hseen;
    cbn [first_keyword reachable]; [discriminate|].
  destruct (str_in (upper k) d) eqn:E.
  - intros H. inversion H; subst kw.
    destruct (existsb _ seen) eqn:Ex; [|left; reflexivity].
    apply existsb_exists in Ex as (e & He & Hek).
    rewrite List.Forall_forall in Hseen. specialize (Hseen e He).
    rewrite (str_in_trans _ _ _ Hek E) in Hseen. discriminate.
  - intros H.
    assert (Hseen' : Forall (fun e => str_in (upper e) d = false) (seen ++ [k])).
    { apply Forall_app. split; [exact Hseen|]. constructor; [exact E | constructor]. }
    specialize (IH (seen ++ [k]) kw Hseen' H).
    destruct (existsb _ seen); [exact IH | right; exact IH].
Qed.

(** X22.  The keyword that the spider reports occurs, letter case aside, in
    the page's description, and it is one of ten: the seven entries of
    the keyword list that repeat an earlier entry in another letter case
    or contain one (SECRET, CONFIDENTIAL, CLEARANCE, and the two
    spellings of Security Clearance and of Government Clearance) are
    never reported. *)
Theorem spider_keyword_is_reachable (r : response) (kw : string) :
  _extract_clearance r = Some kw ->
  (exists description,
     _extract_description r = Some description /\
     str_in (upper kw) (upper description) = true) /\
  In kw [ "TS/SCI"; "Top Secret/SCI"; "Top Secret SCI"; "TS"; "Top Secret";
          "Secret"; "Confidential"; "DoD"; "Department of Defense";
          "Clearance" ].
Proof.
  unfold _extract_clearance.
  destruct (_extract_description r) as [d|]; [|discriminate].
  destruct (String.eqb d ""); [discriminate|]. intros H. split.
  - exists d. split; [reflexivity|].
    apply first_keyword_some in H as (before & after & _ & Hk & _). exact Hk.
  - apply (first_keyword_reachable _ _ [] kw (List.Forall_nil _)) in H.
    vm_compute in H. exact H.
Qed.

Lemma spider_keyword_is_reachable_witness :
  In "Secret"
     [ "TS/SCI"; "Top Secret/SCI"; "Top Secret SCI"; "TS"; "Top Secret";
       "Secret"; "Confidential"; "DoD"; "Department of Defense"; "Clearance" ].
Proof.
  apply (spider_keyword_is_reachable sample_page "Secret").
  vm_compute. reflexivity.
Defined.

(** ** The spider and the normalizer on the same description *)

Lemma extract_clearance_empty (t t' : nat) (level : string) :
  Normalizer._extract_clearance (PStr "") t <> (Ok (Some level), t').
Proof. vm_compute. discriminate. Qed.

(** X23.  The spider is at least as permissive as the normalizer: whenever
    the normalizer finds a clearance level in the description that the
    spider extracted from a page, the spider found a keyword in it and
    yielded the job. *)
Theorem classified_jobs_were_yielded (r : response) (description level : string)
  (now : string) (t t' : nat) :
  _extract_description r = Some description ->
  Normalizer._extract_clearance (PStr description) t = (Ok (Some level), t') ->
  parse_job_detail r now = Some (job_data r now).
Proof.
  intros Hd Hn.
  assert (Hkw : exists kw, _extract_clearance r = Some kw /\ kw <> "").
  { unfold _extract_clearance. rewrite Hd.
    destruct (String.eqb_spec description "") as [->|Hne];
      [exfalso; exact (extract_clearance_empty _ _ _ Hn)|].
    apply clearance_result in Hn as (s & kw' & Hs & Hin & Hocc).
    inversion Hs; subst s. clear Hs.
    assert (Hk : exists k, In k clearance_keywords /\ upper k = kw').
    { unfold NormalizerMain.level_keywords in Hin. cbn [In] in Hin.
      destruct Hin as [Hin|[Hin|[Hin|[Hin|[]]]]]; inversion Hin; subst.
      - exists "TS/SCI". split; [cbn; auto | reflexivity].
      - exists "TS". split; [cbn; auto | reflexivity].
      - exists "Secret". split; [cbn; auto 7 | reflexivity].
      - exists "Confidential". split; [cbn; auto 9 | reflexivity]. }
    destruct Hk as (k & Hk & <-).
    destruct (first_keyword_finds _ _ k Hk Hocc) as [kw Hkw].
    exists kw. split; [exact Hkw|].
    apply (first_keyword_reachable _ _ [] kw (List.Forall_nil _)) in Hkw.
    vm_compute in Hkw. intros ->.
    repeat destruct Hkw as [Hkw|Hkw]; try discriminate. exact Hkw. }
  destruct Hkw as (kw & Hkw & Hne). unfold parse_job_detail. rewrite Hkw.
  cbn [opt_str truthy]. destruct (String.eqb_spec kw ""); [contradiction|].
  reflexivity.
Qed.

Lemma classified_jobs_were_yielded_witness :
  parse_job_detail sample_page "2024-05-01T12:00:00"
  = Some (job_data sample_page "2024-05-01T12:00:00").
Proof.
  apply (classified_jobs_were_yielded sample_page "Active secret clearance"
           "Secret" "2024-05-01T12:00:00" 0 0).
  - vm_compute. reflexivity.
  - vm_compute. reflexivity.
Defined.

(** ** Yielded items under the normalizer *)

Lemma item_fields (v1 v2 v3 v4 v5 v6 v7 v8 v9 v10 v11 : pyval) :
  let item : Normalizer.RawJobRecord :=
    list_to_map
      [ ("job_id", v1); ("title", v2); ("company", v3); ("location", v4);
        ("clearance_level", v5); ("description", v6); ("url", v7);
        ("posted_date", v8); ("source", v9); ("scraped_at", v10);
        ("raw_data", v11) ] in
  item !! "job_id" = Some v1 /\ item !! "title" = Some v2 /\
  item !! "company" = Some v3 /\ item !! "location" = Some v4 /\
  item !! "description" = Some v6 /\ item !! "url" = Some v7 /\
  item !! "posted_date" = Some v8 /\ item !! "source" = Some v9 /\
  item !! "scraped_at" = Some v10.
Proof. repeat split; vm_compute; reflexivity. Qed.

Lemma not_text_str (s : string) : NormalizerMain.not_text (PStr s) = false.
Proof. unfold NormalizerMain.not_text. apply andb_false_r. Qed.

Lemma not_text_opt (o : option string) : NormalizerMain.not_text (opt_str o) = false.
Proof. destruct o; [apply not_text_str | reflexivity]. Qed.

(** X24.  Every item that the spider yields is accepted by the normalizer: the
    normalized job has the display name Insight Global as its company,
    and the item's source, URL and scraping time unchanged. *)
Theorem yielded_items_normalize (py : Normalizer.runtime) (r : response)
  (now : string) (item : Normalizer.RawJobRecord) (t : nat) :
  parse_job_detail r now = Some item ->
  exists n t',
    Normalizer.normalize_job py item t = (Ok (Some n), t') /\
    Normalizer.company n = "Insight Global" /\
    Normalizer.source n = PStr "Insight Global" /\
    Normalizer.url n = PStr (url r) /\
    Normalizer.scraped_at n = PStr now.
Proof.
  unfold parse_job_detail. destruct (truthy _); [|discriminate].
  intros H. inversion H; subst item; clear H.
  destruct (item_fields (PStr (_extract_job_id r)) (opt_str (_extract_title r))
              (PStr "Insight Global") (opt_str (_extract_location r))
              (opt_str (_extract_clearance r)) (opt_str (_extract_description r))
              (PStr (url r)) (opt_str (_extract_posted_date r))
              (PStr "Insight Global") (PStr now) (_extract_raw_data r))
    as (F1 & F2 & F3 & F4 & F6 & F7 & F8 & F9 & F10).
  fold (job_data r now) in F1, F2, F3, F4, F6, F7, F8, F9, F10.
  pose proof (body_outcome py (job_data r now) t) as Hbody.
  assert (Hkeep : NormalizerMain.dropped (job_data r now) = false).
  { unfold NormalizerMain.dropped, NormalizerMain.text_fields, Normalizer.get.
    cbn [existsb]. rewrite F1, F2, F3, F4, F6.
    rewrite !not_text_str, !not_text_opt. reflexivity. }
  rewrite Hkeep in Hbody. destruct Hbody as (n & t' & E).
  exists n, t'. split.
  { unfold Normalizer.normalize_job, Normalizer.try_exceptM.
    rewrite bind_run, E. reflexivity. }
  unfold Normalizer.normalize_job_body, Normalizer.get in E.
  rewrite F1, F2, F3, F6, F7, F8, F9, F10 in E.
  apply bind_ok in E as (r1 & t1 & _ & E).
  apply bind_ok in E as (r2 & t2 & _ & E).
  apply bind_ok in E as (r3 & t3 & H3 & E).
  apply bind_ok in E as (r4 & t4 & _ & E).
  apply bind_ok in E as (r5 & t5 & _ & E).
  apply bind_ok in E as (r6 & t6 & _ & E).
  apply bind_ok in E as (r7 & t7 & _ & E).
  apply bind_ok in E as (d1 & t8 & _ & E).
  apply bind_ok in E as (d2 & t9 & _ & E).
  apply ret_ok in E as [<- _].
  cbn [Normalizer.company Normalizer.source Normalizer.url Normalizer.scraped_at].
  split; [|repeat split].
  rewrite company_value in H3. vm_compute in H3. inversion H3. reflexivity.
Qed.

Lemma yielded_items_normalize_witness :
  exists n t',
    Normalizer.normalize_job sample_datetime
      (job_data sample_page "2024-05-01T12:00:00") 0 = (Ok (Some n), t') /\
    Normalizer.company n = "Insight Global".
Proof.
  destruct (yielded_items_normalize sample_datetime sample_page
              "2024-05-01T12:00:00"
              (job_data sample_page "2024-05-01T12:00:00") 0)
    as (n & t' & E & H & _); [vm_compute; reflexivity|].
  exists n, t'. split; [exact E | exact H].
Defined.

(** ** Job identifiers taken from the URL *)

Lemma search_from_match (r : regex) (u : string) :
  forall prev v rest,
    search_from r prev u = Some (v, rest) ->
    exists pre prev' p, u = pre +:+ v /\ match_here r prev' v = Some (p, rest).
Proof.
  induction u as [|c u IH]; intros prev v rest; cbn [search_from].
  - destruct (match_here r prev "") as [[p rest']|] eqn:E; [|discriminate].
    intros H. inversion H; subst. exists "", prev, p. split; [reflexivity | exact E].
  - destruct (match_here r prev (String c u)) as [[p rest']|] eqn:E.
    + intros H. inversion H; subst. exists "", prev, p.
      split; [reflexivity | exact E].
    + intros H. destruct (IH _ _ _ H) as (pre & prev' & p & -> & Hm).
      exists (String c pre), prev', p. split; [reflexivity | exact Hm].
Qed.








End SpiderFacts.
